(** * etl_connector.py: a shallow embedding and its verified properties

    The connector is one Python module: configuration resolution
    ([load_config]), the retrying HTTP session
    ([build_session_with_retries]), [build_auth_headers],
    [ensure_list_payload], [extract], [transform], [load_to_mongo] and the
    orchestrating loop [run]; [write_debug_json] appears as one of the steps
    [run] sequences.

    Conventions of the embedding.
    - A Python [str] is a list of Unicode code points ([str := list N]);
      [py "..."] turns a literal into one.
    - Values produced by [response.json()] are immutable trees ([pyval]);
      a [dict] is a finite map from [str] to values.  Where the code copies
      and updates objects ([transform]) they live in a store, at addresses.
    - Code that can raise returns an [outcome]; code with effects is a state
      transformer [M W A := W -> outcome A * W] over the world [W] it acts on.
    - Behaviour of third-party libraries (urllib, requests, urllib3, pymongo)
      enters either as a Section variable or as a small, separately
      documented model of the library's contract. *)

From Stdlib Require Import ZArith NArith Ascii String QArith Qminmax SpecFloat.
From stdpp Require Import gmap strings list.
Set Warnings "-register-all".

#[local] Open Scope Z_scope.
#[local] Open Scope list_scope.

(* ================================================================== *)
(** ** Python strings *)
(* ================================================================== *)

Abbreviation str := (list N).

(** A literal: each character of the Rocq string is one code point. *)
Definition py (s : string) : str := N_of_ascii <$> list_ascii_of_string s.

(** [str.isspace] on one code point: the characters [str.strip()] removes.
    This is CPython's [_PyUnicode_IsWhitespace] table. *)
Definition is_space (c : N) : bool :=
  ((9 <=? c) && (c <=? 13) || (28 <=? c) && (c <=? 32)
   || (c =? 133) || (c =? 160) || (c =? 5760)
   || (8192 <=? c) && (c <=? 8202)
   || (c =? 8232) || (c =? 8233) || (c =? 8239) || (c =? 8287)
   || (c =? 12288))%N.

Definition is_char (x c : N) : bool := (c =? x)%N.

Definition slash : N := 47%N.
Definition comma : N := 44%N.
Definition dot : N := 46%N.
Definition underscore : N := 95%N.

(** [s.lstrip(chars)]: drop the longest prefix of characters satisfying [p]. *)
Fixpoint lstrip_by (p : N -> bool) (s : str) : str :=
  match s with
  | [] => []
  | c :: s' => if p c then lstrip_by p s' else s
  end.

(** [s.rstrip(chars)]: the same from the right end. *)
Definition rstrip_by (p : N -> bool) (s : str) : str :=
  reverse (lstrip_by p (reverse s)).

(** [s.strip()] with no argument removes whitespace on both sides. *)
Definition strip (s : str) : str := rstrip_by is_space (lstrip_by is_space s).

(** [s.split(sep)] for a one-character separator: never returns the empty
    list; [n] separators give [n + 1] fields, empty ones included. *)
Fixpoint split (sep : N) (s : str) : list str :=
  match s with
  | [] => [[]]
  | c :: s' =>
      if (c =? sep)%N then [] :: split sep s'
      else match split sep s' with
           | [] => [[c]]
           | w :: ws => (c :: w) :: ws
           end
  end.

(** [s.replace(old, new)] for one-character [old] and [new]. *)
Definition replace_char (old new : N) (s : str) : str :=
  (fun c => if (c =? old)%N then new else c) <$> s.

(** Truthiness of a string: [if s] holds exactly for the non-empty ones. *)
Definition truthy (s : str) : bool :=
  match s with [] => false | _ => true end.

(* ================================================================== *)
(** ** Exceptions and effects *)
(* ================================================================== *)

(** The subclasses of [Exception] that the connector and its libraries
    raise.  [BulkWriteError] carries pymongo's [details]: the number of
    documents written and the indexes of the failed ones. *)
Inductive exn : Type :=
  | HTTPError (status : Z)
  | RequestException (what : string)
  | JSONDecodeError
  | ValueError (what : string)
  | TypeError (what : string)
  | BulkWriteError (nInserted : nat) (writeErrors : list nat)
  | ServerSelectionTimeoutError
  | OSError (what : string).

Inductive outcome (A : Type) : Type :=
  | Ok (a : A)
  | Raise (e : exn).
Arguments Ok {A} a.
Arguments Raise {A} e.

(** State-and-exception monad: a raised exception keeps the state reached. *)
Definition M (W A : Type) : Type := W -> outcome A * W.

Definition ret {W A} (a : A) : M W A := fun w => (Ok a, w).

Definition bind {W A B} (m : M W A) (k : A -> M W B) : M W B :=
  fun w => match m w with
           | (Ok a, w') => k a w'
           | (Raise e, w') => (Raise e, w')
           end.

Definition raise {W A} (e : exn) : M W A := fun w => (Raise e, w).

(** [try: m except Exception as exc: h exc] *)
Definition try_except {W A} (m : M W A) (h : exn -> M W A) : M W A :=
  fun w => match m w with
           | (Ok a, w') => (Ok a, w')
           | (Raise e, w') => h e w'
           end.

(** A pure state update, e.g. an assignment to a local variable. *)
Definition modify {W} (f : W -> W) : M W unit := fun w => (Ok tt, f w).

Definition gets {W A} (f : W -> A) : M W A := fun w => (Ok (f w), w).

(** A call that does not touch the world but may raise. *)
Definition lift_outcome {W A} (r : outcome A) : M W A := fun w => (r, w).

Declare Scope py_scope.
Delimit Scope py_scope with pyM.
Notation "x <- m ;; k" := (bind m (fun x => k))
  (at level 100, m at next level, right associativity) : py_scope.
Notation "m ;;; k" := (bind m (fun _ => k))
  (at level 100, right associativity) : py_scope.

(** [for x in xs: body x] *)
Fixpoint for_each {W A} (xs : list A) (body : A -> M W unit) : M W unit :=
  match xs with
  | [] => ret tt
  | x :: xs' => bind (body x) (fun _ => for_each xs' body)
  end.

(* ================================================================== *)
(** ** Configuration: [load_config] *)
(* ================================================================== *)

(** The dictionary [load_config] returns has a fixed set of keys. *)
Record Config : Type := mkConfig {
  api_base_url : str;
  api_endpoints : list str;
  api_key : str;
  api_auth_header : str;
  api_auth_prefix : str;
  mongo_uri : str;
  mongo_db : str;
  mongo_collection : str;
  connector_name : str;
}.

(** [os.getenv(name, default)] on the process environment (after
    [load_dotenv()] has merged the .env file into it). *)
Definition getenv (env : gmap str str) (name : string) (default : string) : str :=
  match env !! py name with
  | Some v => v
  | None => py default
  end.

(** Line 36:
    [[e.strip().lstrip("/") for e in csv.split(",") if e.strip()]] *)
Definition parse_endpoints (api_endpoints_csv : str) : list str :=
  (fun e => lstrip_by (is_char slash) (strip e))
    <$> filter (fun e => truthy (strip e) = true) (split comma api_endpoints_csv).

Section LoadConfig.
(** [urlparse(url).hostname] from the standard library: [Raise] when
    [urlparse] rejects the URL, [Ok None] when the URL has no host. *)
Variable urlparse_hostname : str -> outcome (option str).

Definition load_config (env : gmap str str) : outcome Config :=
  let api_base_url :=
    rstrip_by (is_char slash)
      (getenv env "API_BASE_URL" "https://jsonplaceholder.typicode.com") in
  let api_endpoints_csv := getenv env "API_ENDPOINTS" "posts,comments,users" in
  let api_endpoints := parse_endpoints api_endpoints_csv in
  let api_key := getenv env "API_KEY" EmptyString in
  let api_auth_header := getenv env "API_AUTH_HEADER" "Authorization" in
  let api_auth_prefix := getenv env "API_AUTH_PREFIX" "Bearer" in
  let mongo_uri := getenv env "MONGO_URI" "mongodb://localhost:27017" in
  let mongo_db := getenv env "MONGO_DB" "etl_db" in
  let mongo_collection := getenv env "MONGO_COLLECTION" EmptyString in
  match urlparse_hostname api_base_url with
  | Raise e => Raise e
  | Ok hostname =>
      let connector_name :=
        match hostname with
        | Some h => if truthy h then replace_char dot underscore h
                    else py "connector"
        | None => py "connector"
        end in
      let mongo_collection :=
        if negb (truthy mongo_collection) then connector_name ++ py "_raw"
        else mongo_collection in
      Ok (mkConfig api_base_url api_endpoints api_key api_auth_header
            api_auth_prefix mongo_uri mongo_db mongo_collection
            connector_name)
  end.
End LoadConfig.

(** The URL [load_config] hands to [urlparse]: the base URL without its
    trailing slashes. *)
Definition resolved_base_url (env : gmap str str) : str :=
  rstrip_by (is_char slash)
    (getenv env "API_BASE_URL" "https://jsonplaceholder.typicode.com").

(* ================================================================== *)
(** ** [build_auth_headers] *)
(* ================================================================== *)

Definition build_auth_headers (api_key header_name prefix : str) : gmap str str :=
  if negb (truthy api_key) then ∅
  else
    let value := strip (prefix ++ py " " ++ api_key) in
    let value := if negb (truthy prefix) then api_key else value in
    {[ header_name := value ]}.

(* ================================================================== *)
(** ** Python values and [ensure_list_payload] *)
(* ================================================================== *)

(** What [response.json()] can return, plus the [datetime] that
    [transform] stores.  A float is its IEEE-754 binary64 value. *)
Inductive pyval : Type :=
  | PNone
  | PBool (b : bool)
  | PInt (z : Z)
  | PFloat (f : spec_float)
  | PStr (s : str)
  | PList (items : list pyval)
  | PDict (fields : gmap str pyval)
  | PDatetime (utc_microseconds : Z).

(** [key in data and isinstance(data[key], list)], returning the list. *)
Definition list_field (d : gmap str pyval) (key : str) : option (list pyval) :=
  match d !! key with
  | Some (PList l) => Some l
  | _ => None
  end.

(** The loop [for key in ("data", "items", "results")] of lines 100-102:
    the first key bound to a list wins; [None] when the loop falls through. *)
Fixpoint first_list_field (d : gmap str pyval) (keys : list str) : option (list pyval) :=
  match keys with
  | [] => None
  | key :: keys' =>
      match list_field d key with
      | Some l => Some l
      | None => first_list_field d keys'
      end
  end.

Definition payload_keys : list str := [py "data"; py "items"; py "results"].

Definition ensure_list_payload (data : pyval) : list pyval :=
  match data with
  | PList items => items
  | PDict d =>
      match first_list_field d payload_keys with
      | Some l => l
      | None => [data]
      end
  | _ => []
  end.

(* ================================================================== *)
(** ** [extract] *)
(* ================================================================== *)

(** The parts of a [requests.Response] that [extract] reads.  [json] is the
    result of calling [response.json()]. *)
Record Response : Type := mkResponse {
  status_code : Z;
  header_get : str -> option str;
  text : str;
  json : outcome pyval;
}.

(** [Response.raise_for_status]: HTTPError for 4xx and 5xx. *)
Definition is_error_status (s : Z) : bool := (400 <=? s) && (s <? 600).

Definition raise_for_status {W} (r : Response) : M W unit :=
  if is_error_status (status_code r) then raise (HTTPError (status_code r))
  else ret tt.

(** [Response.ok]: true unless [raise_for_status] would raise. *)
Definition ok (r : Response) : bool := negb (is_error_status (status_code r)).

Record Meta : Type := mkMeta {
  meta_status_code : Z;
  meta_url : str;
  record_count : Z;
}.

(** What the module writes through [logger]. *)
Inductive LogRecord : Type :=
  | LogFetching (url : str)
  | LogRateLimited (retry_after : option str)
  | LogHttpError (status : Z) (url : str) (body : str)
  | LogParseFailure (url : str) (e : exn)
  | LogFetched (count : Z) (url : str)
  | LogInserted (count : Z) (db collection : str)
  | LogWrote (path : str)
  | LogEndpointFailed (endpoint : str) (e : exn)
  | LogDone (total : Z).

Section Extract.
Context {W : Type}.
(** [urllib.parse.urljoin]; like [urlparse] it raises on a URL it rejects. *)
Variable urljoin : str -> str -> outcome str.
(** [session.get(url, headers=..., timeout=...)]: the final response after
    the adapter's retries, or the exception requests raises. *)
Variable session_get : str -> gmap str str -> Z -> M W Response.
(** [logger.info], [logger.warning], [logger.error], [logger.exception]:
    logging changes the world (file and console) and never raises. *)
Variable logger : LogRecord -> W -> W.

#[local] Open Scope py_scope.

Definition extract (base_url endpoint : str) (auth_headers : gmap str str)
  : M W (list pyval * Meta) :=
  url <- lift_outcome (urljoin (base_url ++ py "/") endpoint) ;;
  modify (logger (LogFetching url)) ;;;
  response <- session_get url auth_headers 30 ;;
  (if status_code response =? 429
   then modify (logger (LogRateLimited (header_get response (py "Retry-After"))))
   else ret tt) ;;;
  (if negb (ok response)
   then modify (logger (LogHttpError (status_code response) url (take 500 (text response)))) ;;;
        raise_for_status response
   else ret tt) ;;;
  data <- match json response with
          | Ok data => ret data
          | Raise exc => modify (logger (LogParseFailure url exc)) ;;; raise exc
          end ;;
  let records := ensure_list_payload data in
  let meta := mkMeta (status_code response) url (Z.of_nat (length records)) in
  ret (records, meta).

(** The world in which [extract] returns its records: since the response
    arrived, only the rate-limit warning may have been logged. *)
Definition after_response (response : Response) (w : W) : W :=
  if status_code response =? 429
  then logger (LogRateLimited (header_get response (py "Retry-After"))) w
  else w.
End Extract.

(* ================================================================== *)
(** ** The object store and [transform] *)
(* ================================================================== *)

(** [transform] copies dictionaries and appends to a list, so here objects
    have an identity.  The store holds the two kinds of objects the function
    touches, typed as its annotation [List[Dict[str, Any]]] says: lists of
    references to records, and records (dictionaries).  The values inside a
    record are not touched by [transform]; [dict(record)] is a shallow copy
    and shares them. *)
Definition loc := positive.

Record heap : Type := mkHeap {
  lists : gmap loc (list loc);
  dicts : gmap loc (gmap str pyval);
}.

Definition allocated (h : heap) : gset loc := dom (lists h) ∪ dom (dicts h).

(** The interpreter state [transform] runs in: the store, and how many times
    the clock has been read. *)
Record pystate : Type := mkState {
  st_heap : heap;
  clock_reads : nat;
}.

(** A new object gets an address no live object has. *)
Definition new_loc (s : pystate) : loc := fresh (allocated (st_heap s)).

(** [[]]: a new empty list. *)
Definition new_list (s : pystate) : loc * pystate :=
  let l := new_loc s in
  (l, mkState (mkHeap (<[l := []]> (lists (st_heap s))) (dicts (st_heap s)))
              (clock_reads s)).

(** [dict(record)]: a new dictionary with the entries of [record]. *)
Definition dict_copy (record : loc) (s : pystate) : option (loc * pystate) :=
  match dicts (st_heap s) !! record with
  | None => None
  | Some fields =>
      let d := new_loc s in
      Some (d, mkState (mkHeap (lists (st_heap s)) (<[d := fields]> (dicts (st_heap s))))
                       (clock_reads s))
  end.

(** [doc[key] = v]: in-place update of the dictionary at [doc]. *)
Definition dict_setitem (doc : loc) (key : str) (v : pyval) (s : pystate)
  : option pystate :=
  match dicts (st_heap s) !! doc with
  | None => None
  | Some fields =>
      Some (mkState (mkHeap (lists (st_heap s))
                            (<[doc := <[key := v]> fields]> (dicts (st_heap s))))
                    (clock_reads s))
  end.

(** [l.append(x)]: in-place update of the list at [l]. *)
Definition list_append (l : loc) (x : loc) (s : pystate) : option pystate :=
  match lists (st_heap s) !! l with
  | None => None
  | Some items =>
      Some (mkState (mkHeap (<[l := items ++ [x]]> (lists (st_heap s)))
                            (dicts (st_heap s)))
                    (clock_reads s))
  end.

Section Transform.
(** [utc_clock n] is what the [n]-th call of [datetime.now(timezone.utc)]
    in this process returns. *)
Variable utc_clock : nat -> Z.

Definition datetime_now (s : pystate) : Z * pystate :=
  (utc_clock (clock_reads s), mkState (st_heap s) (S (clock_reads s))).

(** The body of [for record in records], lines 144-149, over the records
    the input list holds when the loop starts: the loop appends only to
    [transformed], a list created by this call, so the input list cannot
    change under the iteration.  [None] only for a dangling reference, which
    a Python program cannot hold. *)
Fixpoint transform_loop (ingested_at : Z) (endpoint : str) (transformed : loc)
    (records : list loc) (s : pystate) : option pystate :=
  match records with
  | [] => Some s
  | record :: rest =>
      match dict_copy record s with
      | None => None
      | Some (doc, s1) =>
          match dict_setitem doc (py "ingested_at") (PDatetime ingested_at) s1 with
          | None => None
          | Some s2 =>
              match dict_setitem doc (py "source_endpoint") (PStr endpoint) s2 with
              | None => None
              | Some s3 =>
                  match list_append transformed doc s3 with
                  | None => None
                  | Some s4 => transform_loop ingested_at endpoint transformed rest s4
                  end
              end
          end
      end
  end.

Definition transform (records : loc) (endpoint : str) (s : pystate)
  : option (loc * pystate) :=
  let '(ingested_at, s0) := datetime_now s in
  let '(transformed, s1) := new_list s0 in
  match lists (st_heap s1) !! records with
  | None => None
  | Some recs =>
      match transform_loop ingested_at endpoint transformed recs s1 with
      | None => None
      | Some s' => Some (transformed, s')
      end
  end.
End Transform.

(** A store to run [transform] on: the list at address 1 holds the record
    at address 2 twice; the record already has an [ingested_at] field. *)
Definition sample_clock (n : nat) : Z := 1700000000 + Z.of_nat n.

Definition sample_record : gmap str pyval :=
  <[py "ingested_at" := PStr (py "stale")]> (<[py "id" := PInt 1]> ∅).

Definition sample_state : pystate :=
  mkState (mkHeap {[ 1%positive := [2%positive; 2%positive] ]}
                  {[ 2%positive := sample_record ]}) 0.

(** What lines 147-148 make of the entries of one record. *)
Definition enrich (ingested_at : Z) (endpoint : str) (fields : gmap str pyval)
  : gmap str pyval :=
  <[py "source_endpoint" := PStr endpoint]>
    (<[py "ingested_at" := PDatetime ingested_at]> fields).

(* ================================================================== *)
(** ** [load_to_mongo] *)
(* ================================================================== *)

(** [pymongo.results.InsertManyResult]. *)
Record InsertManyResult (Id : Type) : Type := mkInsertManyResult {
  inserted_ids : list Id;
  acknowledged : bool;
}.
Arguments mkInsertManyResult {Id} _ _.
Arguments inserted_ids {Id} _.
Arguments acknowledged {Id} _.

Section Load.
Context {W Doc Id Client Collection : Type}.
(** The three driver calls of lines 161-163.  Each may raise. *)
Variable MongoClient : str -> M W Client.
Variable get_collection : Client -> str -> str -> M W Collection.
(** [collection.insert_many(documents, ordered=...)] *)
Variable insert_many : Collection -> list Doc -> bool -> M W (InsertManyResult Id).

#[local] Open Scope py_scope.

Definition load_to_mongo (mongo_uri database_name collection_name : str)
    (documents : list Doc) : M W Z :=
  match documents with
  | [] => ret 0
  | _ =>
      client <- MongoClient mongo_uri ;;
      collection <- get_collection client database_name collection_name ;;
      result <- insert_many collection documents false ;;
      ret (Z.of_nat (length (inserted_ids result)))
  end.
End Load.

(** *** The driver's contract for [insert_many]

    pymongo is not part of the repository.  This is its documented
    behaviour for [Collection.insert_many] against one collection with the
    mandatory unique index on [_id]: every document gets an [_id] (its own,
    or a generated ObjectId); with [ordered=False] the server attempts every
    document and skips those whose [_id] is already present; when at least
    one write failed the call raises [BulkWriteError] (carrying [nInserted]),
    otherwise it returns the [_id]s of all documents; with [ordered=True]
    the server stops at the first failure.  An unreachable server makes the
    call raise [ServerSelectionTimeoutError] before anything is written, and
    an empty [documents] is rejected with [TypeError]. *)
Module Pymongo.
Section Driver.
Context {Doc K : Type} `{EqDecision K}.
(** The [_id] a document carries, if it has one. *)
Variable given_id : Doc -> option K.

(** An [_id]: one supplied by the document, or a generated ObjectId. *)
Definition id : Type := K + nat.

Record server : Type := mkServer {
  reachable : bool;
  stored : list id;
  next_oid : nat;
}.

(** The client side: assign ids in document order. *)
Fixpoint assign_ids (documents : list Doc) (oid : nat) : list id * nat :=
  match documents with
  | [] => ([], oid)
  | d :: rest =>
      match given_id d with
      | Some k => let '(ids, oid') := assign_ids rest oid in (inl k :: ids, oid')
      | None => let '(ids, oid') := assign_ids rest (S oid) in (inr oid :: ids, oid')
      end
  end.

(** The server side: the documents written and the indexes of the failed
    ones.  [ordered] stops at the first duplicate key. *)
Fixpoint write_batch (ordered : bool) (index : nat) (batch : list id) (present : list id)
  : list id * list nat :=
  match batch with
  | [] => (present, [])
  | i :: rest =>
      if bool_decide (i ∈ present) then
        if ordered then (present, [index])
        else let '(present', errs) := write_batch ordered (S index) rest present in
             (present', index :: errs)
      else write_batch ordered (S index) rest (present ++ [i])
  end.

Definition insert_many (documents : list Doc) (ordered : bool)
  : M server (InsertManyResult id) :=
  fun srv =>
    if bool_decide (documents = []) then
      (Raise (TypeError "documents must be a non-empty list"), srv)
    else if negb (reachable srv) then (Raise ServerSelectionTimeoutError, srv)
    else
      let '(ids, oid') := assign_ids documents (next_oid srv) in
      let '(present', errs) := write_batch ordered 0 ids (stored srv) in
      let srv' := mkServer true present' oid' in
      match errs with
      | [] => (Ok (mkInsertManyResult ids true), srv')
      | _ => (Raise (BulkWriteError (length present' - length (stored srv)) errs), srv')
      end.
End Driver.
End Pymongo.

(** *** The loader on that driver

    [MongoClient(uri)] connects lazily and [client[db][name]] only builds
    handles, so with well-formed names neither touches the server. *)
Section PymongoLoader.
Context {Doc K : Type} `{EqDecision K}.
Variable given_id : Doc -> option K.

Definition pymongo_load_to_mongo (mongo_uri database_name collection_name : str)
    (documents : list Doc) : M (Pymongo.server (K := K)) Z :=
  load_to_mongo (fun _ => ret tt) (fun _ _ _ => ret tt)
    (fun _ docs ordered => Pymongo.insert_many given_id docs ordered)
    mongo_uri database_name collection_name documents.

(** The [_id]s the driver sends for [documents]. *)
Definition batch_ids (documents : list Doc) (srv : Pymongo.server (K := K))
  : list (Pymongo.id (K := K)) :=
  fst (Pymongo.assign_ids given_id documents (Pymongo.next_oid srv)).
End PymongoLoader.

(** Documents as [transform] builds them; the examples use integer [_id]s. *)
Definition int_id (d : gmap str pyval) : option Z :=
  match d !! py "_id" with
  | Some (PInt k) => Some k
  | _ => None
  end.

Definition sample_doc (k : Z) (title : string) : gmap str pyval :=
  <[py "title" := PStr (py title)]> (<[py "_id" := PInt k]> ∅).

Definition empty_server : Pymongo.server (K := Z) := Pymongo.mkServer true [] 0.

(* ================================================================== *)
(** ** [build_session_with_retries] *)
(* ================================================================== *)

(** *** urllib3's [Retry]

    urllib3 is not part of the repository.  The record has the constructor
    arguments of [urllib3.util.retry.Retry]; the functions below are the
    library's documented behaviour for responses whose status asks for a
    retry: [total] is the number of retries allowed (decremented by
    [increment], exhausted once it drops below zero), a response is retried
    when its method is allowed and its status is in [status_forcelist] (or
    it carries a Retry-After header with status 413, 429 or 503), and the
    pause before a retry is the response's Retry-After when it has one, and
    otherwise [backoff_factor * 2 ^ (n - 1)] seconds after [n] consecutive
    failures, zero for the first and at most [backoff_max]. *)
Module Urllib3.

Record Retry : Type := mkRetry {
  total : option Z;
  connect : option Z;
  read : option Z;
  redirect : option Z;
  status : option Z;
  other : option Z;
  allowed_methods : list str;
  status_forcelist : list Z;
  backoff_factor : Q;
  backoff_max : Q;
  raise_on_status : bool;
  respect_retry_after_header : bool;
  history : list Z;
}.

(** [str.upper] on the ASCII letters, which is all an HTTP method has. *)
Definition upper (s : str) : str :=
  (fun c => if ((97 <=? c) && (c <=? 122))%N then (c - 32)%N else c) <$> s.

Definition RETRY_AFTER_STATUS_CODES : list Z := [413; 429; 503].

Definition is_method_retryable (r : Retry) (method : str) : bool :=
  match allowed_methods r with
  | [] => true
  | _ => bool_decide (upper method ∈ allowed_methods r)
  end.

(** A counter is truthy when it is set and not zero. *)
Definition truthy_count (c : option Z) : bool :=
  match c with Some n => negb (n =? 0) | None => false end.

Definition is_retry (r : Retry) (method : str) (status_code : Z) (has_retry_after : bool)
  : bool :=
  if negb (is_method_retryable r method) then false
  else if bool_decide (status_code ∈ status_forcelist r) then true
  else truthy_count (total r) && respect_retry_after_header r && has_retry_after
       && bool_decide (status_code ∈ RETRY_AFTER_STATUS_CODES).

Definition is_exhausted (r : Retry) : bool :=
  let retry_counts :=
    omap (fun c => if truthy_count c then c else None)
         [total r; connect r; read r; redirect r; status r; other r] in
  match retry_counts with
  | [] => false
  | c :: cs => foldr Z.min c cs <? 0
  end.

(** A policy that limits only [total] and does not raise on status, like
    the one the connector builds. *)
Definition limits_total_only (r : Retry) : Prop :=
  connect r = None /\ read r = None /\ redirect r = None /\ status r = None
  /\ other r = None /\ raise_on_status r = false.

(** [increment] for a response (not an error, not a redirect): [None] stands
    for [MaxRetryError]. *)
Definition increment (r : Retry) (status_code : Z) : option Retry :=
  let r' := mkRetry (Z.pred <$> total r) (connect r) (read r) (redirect r)
              (Z.pred <$> status r) (other r) (allowed_methods r)
              (status_forcelist r) (backoff_factor r) (backoff_max r)
              (raise_on_status r) (respect_retry_after_header r)
              (history r ++ [status_code]) in
  if is_exhausted r' then None else Some r'.

Definition get_backoff_time (r : Retry) : Q :=
  let n := length (history r) in
  if (n <=? 1)%nat then 0%Q
  else Qred (Qmin (backoff_max r) (backoff_factor r * inject_Z (2 ^ Z.of_nat (n - 1))))%Q.

(** What one attempt of a request meets: the status of the response and
    the seconds of its Retry-After header, if it has one. *)
Definition attempt : Type := Z * option Q.

(** [Retry.sleep]: how long the pool pauses before the next request. *)
Definition sleep (r : Retry) (retry_after : option Q) : Q :=
  match retry_after with
  | Some seconds =>
      if respect_retry_after_header r && negb (Qeq_bool seconds 0) then seconds
      else get_backoff_time r
  | None => get_backoff_time r
  end.

(** What the caller of [urlopen] sees in the end, with the number of
    requests sent and the pauses slept between them. *)
Inductive sent : Type :=
  | Responded (status_code : Z) (requests : nat) (pauses : list Q)
  | MaxRetryError (requests : nat) (pauses : list Q).

(** [HTTPConnectionPool.urlopen] for a server whose [n]-th answer is
    [server n].  Each recursive call is one more request; [fuel] bounds
    them.  [None]: out of fuel. *)
Fixpoint urlopen (fuel : nat) (server : nat -> attempt) (method : str)
    (retries : Retry) (requests : nat) (pauses : list Q) : option sent :=
  match fuel with
  | O => None
  | S fuel' =>
      let '(status_code, retry_after) := server requests in
      if is_retry retries method status_code (bool_decide (is_Some retry_after)) then
        match increment retries status_code with
        | None =>
            if raise_on_status retries then Some (MaxRetryError (S requests) pauses)
            else Some (Responded status_code (S requests) pauses)
        | Some retries' =>
            urlopen fuel' server method retries' (S requests)
                    (pauses ++ [sleep retries' retry_after])
        end
      else Some (Responded status_code (S requests) pauses)
  end.

End Urllib3.

(** [requests.Session] as far as this module configures it: the retry
    policy of the adapter mounted on each URL prefix, and the headers. *)
Record Session : Type := mkSession {
  adapters : list (str * Urllib3.Retry);
  headers : gmap str str;
}.

(** Lines 67-73. Arguments not given keep urllib3's defaults. *)
Definition retry : Urllib3.Retry :=
  Urllib3.mkRetry (Some 5) None None None None None
    [py "GET"; py "POST"; py "PUT"; py "DELETE"; py "PATCH"]
    [429; 500; 502; 503; 504]
    (3 # 2) (120 # 1)
    false true [].

(** A server that fails every request with the same status. *)
Definition always (status_code : Z) : nat -> Urllib3.attempt :=
  fun _ => (status_code, None).

(** [default_headers] are the headers a new [requests.Session()] has. *)
Definition build_session_with_retries (default_headers : gmap str str) : Session :=
  mkSession
    [(py "https://", retry); (py "http://", retry)]
    (<[py "User-Agent" := py "etl-connector/1.0"]>
       (<[py "Content-Type" := py "application/json"]>
          (<[py "Accept" := py "application/json"]> default_headers))).

(* ================================================================== *)
(** ** [run] *)
(* ================================================================== *)

Section Run.
Context {W Doc Id Client Collection : Type}.
(** What [run] reaches outside the module: the standard library
    ([urlparse], [urljoin]), requests ([session.get]), pymongo and the
    logging handlers. *)
Variable urlparse_hostname : str -> outcome (option str).
Variable urljoin : str -> str -> outcome str.
Variable default_headers : gmap str str.
Variable session_get : Session -> str -> gmap str str -> Z -> M W Response.
Variable MongoClient : str -> M W Client.
Variable get_collection : Client -> str -> str -> M W Collection.
Variable insert_many : Collection -> list Doc -> bool -> M W (InsertManyResult Id).
Variable logger : LogRecord -> W -> W.
(** The calls of [transform] and [write_debug_json] as they act on the
    world; the latter returns the path of the file it wrote.  Either may
    raise. *)
Variable transform_step : list pyval -> str -> M W (list Doc).
Variable write_debug_json_step : str -> list Doc -> M W str.

#[local] Open Scope py_scope.

(** Inside [run] the state is the world together with the local variable
    [total_inserted], which keeps its value when an exception unwinds the
    [try] block. *)
Definition run_state : Type := Z * W.

Definition in_world {A} (m : M W A) : M run_state A :=
  fun '(total_inserted, w) =>
    let '(r, w') := m w in (r, (total_inserted, w')).

Definition log (r : LogRecord) : M run_state unit := in_world (modify (logger r)).

(** [total_inserted += inserted] *)
Definition add_inserted (inserted : Z) : M run_state unit :=
  modify (fun f => (fst f + inserted, snd f)).

(** Lines 185-196, the body of the [try]. *)
Definition process_endpoint (cfg : Config) (session : Session)
    (auth_headers : gmap str str) (endpoint : str) : M run_state unit :=
  fetched <- in_world (extract urljoin (session_get session) logger
                         (api_base_url cfg) endpoint auth_headers) ;;
  let raw_records := fst fetched in
  let meta := snd fetched in
  log (LogFetched (record_count meta) (meta_url meta)) ;;;
  docs <- in_world (transform_step raw_records endpoint) ;;
  inserted <- in_world (load_to_mongo MongoClient get_collection insert_many
                          (mongo_uri cfg) (mongo_db cfg) (mongo_collection cfg) docs) ;;
  add_inserted inserted ;;;
  log (LogInserted inserted (mongo_db cfg) (mongo_collection cfg)) ;;;
  debug_file <- in_world (write_debug_json_step endpoint docs) ;;
  log (LogWrote debug_file).

(** The handler of line 197-198. *)
Definition endpoint_failed (endpoint : str) (exc : exn) : M run_state unit :=
  log (LogEndpointFailed endpoint exc).

(** Lines 183-198: the loop with its [try ... except Exception]. *)
Definition run_endpoints (cfg : Config) (session : Session)
    (auth_headers : gmap str str) : M run_state unit :=
  for_each (api_endpoints cfg)
    (fun endpoint =>
       try_except (process_endpoint cfg session auth_headers endpoint)
                  (endpoint_failed endpoint)).

(** What one endpoint's load returns, started in world [w]: the inserted
    count when extract, transform and load all return, [None] when one of
    them raises.  The debug sink, which runs later, has no part in it. *)
Definition load_result (cfg : Config) (session : Session)
    (auth_headers : gmap str str) (endpoint : str) (w : W) : option Z :=
  match extract urljoin (session_get session) logger
          (api_base_url cfg) endpoint auth_headers w with
  | (Raise _, _) => None
  | (Ok fetched, w1) =>
      match transform_step (fst fetched) endpoint
              (logger (LogFetched (record_count (snd fetched)) (meta_url (snd fetched))) w1) with
      | (Raise _, _) => None
      | (Ok docs, w2) =>
          match load_to_mongo MongoClient get_collection insert_many
                  (mongo_uri cfg) (mongo_db cfg) (mongo_collection cfg) docs w2 with
          | (Raise _, _) => None
          | (Ok inserted, _) => Some inserted
          end
      end
  end.

(** The world one pass of the loop leaves behind. *)
Definition world_after_endpoint (cfg : Config) (session : Session)
    (auth_headers : gmap str str) (endpoint : str) (w : W) : W :=
  snd (snd (try_except (process_endpoint cfg session auth_headers endpoint)
                       (endpoint_failed endpoint) (0, w))).

(** The inserted counts of the endpoints whose load returned, in order,
    each endpoint starting in the world its predecessor left. *)
Fixpoint inserted_counts (cfg : Config) (session : Session)
    (auth_headers : gmap str str) (endpoints : list str) (w : W) : list Z :=
  match endpoints with
  | [] => []
  | endpoint :: rest =>
      match load_result cfg session auth_headers endpoint w with
      | Some inserted => [inserted]
      | None => []
      end ++ inserted_counts cfg session auth_headers rest
               (world_after_endpoint cfg session auth_headers endpoint w)
  end.

(** The world when the loop is over. *)
Definition world_after_endpoints (cfg : Config) (session : Session)
    (auth_headers : gmap str str) (endpoints : list str) (w : W) : W :=
  foldl (fun w endpoint => world_after_endpoint cfg session auth_headers endpoint w)
        w endpoints.

Definition run (env : gmap str str) : M W unit :=
  cfg <- lift_outcome (load_config urlparse_hostname env) ;;
  let session := build_session_with_retries default_headers in
  let auth_headers :=
    build_auth_headers (api_key cfg) (api_auth_header cfg) (api_auth_prefix cfg) in
  fun w =>
    match run_endpoints cfg session auth_headers (0, w) with
    | (Ok _, (total_inserted, w')) => (Ok tt, logger (LogDone total_inserted) w')
    | (Raise e, (_, w')) => (Raise e, w')
    end.
End Run.

(** [sum] of a list of counts. *)
Definition sum_counts (counts : list Z) : Z := foldr Z.add 0 counts.

(** *** A world to run the connector in

    An API whose [broken] endpoint answers 500 and whose other endpoints
    answer with three posts; a reachable, empty collection; a log that
    keeps every record. *)
Record demo_world : Type := mkDemo {
  demo_log : list LogRecord;
  demo_db : Pymongo.server (K := Z);
}.

Definition demo_posts : pyval :=
  PList [PDict (sample_doc 1 "sunt aut facere");
         PDict (sample_doc 2 "qui est esse");
         PDict (sample_doc 3 "ea molestias")].

Definition demo_urlparse_hostname (url : str) : outcome (option str) :=
  Ok (Some (py "api.example.com")).

Definition demo_urljoin (base endpoint : str) : outcome str := Ok (base ++ endpoint).

Definition demo_session_get (session : Session) (url : str)
    (request_headers : gmap str str) (timeout : Z) : M demo_world Response :=
  ret (if bool_decide (url = py "https://api.example.com/broken")
       then mkResponse 500 (fun _ => None) (py "Internal Server Error")
                       (Raise JSONDecodeError)
       else mkResponse 200 (fun _ => None) (py "[...]") (Ok demo_posts)).

Definition demo_logger (r : LogRecord) (w : demo_world) : demo_world :=
  mkDemo (demo_log w ++ [r]) (demo_db w).

Definition demo_insert_many (collection : unit) (documents : list (gmap str pyval))
    (ordered : bool) : M demo_world (InsertManyResult (Pymongo.id (K := Z))) :=
  fun w =>
    let '(r, db) := Pymongo.insert_many int_id documents ordered (demo_db w) in
    (r, mkDemo (demo_log w) db).

(** [transform] seen from [run]: the enriched copies as values, stamped
    with a fixed time. *)
Definition demo_transform (records : list pyval) (endpoint : str)
  : M demo_world (list (gmap str pyval)) :=
  match mapM (fun r => match r with PDict d => Some (enrich 1700000000 endpoint d)
                                  | _ => None end) records with
  | Some docs => ret docs
  | None => raise (TypeError "cannot convert record to dict")
  end.

Definition demo_write_debug_json (endpoint : str) (docs : list (gmap str pyval))
  : M demo_world str :=
  ret (py "etl_output/" ++ endpoint ++ py "_20240101_000000.json").

Definition demo_env : gmap str str :=
  <[py "API_ENDPOINTS" := py "broken,posts"]>
    (<[py "API_BASE_URL" := py "https://api.example.com/"]> ∅).

Definition demo_start : demo_world := mkDemo [] empty_server.

Definition demo_run : M demo_world unit :=
  run demo_urlparse_hostname demo_urljoin ∅ demo_session_get
      (fun _ => ret tt) (fun _ _ _ => ret tt) demo_insert_many
      demo_logger demo_transform demo_write_debug_json demo_env.

(* ================================================================== *)
(** ** Definitions used by the further properties *)
(* ================================================================== *)


(** An environment whose endpoint list has only blank fields. *)
Definition blank_endpoints_env : gmap str str :=
  <[py "API_ENDPOINTS" := py " , "]> demo_env.

(* ================================================================== *)
(** ** [write_debug_json] *)
(* ================================================================== *)

(** What [strftime] reads of the [datetime] that [datetime.now] returns. *)
Record datetime : Type := mkDatetime {
  dt_year : nat;
  dt_month : nat;
  dt_day : nat;
  dt_hour : nat;
  dt_minute : nat;
  dt_second : nat;
}.

Definition digit (n : nat) : N := (48 + N.of_nat n)%N.

(** A number in decimal, most significant digit first. *)
Fixpoint decimal_digits (fuel n : nat) : str :=
  match fuel with
  | O => []
  | S fuel' =>
      if (n <? 10)%nat then [digit n]
      else decimal_digits fuel' (n / 10) ++ [digit (n mod 10)]
  end.

Definition decimal (n : nat) : str := decimal_digits (S n) n.

(** [%m], [%d], [%H], [%M], [%S]: at least two digits, zero-padded. *)
Definition pad2 (n : nat) : str :=
  if (n <? 10)%nat then digit 0 :: decimal n else decimal n.

(** [strftime("%Y%m%d_%H%M%S")].  [%Y] is the year as the C library prints
    it: in decimal, four digits for every year from 1000 on. *)
Definition strftime_stamp (now : datetime) : str :=
  decimal (dt_year now) ++ pad2 (dt_month now) ++ pad2 (dt_day now)
  ++ py "_" ++ pad2 (dt_hour now) ++ pad2 (dt_minute now) ++ pad2 (dt_second now).

(** A [pathlib] path is its list of components under the root directory. *)
Definition path_parts (s : str) : list str :=
  filter (fun part => part <> [] /\ part <> py ".") (split slash s).

(** [base / s]: a string that starts with a slash replaces [base];
    otherwise its components are appended.  Empty components and ["."] are
    dropped, [".."] is kept for the file system to follow. *)
Definition path_join (base : list str) (s : str) : list str :=
  match s with
  | c :: _ => if (c =? slash)%N then path_parts s else base ++ path_parts s
  | [] => base
  end.

(** [f"{endpoint}_{ts}.json"] *)
Definition debug_file_name (endpoint ts : str) : str :=
  endpoint ++ py "_" ++ ts ++ py ".json".

Section WriteDebugJson.
Context {W Docs File : Type}.
(** [ROOT_DIR]: the resolved directory of the module's file. *)
Variable ROOT_DIR : list str.
(** [Path.mkdir(parents=True, exist_ok=True)] *)
Variable mkdir : list str -> M W unit.
(** [datetime.now(timezone.utc)] *)
Variable utcnow : W -> datetime * W.
(** [Path.open("w", encoding="utf-8")] and the closing of the file when
    the [with] block is left, normally or by an exception. *)
Variable open_w : list str -> M W File.
Variable close : File -> W -> W.
(** [json.dump(records, f, ensure_ascii=False, indent=2, default=str)] *)
Variable json_dump : Docs -> File -> M W unit.

#[local] Open Scope py_scope.

Definition write_debug_json (endpoint : str) (records : Docs) : M W (list str) :=
  let output_dir := ROOT_DIR ++ [py "etl_output"] in
  mkdir output_dir ;;;
  now <- (fun w => let '(now, w') := utcnow w in (Ok now, w')) ;;
  let ts := strftime_stamp now in
  let file_path := path_join output_dir (debug_file_name endpoint ts) in
  f <- open_w file_path ;;
  (fun w => let '(r, w') := json_dump records f w in (r, close f w')) ;;;
  ret file_path.
End WriteDebugJson.

(** *** A file system for it

    Directories and regular files under the root, without links,
    permissions or limits.  A path is followed component by component: each
    directory on the way must exist, [".."] steps back to the parent. *)
Module Posix.

Record fs : Type := mkFs {
  dirs : gset (list str);
  files : gmap (list str) str;
}.

Definition FileNotFoundError : exn := OSError "FileNotFoundError".
Definition FileExistsError : exn := OSError "FileExistsError".
Definition NotADirectoryError : exn := OSError "NotADirectoryError".
Definition IsADirectoryError : exn := OSError "IsADirectoryError".

Definition is_not_found (e : exn) : bool :=
  match e with
  | OSError what => String.eqb what "FileNotFoundError"
  | _ => false
  end.

(** Looking [at_] up as a directory. *)
Definition enter (disk : fs) (at_ : list str) : outcome unit :=
  if bool_decide (at_ ∈ dirs disk) then Ok tt
  else if bool_decide (is_Some (files disk !! at_)) then Raise NotADirectoryError
  else Raise FileNotFoundError.

(** Following [parts] from the directory [at_]: where the path leads.  The
    last component need not exist. *)
Fixpoint walk (disk : fs) (at_ : list str) (parts : list str) : outcome (list str) :=
  match parts with
  | [] => Ok at_
  | part :: rest =>
      match enter disk at_ with
      | Raise e => Raise e
      | Ok _ =>
          if bool_decide (part = py "..") then walk disk (removelast at_) rest
          else walk disk (at_ ++ [part]) rest
      end
  end.

(** [os.mkdir(path)] for a path without [".."]. *)
Definition os_mkdir (path : list str) : M fs unit :=
  fun disk =>
    match enter disk (removelast path) with
    | Raise e => (Raise e, disk)
    | Ok _ =>
        if bool_decide (path ∈ dirs disk) || bool_decide (is_Some (files disk !! path))
        then (Raise FileExistsError, disk)
        else (Ok tt, mkFs ({[ path ]} ∪ dirs disk) (files disk))
    end.

(** [Path.mkdir(parents=True, exist_ok=True)]: try [os.mkdir]; when the
    parent is missing, make it first and then the directory; any other
    error is forgiven when the path is a directory already. *)
Fixpoint mkdir_parents (fuel : nat) (path : list str) : M fs unit :=
  fun disk =>
    match os_mkdir path disk with
    | (Ok _, disk') => (Ok tt, disk')
    | (Raise e, _) =>
        if is_not_found e then
          match fuel, path with
          | S fuel', _ :: _ =>
              match mkdir_parents fuel' (removelast path) disk with
              | (Raise e', disk') => (Raise e', disk')
              | (Ok _, disk') =>
                  match os_mkdir path disk' with
                  | (Ok _, disk'') => (Ok tt, disk'')
                  | (Raise e', disk'') =>
                      if is_not_found e' then (Raise e', disk'')
                      else if bool_decide (path ∈ dirs disk'') then (Ok tt, disk'')
                      else (Raise e', disk'')
                  end
              end
          | _, _ => (Raise e, disk)
          end
        else if bool_decide (path ∈ dirs disk) then (Ok tt, disk)
        else (Raise e, disk)
    end.

Definition mkdir (path : list str) : M fs unit := mkdir_parents (length path) path.

(** [open(path, "w")]: the file is created, or emptied, where the path
    leads; the open file is known by that place. *)
Definition open_w (path : list str) : M fs (list str) :=
  fun disk =>
    match walk disk [] path with
    | Raise e => (Raise e, disk)
    | Ok place =>
        if bool_decide (place ∈ dirs disk) then (Raise IsADirectoryError, disk)
        else (Ok place, mkFs (dirs disk) (<[place := []]> (files disk)))
    end.

(** Writing to an open file appends. *)
Definition write (place : list str) (data : str) (disk : fs) : fs :=
  mkFs (dirs disk) (<[place := default [] (files disk !! place) ++ data]> (files disk)).
End Posix.

(** The world of the debug sink: the disk, and how often the clock was
    read. *)
Record sink_world : Type := mkSink {
  sink_disk : Posix.fs;
  sink_clock_reads : nat;
}.

Section PosixSink.
Context {Docs : Type}.
Variable ROOT_DIR : list str.
(** [wall_clock n] is the [n]-th reading of the clock. *)
Variable wall_clock : nat -> datetime.
(** What [json.dump] writes for the records, and the exception that stops
    it, if one does: the text is written as it is produced. *)
Variable dumps : Docs -> str * option exn.

Definition on_disk {A} (m : M Posix.fs A) : M sink_world A :=
  fun w =>
    let '(r, disk) := m (sink_disk w) in (r, mkSink disk (sink_clock_reads w)).

Definition sink_utcnow (w : sink_world) : datetime * sink_world :=
  (wall_clock (sink_clock_reads w), mkSink (sink_disk w) (S (sink_clock_reads w))).

Definition sink_json_dump (records : Docs) (place : list str) : M sink_world unit :=
  fun w =>
    let '(text, failure) := dumps records in
    (match failure with Some e => Raise e | None => Ok tt end,
     mkSink (Posix.write place text (sink_disk w)) (sink_clock_reads w)).

Definition posix_write_debug_json (endpoint : str) (records : Docs)
  : M sink_world (list str) :=
  write_debug_json ROOT_DIR
    (fun path => on_disk (Posix.mkdir path))
    sink_utcnow
    (fun path => on_disk (Posix.open_w path))
    (fun _ w => w)
    sink_json_dump
    endpoint records.
End PosixSink.

(** A sample disk: the module lives in [/srv/etl]. *)
Definition sample_root : list str := [py "srv"; py "etl"].

Definition sample_disk : Posix.fs :=
  Posix.mkFs {[ []; [py "srv"]; sample_root ]} {[ sample_root ++ [py "etl_connector.py"] := py "import os" ]}.

Definition sample_now (n : nat) : datetime := mkDatetime 2024 1 2 3 4 (5 + n).

Definition sample_dumps (docs : list (gmap str pyval)) : str * option exn :=
  (py "[...]", None).

(** Reading a decimal number back. *)
Definition undigits (s : str) : nat :=
  foldl (fun acc c => (acc * 10 + (N.to_nat c - 48))%nat) 0%nat s.

(** The directory the debug files go to, and the path of one. *)
Definition output_dir (root : list str) : list str := root ++ [py "etl_output"].

Definition debug_path (root : list str) (endpoint : str) (now : datetime) : list str :=
  path_join (output_dir root) (debug_file_name endpoint (strftime_stamp now)).

(** A [datetime] as [datetime.now] gives it in the years 1000 to 9999. *)
Definition four_digit_year (now : datetime) : Prop :=
  (1000 <= dt_year now < 10 * 1000)%nat
  /\ (dt_month now < 100)%nat /\ (dt_day now < 100)%nat /\ (dt_hour now < 100)%nat
  /\ (dt_minute now < 100)%nat /\ (dt_second now < 100)%nat.

(* ================================================================== *)
(** ** [urlparse] up to its first error *)
(* ================================================================== *)

(** [urllib.parse] is the standard library's.  [urlparse(url).hostname] is
    followed here through [urlsplit] (CPython 3.11) as far as the network
    location and the test of its square brackets, the first place where the
    call can raise.  What comes after reads the network location alone (the
    checks of a bracketed host and of non-ASCII characters, and the
    [hostname] property); it is a parameter. *)
Module Urllib.
Definition colon : N := 58%N.
Definition open_bracket : N := 91%N.
Definition close_bracket : N := 93%N.

(** [_WHATWG_C0_CONTROL_OR_SPACE], stripped from the left of the URL. *)
Definition is_c0_control_or_space (c : N) : bool := (c <=? 32)%N.

(** [_UNSAFE_URL_BYTES_TO_REMOVE]: tab, carriage return, line feed. *)
Definition is_unsafe (c : N) : bool := ((c =? 9) || (c =? 13) || (c =? 10))%N.

(** [c.isascii() and c.isalpha()] *)
Definition is_ascii_alpha (c : N) : bool :=
  ((65 <=? c) && (c <=? 90) || (97 <=? c) && (c <=? 122))%N.

(** [c in scheme_chars]: letters, digits, [+], [-] and [.]. *)
Definition is_scheme_char (c : N) : bool :=
  (is_ascii_alpha c || (48 <=? c) && (c <=? 57)
   || (c =? 43) || (c =? 45) || (c =? 46))%N.

(** [(url[:i], url[i+1:])] for [i = url.find(":")], when there is a colon. *)
Fixpoint at_colon (url : str) : option (str * str) :=
  match url with
  | [] => None
  | c :: url' =>
      if (c =? colon)%N then Some ([], url')
      else match at_colon url' with
           | Some (before, after) => Some (c :: before, after)
           | None => None
           end
  end.

(** The URL after its scheme: a scheme is split off when the colon is not
    the first character, the URL starts with an ASCII letter and every
    character before the colon is a scheme character. *)
Definition without_scheme (url : str) : str :=
  match at_colon url with
  | Some (c :: scheme, rest) =>
      if is_ascii_alpha c && forallb is_scheme_char (c :: scheme) then rest else url
  | _ => url
  end.

(** [_splitnetloc]: the network location ends at the first [/], [?] or [#]. *)
Fixpoint until_delim (s : str) : str :=
  match s with
  | [] => []
  | c :: s' =>
      if ((c =? slash) || (c =? 63) || (c =? 35))%N then [] else c :: until_delim s'
  end.

Definition netloc (url : str) : str :=
  let url := filter (fun c => is_unsafe c = false) (lstrip_by is_c0_control_or_space url) in
  match without_scheme url with
  | a :: b :: rest => if ((a =? slash) && (b =? slash))%N then until_delim rest else []
  | _ => []
  end.

Definition urlparse_hostname (hostname_of_netloc : str -> outcome (option str))
    (url : str) : outcome (option str) :=
  let netloc := netloc url in
  if bool_decide (open_bracket ∈ netloc) && negb (bool_decide (close_bracket ∈ netloc))
     || bool_decide (close_bracket ∈ netloc) && negb (bool_decide (open_bracket ∈ netloc))
  then Raise (ValueError "Invalid IPv6 URL")
  else hostname_of_netloc netloc.
End Urllib.

(** An environment whose base URL opens an IPv6 bracket and does not close
    it. *)
Definition open_bracket_env : gmap str str := {[ py "API_BASE_URL" := py "https://[::1" ]}.

(* ================================================================== *)
(** ** [insert_many] on dictionary objects *)
(* ================================================================== *)

(** The documents [load_to_mongo] passes on are dictionaries, and pymongo
    writes the [_id] it generates into them: before anything is sent,
    [insert_many] goes through the list and does
    [document["_id"] = ObjectId()] on each dictionary that has no [_id].  A
    dictionary that occurs twice in the list, or that is sent a second time,
    therefore goes out with the [_id] it was given the first time.  Here a
    document is the address of its dictionary, and [doc_ids] holds the
    [_id] of every dictionary that has one.  On a list of distinct
    dictionaries this is [Pymongo.insert_many]. *)
Section PymongoObjects.
Context {K : Type} `{EqDecision K}.

Record object_world : Type := mkObjects {
  obj_server : Pymongo.server (K := K);
  doc_ids : gmap loc (Pymongo.id (K := K));
}.

(** The client side: in document order, a dictionary without [_id] is
    given a new ObjectId, which every later look at it finds. *)
Fixpoint assign_ids_in_place (documents : list loc) (oid : nat)
    (ids : gmap loc (Pymongo.id (K := K)))
  : list (Pymongo.id (K := K)) * nat * gmap loc (Pymongo.id (K := K)) :=
  match documents with
  | [] => ([], oid, ids)
  | d :: rest =>
      match ids !! d with
      | Some i =>
          let '(batch, oid', ids') := assign_ids_in_place rest oid ids in
          (i :: batch, oid', ids')
      | None =>
          let '(batch, oid', ids') :=
            assign_ids_in_place rest (S oid) (<[d := inr oid]> ids) in
          (inr oid :: batch, oid', ids')
      end
  end.

(** The [_id]s are assigned before the server is looked for, so they stay
    in the dictionaries when the call raises. *)
Definition insert_many_in_place (documents : list loc) (ordered : bool)
  : M object_world (InsertManyResult (Pymongo.id (K := K))) :=
  fun w =>
    if bool_decide (documents = []) then
      (Raise (TypeError "documents must be a non-empty list"), w)
    else
      let srv := obj_server w in
      let '(batch, oid', ids') :=
        assign_ids_in_place documents (Pymongo.next_oid srv) (doc_ids w) in
      if negb (Pymongo.reachable srv) then
        (Raise ServerSelectionTimeoutError,
         mkObjects (Pymongo.mkServer false (Pymongo.stored srv) oid') ids')
      else
        let '(present', errs) :=
          Pymongo.write_batch ordered 0 batch (Pymongo.stored srv) in
        let w' := mkObjects (Pymongo.mkServer true present' oid') ids' in
        match errs with
        | [] => (Ok (mkInsertManyResult batch true), w')
        | _ =>
            (Raise (BulkWriteError (length present' - length (Pymongo.stored srv)) errs), w')
        end.

(** [load_to_mongo] on it, with the lazy client and collection handles. *)
Definition load_objects_to_mongo (mongo_uri database_name collection_name : str)
    (documents : list loc) : M object_world Z :=
  load_to_mongo (fun _ => ret tt) (fun _ _ _ => ret tt)
    (fun _ docs ordered => insert_many_in_place docs ordered)
    mongo_uri database_name collection_name documents.
End PymongoObjects.

(** No dictionary has an [_id] yet, and the collection is empty. *)
Definition fresh_objects : object_world (K := Z) := mkObjects empty_server ∅.

(** The [_id] a dictionary brought with it, as [Pymongo.insert_many] is
    told of it. *)
Definition held_id {K : Type} (ids : gmap loc (Pymongo.id (K := K))) (d : loc) : option K :=
  match ids !! d with
  | Some (inl k) => Some k
  | _ => None
  end.

(* ================================================================== *)
(** * Properties *)
(* ================================================================== *)

(** ** Strings *)

Lemma lstrip_by_head_kept (p : N -> bool) (c : N) (s : str) :
  p c = false -> lstrip_by p (c :: s) = c :: s.
Proof. intros Hc. simpl. now rewrite Hc. Qed.

Lemma rstrip_by_last_kept (p : N -> bool) (s : str) (c : N) :
  p c = false -> rstrip_by p (s ++ [c]) = s ++ [c].
Proof.
  intros Hc. unfold rstrip_by.
  rewrite reverse_app, reverse_singleton. simpl. rewrite Hc.
  rewrite reverse_cons, reverse_involutive. reflexivity.
Qed.

(** [strip] leaves alone a string that neither starts nor ends with
    whitespace. *)
Lemma strip_no_surrounding_space (s : str) (a b : N) :
  head s = Some a -> last s = Some b ->
  is_space a = false -> is_space b = false -> strip s = s.
Proof.
  intros Hhead Hlast Ha Hb. unfold strip.
  destruct s as [|a' s']; [discriminate|].
  simpl in Hhead. injection Hhead as ->.
  rewrite lstrip_by_head_kept by assumption.
  destruct (last_Some (a :: s') b) as [[init Hinit] _]; [assumption|].
  rewrite Hinit. now apply rstrip_by_last_kept.
Qed.

Lemma truthy_true (s : str) : truthy s = true <-> s <> [].
Proof. destruct s; simpl; split; congruence. Qed.

Lemma truthy_false (s : str) : truthy s = false <-> s = [].
Proof. destruct s; simpl; split; congruence. Qed.

Lemma split_nonempty (sep : N) (s : str) : split sep s <> [].
Proof.
  induction s as [|c s IH]; simpl; [discriminate|].
  destruct (c =? sep)%N; [discriminate|].
  destruct (split sep s); [contradiction | discriminate].
Qed.

(** ** Endpoint list (lines 35-36) *)

(** Every entry of the result comes from one comma-separated field that is
    not blank, in the order of the fields; nothing is merged or dropped
    afterwards, so repeated fields stay repeated. *)
Lemma parse_endpoints_fields (csv : str) :
  parse_endpoints csv
  = (fun e => lstrip_by (is_char slash) (strip e))
      <$> filter (fun e => strip e <> []) (split comma csv).
Proof.
  unfold parse_endpoints. f_equal.
  apply list_filter_iff. intros e. apply truthy_true.
Qed.

(** An empty entry appears exactly when some field is not blank and is
    nothing but slashes once its surrounding whitespace is removed. *)
Lemma parse_endpoints_empty_entry (csv : str) :
  [] ∈ parse_endpoints csv
  <-> exists field, field ∈ split comma csv /\ strip field <> []
                    /\ lstrip_by (is_char slash) (strip field) = [].
Proof.
  rewrite parse_endpoints_fields, list_elem_of_fmap. split.
  - intros (field & Hempty & [Hkeep Hin]%list_elem_of_filter).
    exists field. repeat split; [assumption| assumption | now symmetry].
  - intros (field & Hin & Hkeep & Hempty).
    exists field. split; [now symmetry|]. now apply list_elem_of_filter.
Qed.

(** Slashes are stripped after whitespace, once: whitespace that follows
    the leading slashes stays. *)
Example parse_endpoints_space_after_slash :
  parse_endpoints (py "/ posts,users") = [py " posts"; py "users"].
Proof. vm_compute. reflexivity. Qed.

Example parse_endpoints_default :
  parse_endpoints (py "posts,comments,users")
  = [py "posts"; py "comments"; py "users"].
Proof. vm_compute. reflexivity. Qed.

Example parse_endpoints_spec_input :
  parse_endpoints (py " posts, /comments ,,users ")
  = [py "posts"; py "comments"; py "users"].
Proof. vm_compute. reflexivity. Qed.

Example parse_endpoints_keeps_duplicates :
  parse_endpoints (py "users,posts,users") = [py "users"; py "posts"; py "users"].
Proof. vm_compute. reflexivity. Qed.

(** C4. The entry filter of line 36 tests [e.strip()] but the entry kept is
    [e.strip().lstrip("/")]: a field made only of slashes passes the filter
    and is kept as the empty string.  The spec's own input parses as the
    claim says, yet in the result for ["posts,/,users"] the entry between
    ["posts"] and ["users"] is the empty string. *)
Theorem C4_slash_only_entry_kept_empty :
  parse_endpoints (py " posts, /comments ,,users ")
    = [py "posts"; py "comments"; py "users"]
  /\ parse_endpoints (py "posts,/,users") = [py "posts"; []; py "users"]
  /\ [] ∈ parse_endpoints (py "posts,/,users").
Proof.
  split; [vm_compute; reflexivity|].
  split; [vm_compute; reflexivity|].
  replace (parse_endpoints (py "posts,/,users")) with [py "posts"; []; py "users"]
    by (vm_compute; reflexivity).
  apply list_elem_of_further, list_elem_of_here.
Qed.

(** ** [build_auth_headers] *)

Lemma build_auth_headers_no_key (header_name prefix : str) :
  build_auth_headers [] header_name prefix = ∅.
Proof. reflexivity. Qed.

Lemma build_auth_headers_bare_key (api_key header_name : str) :
  api_key <> [] -> build_auth_headers api_key header_name [] = {[ header_name := api_key ]}.
Proof. intros H. destruct api_key; [contradiction|reflexivity]. Qed.

Lemma build_auth_headers_prefixed (api_key header_name prefix : str) :
  api_key <> [] -> prefix <> [] ->
  build_auth_headers api_key header_name prefix
  = {[ header_name := strip (prefix ++ py " " ++ api_key) ]}.
Proof.
  intros Hk Hp. destruct api_key; [contradiction|].
  destruct prefix; [contradiction|]. reflexivity.
Qed.

(** C6 as stated fails: line 88 strips the formatted value, so a key that
    ends in whitespace loses it.  With key ["abc "] and prefix ["Bearer"]
    the header value is ["Bearer abc"], not ["Bearer abc "]. *)
Lemma C6_counterexample :
  py "abc " <> [] /\ py "Bearer" <> []
  /\ build_auth_headers (py "abc ") (py "Authorization") (py "Bearer")
     = {[ py "Authorization" := py "Bearer abc" ]}
  /\ build_auth_headers (py "abc ") (py "Authorization") (py "Bearer")
     <> {[ py "Authorization" := py "Bearer" ++ py " " ++ py "abc " ]}.
Proof.
  split; [discriminate|]. split; [discriminate|].
  assert (Hv : build_auth_headers (py "abc ") (py "Authorization") (py "Bearer")
               = {[ py "Authorization" := py "Bearer abc" ]})
    by (vm_compute; reflexivity).
  split; [exact Hv|].
  rewrite Hv. intros Heq.
  apply (f_equal (fun m : gmap str str => m !! py "Authorization")) in Heq.
  rewrite !lookup_singleton_eq in Heq. vm_compute in Heq. discriminate.
Qed.

(** C6, amended.  An empty key gives no header; a non-empty key with an
    empty prefix gives the bare key; a non-empty key with a non-empty prefix
    gives one header whose value is ["{prefix} {key}"] with surrounding
    whitespace stripped, which is ["{prefix} {key}"] itself whenever the
    prefix does not start and the key does not end with whitespace. *)
Theorem C6_auth_header_value (api_key header_name prefix : str) :
  (api_key = [] -> build_auth_headers api_key header_name prefix = ∅)
  /\ (api_key <> [] -> prefix = [] ->
      build_auth_headers api_key header_name prefix = {[ header_name := api_key ]})
  /\ (api_key <> [] -> prefix <> [] ->
      build_auth_headers api_key header_name prefix
      = {[ header_name := strip (prefix ++ py " " ++ api_key) ]})
  /\ (forall a b, head prefix = Some a -> last api_key = Some b ->
      is_space a = false -> is_space b = false ->
      build_auth_headers api_key header_name prefix
      = {[ header_name := prefix ++ py " " ++ api_key ]}).
Proof.
  repeat split.
  - intros ->. apply build_auth_headers_no_key.
  - intros Hk ->. now apply build_auth_headers_bare_key.
  - apply build_auth_headers_prefixed.
  - intros a b Hhead Hlast Ha Hb.
    assert (Hk : api_key <> []) by (intros ->; discriminate).
    assert (Hp : prefix <> []) by (intros ->; discriminate).
    rewrite build_auth_headers_prefixed by assumption.
    f_equal. apply (strip_no_surrounding_space _ a b); try assumption.
    + destruct prefix; [contradiction|]. exact Hhead.
    + rewrite app_assoc. rewrite last_app. now rewrite Hlast.
Qed.

Lemma C6_auth_header_value_witness :
  build_auth_headers (py "abc") (py "Authorization") (py "Bearer")
  = {[ py "Authorization" := py "Bearer" ++ py " " ++ py "abc" ]}.
Proof.
  destruct (C6_auth_header_value (py "abc") (py "Authorization") (py "Bearer"))
    as (_ & _ & _ & H).
  apply (H 66%N 99%N); reflexivity.
Defined.

(** ** [load_config] *)

Section LoadConfigFacts.
Variable urlparse_hostname : str -> outcome (option str).

(** [load_config] fails only when [urlparse] does, with its exception. *)
Lemma load_config_raises (env : gmap str str) (e : exn) :
  load_config urlparse_hostname env = Raise e
  <-> urlparse_hostname (resolved_base_url env) = Raise e.
Proof.
  unfold load_config, resolved_base_url.
  destruct (urlparse_hostname _); split; intros H; congruence.
Qed.

Lemma connector_raw_nonempty (name : str) : name ++ py "_raw" <> [].
Proof. destruct name; discriminate. Qed.
End LoadConfigFacts.

(** The network location of an ordinary URL, and of one whose IPv6 bracket
    is left open. *)
Lemma netloc_examples :
  Urllib.netloc (py "https://jsonplaceholder.typicode.com") = py "jsonplaceholder.typicode.com"
  /\ Urllib.netloc (py "https://api.example.com:8443/v1?x=1") = py "api.example.com:8443"
  /\ Urllib.netloc (py "https://[::1") = py "[::1".
Proof. repeat split; vm_compute; reflexivity. Qed.

(** The claim as stated fails for API_BASE_URL=https://[::1: [urlparse]
    raises [ValueError] for the unclosed bracket, whatever it would do
    after that test, so [load_config] raises and there is no configuration,
    with or without a collection name. *)
Lemma C8_counterexample :
  resolved_base_url open_bracket_env = py "https://[::1"
  /\ forall hostname_of_netloc : str -> outcome (option str),
       load_config (Urllib.urlparse_hostname hostname_of_netloc) open_bracket_env
       = Raise (ValueError "Invalid IPv6 URL")
       /\ ~ (exists cfg,
               load_config (Urllib.urlparse_hostname hostname_of_netloc) open_bracket_env
               = Ok cfg
               /\ mongo_collection cfg <> []).
Proof.
  split; [vm_compute; reflexivity|]. intros hostname_of_netloc.
  assert (Hraise : load_config (Urllib.urlparse_hostname hostname_of_netloc) open_bracket_env
                   = Raise (ValueError "Invalid IPv6 URL")).
  { apply load_config_raises. vm_compute. reflexivity. }
  split; [exact Hraise|]. intros (cfg & Hcfg & _). rewrite Hraise in Hcfg. discriminate.
Qed.

(** C8. [load_config] returns a configuration exactly when [urlparse]
    accepts the base URL.  The collection name of a configuration is not
    empty: it is MONGO_COLLECTION when that is set to a non-empty value, and
    otherwise the connector name followed by ["_raw"]; the connector name is
    the hostname with every dot replaced by an underscore, or ["connector"]
    when the URL has no hostname.  When [urlparse] raises, [load_config]
    raises the same exception and there is no configuration. *)
Theorem C8_collection_name_nonempty
    (urlparse_hostname : str -> outcome (option str)) (env : gmap str str) :
  (forall hostname,
      urlparse_hostname (resolved_base_url env) = Ok hostname ->
      exists cfg,
        load_config urlparse_hostname env = Ok cfg
        /\ mongo_collection cfg <> []
        /\ (forall c, env !! py "MONGO_COLLECTION" = Some c -> c <> [] ->
            mongo_collection cfg = c)
        /\ (env !! py "MONGO_COLLECTION" = None \/ env !! py "MONGO_COLLECTION" = Some [] ->
            mongo_collection cfg = connector_name cfg ++ py "_raw")
        /\ (forall h, hostname = Some h -> h <> [] ->
            connector_name cfg = replace_char dot underscore h)
        /\ (hostname = None \/ hostname = Some [] ->
            connector_name cfg = py "connector"))
  /\ (forall e,
        urlparse_hostname (resolved_base_url env) = Raise e ->
        load_config urlparse_hostname env = Raise e)
  /\ (forall cfg,
        load_config urlparse_hostname env = Ok cfg ->
        (exists hostname, urlparse_hostname (resolved_base_url env) = Ok hostname)
        /\ mongo_collection cfg <> []).
Proof.
  assert (Hnonempty : forall hostname,
             urlparse_hostname (resolved_base_url env) = Ok hostname ->
             exists cfg, load_config urlparse_hostname env = Ok cfg
                         /\ mongo_collection cfg <> []).
  { intros hostname Hparse. unfold load_config. fold (resolved_base_url env).
    rewrite Hparse. eexists. split; [reflexivity|]. cbn [mongo_collection].
    unfold getenv.
    destruct (env !! py "MONGO_COLLECTION") as [[|c0 c]|]; simpl;
      try discriminate; apply connector_raw_nonempty. }
  split; [|split].
  - intros hostname Hparse. unfold load_config. fold (resolved_base_url env).
    rewrite Hparse. eexists. split; [reflexivity|]. cbn [mongo_collection connector_name].
    set (connector :=
           match hostname with
           | Some h => if truthy h then replace_char dot underscore h else py "connector"
           | None => py "connector"
           end).
    unfold getenv.
    repeat split.
    + destruct (env !! py "MONGO_COLLECTION") as [[|c0 c]|]; simpl;
        try discriminate; apply connector_raw_nonempty.
    + intros c Hc Hne. rewrite Hc.
      destruct c; [contradiction|reflexivity].
    + intros [Hc|Hc]; rewrite Hc; reflexivity.
    + intros h -> Hne. subst connector. destruct h; [contradiction|reflexivity].
    + intros [->| ->]; reflexivity.
  - intros e He. now apply load_config_raises.
  - intros cfg Hcfg.
    destruct (urlparse_hostname (resolved_base_url env)) as [hostname|e] eqn:Hparse.
    + split; [now exists hostname|].
      destruct (Hnonempty hostname eq_refl) as (cfg' & Hcfg' & Hne).
      rewrite Hcfg in Hcfg'. injection Hcfg' as ->. exact Hne.
    + apply load_config_raises in Hparse. rewrite Hparse in Hcfg. discriminate.
Qed.

(** ** [ensure_list_payload] *)

(** A key is list-valued in [d] exactly when [list_field] finds its list. *)
Lemma list_field_Some (d : gmap str pyval) (key : str) (l : list pyval) :
  list_field d key = Some l <-> d !! key = Some (PList l).
Proof.
  unfold list_field. destruct (d !! key) as [[]|]; split; intros H; congruence.
Qed.

Lemma list_field_None (d : gmap str pyval) (key : str) :
  list_field d key = None <-> forall l, d !! key <> Some (PList l).
Proof.
  unfold list_field. destruct (d !! key) as [[]|]; split; intros H;
    try congruence; try (intros l; congruence).
  exfalso. now apply (H items).
Qed.

(** C3. [ensure_list_payload] returns a JSON array as it is; for a JSON
    object, the list bound to ["data"], else the list bound to ["items"],
    else the list bound to ["results"] (a key counts only when its value is
    a list), else the one-element sequence holding the object; and the empty
    sequence for every other value. *)
Theorem C3_payload_normalization :
  (forall items, ensure_list_payload (PList items) = items)
  /\ (forall d l, d !! py "data" = Some (PList l) ->
      ensure_list_payload (PDict d) = l)
  /\ (forall d l, (forall l', d !! py "data" <> Some (PList l')) ->
      d !! py "items" = Some (PList l) ->
      ensure_list_payload (PDict d) = l)
  /\ (forall d l, (forall l', d !! py "data" <> Some (PList l')) ->
      (forall l', d !! py "items" <> Some (PList l')) ->
      d !! py "results" = Some (PList l) ->
      ensure_list_payload (PDict d) = l)
  /\ (forall d, (forall l', d !! py "data" <> Some (PList l')) ->
      (forall l', d !! py "items" <> Some (PList l')) ->
      (forall l', d !! py "results" <> Some (PList l')) ->
      ensure_list_payload (PDict d) = [PDict d])
  /\ (forall v, (forall items, v <> PList items) -> (forall d, v <> PDict d) ->
      ensure_list_payload v = []).
Proof.
  repeat split.
  - intros d l Hdata. apply list_field_Some in Hdata.
    unfold ensure_list_payload, payload_keys. simpl. now rewrite Hdata.
  - intros d l Hdata Hitems.
    apply list_field_None in Hdata. apply list_field_Some in Hitems.
    unfold ensure_list_payload, payload_keys. simpl. now rewrite Hdata, Hitems.
  - intros d l Hdata Hitems Hresults.
    apply list_field_None in Hdata, Hitems. apply list_field_Some in Hresults.
    unfold ensure_list_payload, payload_keys. simpl.
    now rewrite Hdata, Hitems, Hresults.
  - intros d Hdata Hitems Hresults.
    apply list_field_None in Hdata, Hitems, Hresults.
    unfold ensure_list_payload, payload_keys. simpl.
    now rewrite Hdata, Hitems, Hresults.
  - intros v Hl Hd. destruct v; try reflexivity.
    + now destruct (Hl items).
    + now destruct (Hd fields).
Qed.

Lemma C3_payload_normalization_witness :
  ensure_list_payload
    (PDict (<[py "results" := PList [PInt 3]]>
            (<[py "items" := PList [PInt 2]]>
             (<[py "data" := PStr (py "x")]> ∅)))) = [PInt 2].
Proof.
  destruct C3_payload_normalization as (_ & _ & H & _).
  apply H.
  - intros l' Hl'. vm_compute in Hl'. discriminate.
  - vm_compute. reflexivity.
Defined.

Example ensure_list_array :
  ensure_list_payload (PList [PInt 1; PStr (py "x")]) = [PInt 1; PStr (py "x")].
Proof. reflexivity. Qed.

Example ensure_list_precedence :
  ensure_list_payload
    (PDict (<[py "results" := PList [PInt 3]]>
            (<[py "items" := PList [PInt 2]]>
             (<[py "data" := PList [PInt 1]]> ∅)))) = [PInt 1].
Proof. vm_compute. reflexivity. Qed.

Example ensure_list_bare_object :
  ensure_list_payload (PDict (<[py "id" := PInt 1]> ∅))
  = [PDict (<[py "id" := PInt 1]> ∅)].
Proof. vm_compute. reflexivity. Qed.

Example ensure_list_scalar :
  ensure_list_payload (PBool true) = []
  /\ ensure_list_payload (PInt 5) = []
  /\ ensure_list_payload (PStr (py "x")) = []
  /\ ensure_list_payload PNone = [].
Proof. repeat split. Qed.

(** ** [extract] *)

Section ExtractFacts.
Context {W : Type}.
Variable urljoin : str -> str -> outcome str.
Variable session_get : str -> gmap str str -> Z -> M W Response.
Variable logger : LogRecord -> W -> W.

(** Whatever JSON value a successful response carries, [extract] returns
    its normalization and the metadata describing it. *)
Lemma extract_returns (base_url endpoint url : str) (auth_headers : gmap str str)
    (response : Response) (data : pyval) (w w1 : W) :
  urljoin (base_url ++ py "/") endpoint = Ok url ->
  session_get url auth_headers 30 (logger (LogFetching url) w) = (Ok response, w1) ->
  ok response = true ->
  json response = Ok data ->
  extract urljoin session_get logger base_url endpoint auth_headers w
  = (Ok (ensure_list_payload data,
         mkMeta (status_code response) url
                (Z.of_nat (length (ensure_list_payload data)))),
     after_response logger response w1).
Proof.
  intros Hurl Hget Hok Hjson.
  unfold extract, bind, lift_outcome, modify, after_response. rewrite Hurl, Hget, Hok, Hjson.
  simpl. destruct (status_code response =? 429); reflexivity.
Qed.

(** A response with an error status makes [extract] raise [HTTPError]. *)
Lemma extract_http_error (base_url endpoint url : str) (auth_headers : gmap str str)
    (response : Response) (w w1 : W) :
  urljoin (base_url ++ py "/") endpoint = Ok url ->
  session_get url auth_headers 30 (logger (LogFetching url) w) = (Ok response, w1) ->
  ok response = false ->
  exists w', extract urljoin session_get logger base_url endpoint auth_headers w
             = (Raise (HTTPError (status_code response)), w').
Proof.
  intros Hurl Hget Hok.
  unfold extract, bind, lift_outcome, modify. rewrite Hurl, Hget, Hok.
  unfold ok in Hok. apply negb_false_iff in Hok.
  unfold raise_for_status. rewrite Hok.
  destruct (status_code response =? 429); simpl; eexists; reflexivity.
Qed.

(** Every result [extract] returns was produced by its last line. *)
Lemma extract_inversion (base_url endpoint : str) (auth_headers : gmap str str)
    (records : list pyval) (meta : Meta) (w w' : W) :
  extract urljoin session_get logger base_url endpoint auth_headers w
  = (Ok (records, meta), w') ->
  exists url response data w1,
    urljoin (base_url ++ py "/") endpoint = Ok url
    /\ session_get url auth_headers 30 (logger (LogFetching url) w) = (Ok response, w1)
    /\ ok response = true
    /\ json response = Ok data
    /\ records = ensure_list_payload data
    /\ meta = mkMeta (status_code response) url (Z.of_nat (length records)).
Proof.
  unfold extract, bind, lift_outcome, modify.
  destruct (urljoin _ endpoint) as [url|e] eqn:Hurl; [|discriminate].
  destruct (session_get url auth_headers 30 _) as [[response|e] w1] eqn:Hget;
    [|discriminate].
  intros H. exists url, response.
  destruct (ok response) eqn:Hok.
  - destruct (json response) as [data|e] eqn:Hjson.
    + exists data, w1. simpl in H.
      destruct (status_code response =? 429); simpl in H;
        inversion H; subst; repeat split; first [assumption | reflexivity].
    + exfalso. simpl in H.
      destruct (status_code response =? 429); simpl in H; discriminate.
  - exfalso. unfold ok in Hok. apply negb_false_iff in Hok.
    unfold raise_for_status in H. rewrite Hok in H. simpl in H.
    destruct (status_code response =? 429); simpl in H; discriminate.
Qed.

(** C10. When [extract] returns, the metadata's [record_count] is the
    length of the returned records; and it does return, with the
    normalization of the body, for every JSON value a successful response
    carries: [ensure_list_payload] has a result on arrays, objects and
    scalars alike. *)
Theorem C10_record_count_is_length (base_url endpoint : str)
    (auth_headers : gmap str str) (w : W) :
  (forall records meta w',
      extract urljoin session_get logger base_url endpoint auth_headers w
      = (Ok (records, meta), w') ->
      record_count meta = Z.of_nat (length records))
  /\ (forall url response data w1,
      urljoin (base_url ++ py "/") endpoint = Ok url ->
      session_get url auth_headers 30 (logger (LogFetching url) w) = (Ok response, w1) ->
      ok response = true ->
      json response = Ok data ->
      exists meta w',
        extract urljoin session_get logger base_url endpoint auth_headers w
        = (Ok (ensure_list_payload data, meta), w')
        /\ record_count meta = Z.of_nat (length (ensure_list_payload data))).
Proof.
  split.
  - intros records meta w' H.
    apply extract_inversion in H as (url & response & data & w1 & _ & _ & _ & _ & _ & ->).
    reflexivity.
  - intros url response data w1 Hurl Hget Hok Hjson.
    eexists _, _. split.
    + eapply extract_returns; eassumption.
    + reflexivity.
Qed.
End ExtractFacts.

(** ** [transform] *)

Section TransformFacts.
Variable utc_clock : nat -> Z.

(** One iteration of the loop, on a store written out: the record is copied
    to a new address, the copy gets the two fields, and its address is
    appended to the output list. *)
Lemma transform_loop_step (t : Z) (e : str) (tr r : loc) (rest acc : list loc)
    (L : gmap loc (list loc)) (D : gmap loc (gmap str pyval)) (c : nat)
    (fields : gmap str pyval) :
  D !! r = Some fields ->
  L !! tr = Some acc ->
  let d := fresh (dom L ∪ dom D) in
  transform_loop t e tr (r :: rest) (mkState (mkHeap L D) c)
  = transform_loop t e tr rest
      (mkState (mkHeap (<[tr := acc ++ [d]]> L) (<[d := enrich t e fields]> D)) c).
Proof.
  intros Hr Htr d. simpl.
  unfold dict_copy. simpl. rewrite Hr.
  unfold new_loc, allocated. simpl. fold d.
  unfold dict_setitem. simpl. rewrite lookup_insert_eq. simpl.
  rewrite lookup_insert_eq.
  unfold list_append. simpl. rewrite Htr.
  rewrite !insert_insert_eq. reflexivity.
Qed.

Lemma transform_loop_spec (t : Z) (e : str) (tr : loc) (recs : list loc) :
  forall (L : gmap loc (list loc)) (D : gmap loc (gmap str pyval)) (c : nat)
         (acc : list loc),
  L !! tr = Some acc ->
  (forall r, r ∈ recs -> is_Some (D !! r)) ->
  exists D' docs,
    transform_loop t e tr recs (mkState (mkHeap L D) c)
    = Some (mkState (mkHeap (<[tr := acc ++ docs]> L) D') c)
    /\ length docs = length recs
    /\ (forall a, a ∈ dom L ∪ dom D -> D' !! a = D !! a)
    /\ (forall d, d ∈ docs -> d ∉ dom L ∪ dom D)
    /\ NoDup docs
    /\ (forall i r d, recs !! i = Some r -> docs !! i = Some d ->
        exists fields, D !! r = Some fields /\ D' !! d = Some (enrich t e fields)).
Proof.
  induction recs as [|r rest IH]; intros L D c acc Htr Hrecs.
  - exists D, []. simpl. rewrite app_nil_r, insert_id by assumption.
    repeat split; try done.
    + intros d Hd. inversion Hd.
    + constructor.
  - destruct (Hrecs r) as [fields Hr]; [apply list_elem_of_here|].
    rewrite (transform_loop_step t e tr r rest acc L D c fields Hr Htr).
    set (d := fresh (dom L ∪ dom D)).
    assert (Hfresh : d ∉ dom L ∪ dom D) by apply is_fresh.
    set (L1 := <[tr := acc ++ [d]]> L).
    set (D1 := <[d := enrich t e fields]> D).
    assert (Hdom : dom L ∪ dom D ⊆ dom L1 ∪ dom D1).
    { subst L1 D1. rewrite !dom_insert_L.
      intros x [Hx|Hx]%elem_of_union;
        [apply elem_of_union_l | apply elem_of_union_r]; apply elem_of_union_r, Hx. }
    destruct (IH L1 D1 c (acc ++ [d])) as (D' & docs & Hrun & Hlen & Hframe & Hnew & Hnodup & Hcontent).
    { subst L1. apply lookup_insert_eq. }
    { intros r' Hr'. subst D1. apply lookup_insert_is_Some'. right.
      apply Hrecs. now apply list_elem_of_further. }
    exists D', (d :: docs). repeat split.
    + rewrite Hrun. subst L1. rewrite insert_insert_eq, <- app_assoc. reflexivity.
    + simpl. now rewrite Hlen.
    + intros a Ha. rewrite Hframe by (apply Hdom, Ha).
      subst D1. apply lookup_insert_ne. intros ->. contradiction.
    + intros d' Hd'. apply elem_of_cons in Hd' as [->|Hd']; [assumption|].
      intros Hin. apply (Hnew d' Hd'). apply Hdom, Hin.
    + constructor; [|assumption].
      intros Hin. apply (Hnew d Hin). subst D1. rewrite dom_insert_L.
      apply elem_of_union_r, elem_of_union_l, elem_of_singleton. reflexivity.
    + intros [|i] r' d' Hr' Hd'; simpl in Hr', Hd'.
      * simplify_eq. exists fields. split; [assumption|].
        rewrite Hframe
          by (subst D1; rewrite dom_insert_L;
              apply elem_of_union_r, elem_of_union_l, elem_of_singleton; reflexivity).
        subst D1. apply lookup_insert_eq.
      * destruct (Hcontent i r' d' Hr' Hd') as (fields' & Hf & Hd'').
        exists fields'. split; [|assumption].
        assert (Hin : r' ∈ rest) by (eapply list_elem_of_lookup_2; eassumption).
        destruct (Hrecs r') as [f' Hf']; [now apply list_elem_of_further|].
        assert (Hne : d <> r').
        { intros Heq. apply Hfresh. rewrite Heq.
          apply elem_of_union_r, elem_of_dom. eauto. }
        subst D1. rewrite lookup_insert_ne in Hf; assumption.
Qed.

(** The whole call: what [transform] returns and what it leaves alone. *)
Lemma transform_spec (s : pystate) (records : loc) (endpoint : str)
    (recs : list loc) :
  lists (st_heap s) !! records = Some recs ->
  (forall r, r ∈ recs -> is_Some (dicts (st_heap s) !! r)) ->
  exists out s' docs,
    transform utc_clock records endpoint s = Some (out, s')
    /\ clock_reads s' = S (clock_reads s)
    /\ (forall a, a ∈ allocated (st_heap s) ->
        lists (st_heap s') !! a = lists (st_heap s) !! a
        /\ dicts (st_heap s') !! a = dicts (st_heap s) !! a)
    /\ (out ∉ allocated (st_heap s))
    /\ lists (st_heap s') !! out = Some docs
    /\ length docs = length recs
    /\ (forall d, d ∈ docs -> d ∉ allocated (st_heap s))
    /\ NoDup docs
    /\ (forall i r d, recs !! i = Some r -> docs !! i = Some d ->
        exists fields,
          dicts (st_heap s) !! r = Some fields
          /\ dicts (st_heap s') !! d
             = Some (enrich (utc_clock (clock_reads s)) endpoint fields)).
Proof.
  destruct s as [[L D] c]. simpl. intros Hrecords Hrecs.
  unfold transform, datetime_now, new_list, new_loc, allocated. simpl.
  set (tr := fresh (dom L ∪ dom D)).
  assert (Hfresh : tr ∉ dom L ∪ dom D) by apply is_fresh.
  assert (Hne : tr <> records).
  { intros ->. apply Hfresh, elem_of_union_l, elem_of_dom. eauto. }
  rewrite lookup_insert_ne by assumption. rewrite Hrecords.
  destruct (transform_loop_spec (utc_clock c) endpoint tr recs (<[tr := []]> L) D (S c) [])
    as (D' & docs & Hrun & Hlen & Hframe & Hnew & Hnodup & Hcontent).
  { apply lookup_insert_eq. }
  { assumption. }
  rewrite Hrun. simpl. rewrite insert_insert_eq.
  assert (Hdom : dom L ∪ dom D ⊆ dom (<[tr := []]> L) ∪ dom D).
  { rewrite dom_insert_L.
    intros x [Hx|Hx]%elem_of_union;
      [apply elem_of_union_l, elem_of_union_r, Hx | apply elem_of_union_r, Hx]. }
  exists tr, (mkState (mkHeap (<[tr := docs]> L) D') (S c)), docs. simpl.
  repeat split; try assumption; try reflexivity.
  - apply lookup_insert_ne. intros <-. contradiction.
  - apply Hframe, Hdom. assumption.
  - apply lookup_insert_eq.
  - intros d Hd Hin. apply (Hnew d Hd), Hdom, Hin.
Qed.

Lemma enrich_ingested_at (t : Z) (endpoint : str) (fields : gmap str pyval) :
  enrich t endpoint fields !! py "ingested_at" = Some (PDatetime t).
Proof.
  unfold enrich. rewrite lookup_insert_ne by (vm_compute; discriminate).
  apply lookup_insert_eq.
Qed.

Lemma enrich_source_endpoint (t : Z) (endpoint : str) (fields : gmap str pyval) :
  enrich t endpoint fields !! py "source_endpoint" = Some (PStr endpoint).
Proof. unfold enrich. apply lookup_insert_eq. Qed.

(** Every other field of the record is copied as it is. *)
Lemma enrich_other (t : Z) (endpoint key : str) (fields : gmap str pyval) :
  key <> py "ingested_at" -> key <> py "source_endpoint" ->
  enrich t endpoint fields !! key = fields !! key.
Proof.
  intros H1 H2. unfold enrich.
  rewrite !lookup_insert_ne by congruence. reflexivity.
Qed.

(** C5. [transform] reads the clock once and returns a new list of new
    dictionaries: every object that existed before the call, the input list
    and each input record among them, has the same content afterwards; the
    output list and the output records are at addresses no object had
    before; the [i]-th output record is the [i]-th input record's entries
    with [ingested_at] set to that one clock reading and [source_endpoint]
    set to the given endpoint. *)
Theorem C5_transform_leaves_input_unchanged (s : pystate) (records : loc)
    (endpoint : str) (recs : list loc) :
  lists (st_heap s) !! records = Some recs ->
  (forall r, r ∈ recs -> is_Some (dicts (st_heap s) !! r)) ->
  exists out s' docs,
    transform utc_clock records endpoint s = Some (out, s')
    /\ clock_reads s' = S (clock_reads s)
    /\ (forall a, a ∈ allocated (st_heap s) ->
        lists (st_heap s') !! a = lists (st_heap s) !! a
        /\ dicts (st_heap s') !! a = dicts (st_heap s) !! a)
    /\ lists (st_heap s') !! records = Some recs
    /\ (out ∉ allocated (st_heap s))
    /\ lists (st_heap s') !! out = Some docs
    /\ length docs = length recs
    /\ (forall d, d ∈ docs -> d ∉ allocated (st_heap s))
    /\ NoDup docs
    /\ (forall i r d, recs !! i = Some r -> docs !! i = Some d ->
        exists fields,
          dicts (st_heap s) !! r = Some fields
          /\ dicts (st_heap s') !! r = Some fields
          /\ dicts (st_heap s') !! d
             = Some (<[py "source_endpoint" := PStr endpoint]>
                       (<[py "ingested_at" := PDatetime (utc_clock (clock_reads s))]>
                          fields))).
Proof.
  intros Hrecords Hrecs.
  destruct (transform_spec s records endpoint recs Hrecords Hrecs)
    as (out & s' & docs & Hrun & Hclock & Hframe & Hout & Hdocs & Hlen & Hnew
        & Hnodup & Hcontent).
  assert (Hrecords_in : records ∈ allocated (st_heap s)).
  { apply elem_of_union_l, elem_of_dom. eauto. }
  exists out, s', docs. repeat split; try assumption.
  - now apply Hframe.
  - now apply Hframe.
  - destruct (Hframe records Hrecords_in) as [-> _]. assumption.
  - intros i r d Hr Hd.
    destruct (Hcontent i r d Hr Hd) as (fields & Hfields & Hdoc).
    exists fields. repeat split; try assumption.
    assert (Hin : r ∈ allocated (st_heap s)).
    { apply elem_of_union_r, elem_of_dom. eauto. }
    destruct (Hframe r Hin) as [_ ->]. assumption.
Qed.

(** C9. Every record [transform] returns has [ingested_at] equal to the
    clock reading of the call and [source_endpoint] equal to the given
    endpoint, whatever the input record held under those two keys; its other
    fields are the input record's. *)
Theorem C9_transform_overwrites_provenance (s : pystate) (records : loc)
    (endpoint : str) (recs : list loc) :
  lists (st_heap s) !! records = Some recs ->
  (forall r, r ∈ recs -> is_Some (dicts (st_heap s) !! r)) ->
  exists out s' docs,
    transform utc_clock records endpoint s = Some (out, s')
    /\ lists (st_heap s') !! out = Some docs
    /\ length docs = length recs
    /\ forall i r d, recs !! i = Some r -> docs !! i = Some d ->
       exists fields doc,
         dicts (st_heap s) !! r = Some fields
         /\ dicts (st_heap s') !! d = Some doc
         /\ doc !! py "ingested_at" = Some (PDatetime (utc_clock (clock_reads s)))
         /\ doc !! py "source_endpoint" = Some (PStr endpoint)
         /\ forall key, key <> py "ingested_at" -> key <> py "source_endpoint" ->
            doc !! key = fields !! key.
Proof.
  intros Hrecords Hrecs.
  destruct (transform_spec s records endpoint recs Hrecords Hrecs)
    as (out & s' & docs & Hrun & _ & _ & _ & Hdocs & Hlen & _ & _ & Hcontent).
  exists out, s', docs. repeat split; try assumption.
  intros i r d Hr Hd.
  destruct (Hcontent i r d Hr Hd) as (fields & Hfields & Hdoc).
  exists fields, (enrich (utc_clock (clock_reads s)) endpoint fields).
  repeat split; try assumption.
  - apply enrich_ingested_at.
  - apply enrich_source_endpoint.
  - intros key H1 H2. now apply enrich_other.
Qed.
End TransformFacts.

Lemma sample_state_well_formed :
  lists (st_heap sample_state) !! 1%positive = Some [2%positive; 2%positive]
  /\ forall r, r ∈ [2%positive; 2%positive] ->
     is_Some (dicts (st_heap sample_state) !! r).
Proof.
  split; [reflexivity|].
  intros r Hr. assert (r = 2%positive) as ->.
  { apply elem_of_cons in Hr as [->|Hr]; [reflexivity|].
    apply elem_of_cons in Hr as [->|Hr]; [reflexivity|]. inversion Hr. }
  exists sample_record. reflexivity.
Qed.

Lemma C5_transform_leaves_input_unchanged_witness :
  exists out s' docs,
    transform sample_clock 1%positive (py "posts") sample_state = Some (out, s')
    /\ lists (st_heap s') !! 1%positive = Some [2%positive; 2%positive]
    /\ dicts (st_heap s') !! 2%positive = Some sample_record
    /\ lists (st_heap s') !! out = Some docs
    /\ length docs = 2%nat.
Proof.
  destruct sample_state_well_formed as [Hlist Hrecs].
  destruct (C5_transform_leaves_input_unchanged sample_clock sample_state
              1%positive (py "posts") [2%positive; 2%positive] Hlist Hrecs)
    as (out & s' & docs & Hrun & _ & Hframe & Hin & _ & Hout & Hlen & _).
  assert (H2 : dicts (st_heap s') !! 2%positive = Some sample_record).
  { destruct (Hframe 2%positive) as [_ H2]; [|exact H2].
    apply elem_of_union_r, elem_of_dom. exists sample_record. reflexivity. }
  exists out, s', docs.
  split; [exact Hrun|]. split; [exact Hin|]. split; [exact H2|].
  split; [exact Hout|exact Hlen].
Defined.

Lemma C9_transform_overwrites_provenance_witness :
  exists out s' docs,
    transform sample_clock 1%positive (py "posts") sample_state = Some (out, s')
    /\ lists (st_heap s') !! out = Some docs
    /\ forall d, d ∈ docs ->
       exists doc, dicts (st_heap s') !! d = Some doc
                   /\ doc !! py "ingested_at" = Some (PDatetime 1700000000).
Proof.
  destruct sample_state_well_formed as [Hlist Hrecs].
  destruct (C9_transform_overwrites_provenance sample_clock sample_state
              1%positive (py "posts") [2%positive; 2%positive] Hlist Hrecs)
    as (out & s' & docs & Hrun & Hout & Hlen & Hcontent).
  exists out, s', docs. repeat split; try assumption.
  intros d [i Hd]%list_elem_of_lookup_1.
  assert (Hi : (i < 2)%nat).
  { apply lookup_lt_Some in Hd. rewrite Hlen in Hd. exact Hd. }
  destruct (lookup_lt_is_Some_2 [2%positive; 2%positive] i Hi) as [r Hr].
  destruct (Hcontent i r d Hr Hd) as (fields & doc & _ & Hdoc & Hia & _).
  exists doc. split; assumption.
Defined.

(** The spec's test, run: one stale record listed twice gives two new
    records carrying the call's timestamp, and the input is as before. *)
Example transform_sample :
  exists s',
    transform sample_clock 1%positive (py "posts") sample_state
    = Some (3%positive, s')
    /\ lists (st_heap s') !! 3%positive = Some [4%positive; 5%positive]
    /\ dicts (st_heap s') !! 4%positive
       = Some (<[py "source_endpoint" := PStr (py "posts")]>
                 (<[py "ingested_at" := PDatetime 1700000000]> sample_record))
    /\ dicts (st_heap s') !! 2%positive = Some sample_record
    /\ clock_reads s' = 1%nat.
Proof.
  destruct (transform sample_clock 1%positive (py "posts") sample_state)
    as [[out s']|] eqn:Hrun; [|vm_compute in Hrun; discriminate].
  assert (Hout : out = 3%positive).
  { apply (f_equal (fun r => match r with Some (o, _) => o | None => 1%positive end)) in Hrun.
    vm_compute in Hrun. congruence. }
  subst out. exists s'. split; [reflexivity|].
  assert (Hs : Some s' = snd <$> transform sample_clock 1%positive (py "posts") sample_state)
    by (rewrite Hrun; reflexivity).
  injection Hs as ->. vm_compute. repeat split.
Qed.

(** ** [load_to_mongo] *)

Section LoadFacts.
Context {W Doc Id Client Collection : Type}.
Variable MongoClient : str -> M W Client.
Variable get_collection : Client -> str -> str -> M W Collection.
Variable insert_many : Collection -> list Doc -> bool -> M W (InsertManyResult Id).

Lemma load_to_mongo_empty (uri db coll : str) (w : W) :
  load_to_mongo MongoClient get_collection insert_many uri db coll [] w = (Ok 0, w).
Proof. reflexivity. Qed.

(** With the collection handle in hand, the loader's result is the driver's:
    the number of inserted ids when [insert_many] returns, and the driver's
    exception, whatever it is, when it raises. *)
Lemma load_to_mongo_follows_driver (uri db coll : str) (documents : list Doc)
    (w w1 w2 : W) (client : Client) (collection : Collection) :
  documents <> [] ->
  MongoClient uri w = (Ok client, w1) ->
  get_collection client db coll w1 = (Ok collection, w2) ->
  load_to_mongo MongoClient get_collection insert_many uri db coll documents w
  = match insert_many collection documents false w2 with
    | (Ok result, w3) => (Ok (Z.of_nat (length (inserted_ids result))), w3)
    | (Raise e, w3) => (Raise e, w3)
    end.
Proof.
  intros Hne Hclient Hcoll. destruct documents as [|d ds]; [contradiction|].
  unfold load_to_mongo, bind. rewrite Hclient, Hcoll.
  destruct (insert_many collection (d :: ds) false w2) as [[result|e] w3]; reflexivity.
Qed.
End LoadFacts.

Section PymongoFacts.
Context {Doc K : Type} `{EqDecision K}.
Variable given_id : Doc -> option K.

Lemma assign_ids_length (documents : list Doc) (oid : nat) :
  length (fst (Pymongo.assign_ids given_id documents oid)) = length documents.
Proof.
  revert oid. induction documents as [|d ds IH]; intros oid; simpl; [reflexivity|].
  destruct (given_id d).
  - specialize (IH oid). destruct (Pymongo.assign_ids given_id ds oid). simpl in *. lia.
  - specialize (IH (S oid)). destruct (Pymongo.assign_ids given_id ds (S oid)).
    simpl in *. lia.
Qed.

(** Unordered: what was stored stays, and every id of the batch is in the
    collection afterwards, the ones after a failed write included. *)
Lemma write_batch_unordered_attempts_all (batch : list (Pymongo.id (K := K))) :
  forall (index : nat) (present : list Pymongo.id),
    let result := Pymongo.write_batch false index batch present in
    (forall i, i ∈ present -> i ∈ fst result)
    /\ (forall i, i ∈ batch -> i ∈ fst result).
Proof.
  induction batch as [|i rest IH]; intros index present; simpl.
  - split; [auto|]. intros i Hi. inversion Hi.
  - destruct (bool_decide (i ∈ present)) eqn:Hdup.
    + apply bool_decide_eq_true in Hdup.
      specialize (IH (S index) present).
      destruct (Pymongo.write_batch false (S index) rest present) as [present' errs].
      simpl in *. destruct IH as [Hkeep Hall]. split; [assumption|].
      intros j [->|Hj]%elem_of_cons; auto.
    + specialize (IH (S index) (present ++ [i])).
      destruct (Pymongo.write_batch false (S index) rest (present ++ [i]))
        as [present' errs].
      simpl in *. destruct IH as [Hkeep Hall]. split.
      * intros j Hj. apply Hkeep, elem_of_app. now left.
      * intros j [->|Hj]%elem_of_cons; [|auto].
        apply Hkeep, elem_of_app. right. apply list_elem_of_here.
Qed.

(** The loader against the driver contract: the whole batch is attempted;
    the count comes back only when no write failed, and then it is the
    number of documents. *)
Lemma pymongo_load_outcome (uri db coll : str) (documents : list Doc)
    (srv : Pymongo.server) :
  documents <> [] -> Pymongo.reachable srv = true ->
  exists srv',
    (forall i, i ∈ batch_ids given_id documents srv -> i ∈ Pymongo.stored srv')
    /\ (pymongo_load_to_mongo given_id uri db coll documents srv
        = (Ok (Z.of_nat (length documents)), srv')
        \/ exists n errs,
             errs <> []
             /\ pymongo_load_to_mongo given_id uri db coll documents srv
                = (Raise (BulkWriteError n errs), srv')).
Proof.
  intros Hne Hreach. destruct documents as [|d ds]; [contradiction|].
  unfold pymongo_load_to_mongo, load_to_mongo, bind, ret, batch_ids.
  unfold Pymongo.insert_many. rewrite Hreach.
  rewrite bool_decide_eq_false_2 by discriminate. simpl negb. cbv iota.
  pose proof (assign_ids_length (d :: ds) (Pymongo.next_oid srv)) as Hlen.
  destruct (Pymongo.assign_ids given_id (d :: ds) (Pymongo.next_oid srv))
    as [ids oid'] eqn:Hids.
  pose proof (write_batch_unordered_attempts_all ids 0 (Pymongo.stored srv)) as Hall.
  destruct (Pymongo.write_batch false 0 ids (Pymongo.stored srv)) as [present' errs].
  simpl in Hall. destruct Hall as [_ Hall]. simpl in Hlen.
  exists (Pymongo.mkServer true present' oid'). split; [exact Hall|].
  destruct errs as [|err errs].
  - left. simpl. now rewrite Hlen.
  - right. eexists _, _. split; [|reflexivity]. discriminate.
Qed.

Lemma pymongo_load_unreachable (uri db coll : str) (documents : list Doc)
    (srv : Pymongo.server) :
  documents <> [] -> Pymongo.reachable srv = false ->
  pymongo_load_to_mongo given_id uri db coll documents srv
  = (Raise ServerSelectionTimeoutError, srv).
Proof.
  intros Hne Hreach. destruct documents as [|d ds]; [contradiction|].
  unfold pymongo_load_to_mongo, load_to_mongo, bind, ret.
  unfold Pymongo.insert_many. rewrite Hreach.
  rewrite bool_decide_eq_false_2 by discriminate. reflexivity.
Qed.
End PymongoFacts.

(** C1 as stated fails.  Three documents, the second repeating the first
    one's [_id], sent to an empty, reachable collection: the unordered
    insert writes the first and the third (the failure of the second does
    not stop the third), so the failure affects some but not all documents;
    the driver then raises [BulkWriteError] with [nInserted = 2], and
    [load_to_mongo], which has no handler, raises it too instead of
    returning 2. *)
Lemma C1_counterexample :
  let documents := [sample_doc 1 "a"; sample_doc 1 "b"; sample_doc 2 "c"] in
  pymongo_load_to_mongo int_id (py "mongodb://localhost:27017") (py "etl_db")
    (py "posts_raw") documents empty_server
  = (Raise (BulkWriteError 2 [1%nat]),
     Pymongo.mkServer true [inl 1; inl 2] 0)
  /\ fst (pymongo_load_to_mongo int_id (py "mongodb://localhost:27017") (py "etl_db")
            (py "posts_raw") documents empty_server) <> Ok 2.
Proof.
  assert (H : pymongo_load_to_mongo int_id (py "mongodb://localhost:27017")
                (py "etl_db") (py "posts_raw")
                [sample_doc 1 "a"; sample_doc 1 "b"; sample_doc 2 "c"] empty_server
              = (Raise (BulkWriteError 2 [1%nat]),
                 Pymongo.mkServer true [inl 1; inl 2] 0))
    by (vm_compute; reflexivity).
  cbv zeta. split; [exact H|]. rewrite H. simpl. discriminate.
Qed.

(** C1, amended.  For a non-empty document list the loader issues one
    unordered [insert_many] and its result is the driver's: the number of
    inserted ids when the call returns, and the driver's exception when it
    raises.  Under the driver's contract every document of the batch is
    attempted, one document's failure not stopping the others; the loader
    returns the count, equal to the number of documents, when no write
    failed, and otherwise the driver's error reaches the caller: a
    [BulkWriteError] when some write failed, a connection error when the
    server cannot be reached. *)
Theorem C1_loader_result_is_driver_result :
  (forall (W Doc Id Client Collection : Type)
          (MongoClient : str -> M W Client)
          (get_collection : Client -> str -> str -> M W Collection)
          (insert_many : Collection -> list Doc -> bool -> M W (InsertManyResult Id))
          (uri db coll : str) (documents : list Doc) (w w1 w2 : W)
          (client : Client) (collection : Collection),
      documents <> [] ->
      MongoClient uri w = (Ok client, w1) ->
      get_collection client db coll w1 = (Ok collection, w2) ->
      (forall result w3,
          insert_many collection documents false w2 = (Ok result, w3) ->
          load_to_mongo MongoClient get_collection insert_many uri db coll documents w
          = (Ok (Z.of_nat (length (inserted_ids result))), w3))
      /\ (forall e w3,
          insert_many collection documents false w2 = (Raise e, w3) ->
          load_to_mongo MongoClient get_collection insert_many uri db coll documents w
          = (Raise e, w3)))
  /\ (forall (Doc K : Type) (HK : EqDecision K) (given_id : Doc -> option K)
             (uri db coll : str) (documents : list Doc) (srv : Pymongo.server),
      documents <> [] ->
      (Pymongo.reachable srv = false ->
       pymongo_load_to_mongo given_id uri db coll documents srv
       = (Raise ServerSelectionTimeoutError, srv))
      /\ (Pymongo.reachable srv = true ->
          exists srv',
            (forall i, i ∈ batch_ids given_id documents srv -> i ∈ Pymongo.stored srv')
            /\ (pymongo_load_to_mongo given_id uri db coll documents srv
                = (Ok (Z.of_nat (length documents)), srv')
                \/ exists n errs,
                     errs <> []
                     /\ pymongo_load_to_mongo given_id uri db coll documents srv
                        = (Raise (BulkWriteError n errs), srv')))).
Proof.
  split.
  - intros W Doc Id Client Collection MongoClient get_collection insert_many
      uri db coll documents w w1 w2 client collection Hne Hclient Hcoll.
    pose proof (load_to_mongo_follows_driver MongoClient get_collection insert_many
                  uri db coll documents w w1 w2 client collection Hne Hclient Hcoll)
      as Hload.
    split.
    + intros result w3 Hins. now rewrite Hins in Hload.
    + intros e w3 Hins. now rewrite Hins in Hload.
  - intros Doc K HK given_id uri db coll documents srv Hne. split.
    + now apply pymongo_load_unreachable.
    + now apply pymongo_load_outcome.
Qed.

Lemma C1_loader_result_is_driver_result_witness :
  exists srv',
    (forall i, i ∈ batch_ids int_id [sample_doc 1 "a"; sample_doc 2 "b"] empty_server ->
               i ∈ Pymongo.stored srv')
    /\ (pymongo_load_to_mongo int_id (py "mongodb://localhost:27017") (py "etl_db")
          (py "posts_raw") [sample_doc 1 "a"; sample_doc 2 "b"] empty_server
        = (Ok (Z.of_nat (length [sample_doc 1 "a"; sample_doc 2 "b"])), srv')
        \/ exists n errs,
             errs <> []
             /\ pymongo_load_to_mongo int_id (py "mongodb://localhost:27017") (py "etl_db")
                  (py "posts_raw") [sample_doc 1 "a"; sample_doc 2 "b"] empty_server
                = (Raise (BulkWriteError n errs), srv')).
Proof.
  destruct C1_loader_result_is_driver_result as [_ H].
  destruct (H _ _ _ int_id (py "mongodb://localhost:27017") (py "etl_db") (py "posts_raw")
              [sample_doc 1 "a"; sample_doc 2 "b"] empty_server) as [_ Hreach].
  - discriminate.
  - apply Hreach. reflexivity.
Defined.

Example load_to_mongo_two_new_documents :
  pymongo_load_to_mongo int_id (py "mongodb://localhost:27017") (py "etl_db")
    (py "posts_raw") [sample_doc 1 "a"; sample_doc 2 "b"] empty_server
  = (Ok 2, Pymongo.mkServer true [inl 1; inl 2] 0).
Proof. vm_compute. reflexivity. Qed.

(** With [ordered=True] the third document would not have been written. *)
Example ordered_insert_stops_at_first_failure :
  Pymongo.insert_many int_id [sample_doc 1 "a"; sample_doc 1 "b"; sample_doc 2 "c"]
    true empty_server
  = (Raise (BulkWriteError 1 [1%nat]), Pymongo.mkServer true [inl 1] 0).
Proof. vm_compute. reflexivity. Qed.

(** ** The retry policy *)

Module Urllib3Facts.
Import Urllib3.

Lemma increment_total_only (r : Retry) (k : Z) (status_code : Z) :
  total r = Some k -> limits_total_only r ->
  increment r status_code
  = if k - 1 <? 0 then None
    else Some (mkRetry (Some (k - 1)) None None None None None (allowed_methods r)
                 (status_forcelist r) (backoff_factor r) (backoff_max r) false
                 (respect_retry_after_header r) (history r ++ [status_code])).
Proof.
  intros Htotal (Hc & Hr & Hd & Hs & Ho & Hraise).
  unfold increment, is_exhausted. simpl.
  rewrite Htotal, Hc, Hr, Hd, Hs, Ho, Hraise. simpl.
  replace (Z.pred k) with (k - 1) by lia.
  destruct (k - 1 =? 0) eqn:Hzero; simpl.
  - apply Z.eqb_eq in Hzero. rewrite Hzero. reflexivity.
  - reflexivity.
Qed.

(** [total = k] allows [k] retries: at most [k + 1] requests are sent, and
    the caller gets the last response. *)
Lemma urlopen_total_bounds_requests (k : nat) :
  forall (fuel : nat) (server : nat -> attempt) (method : str) (r : Retry)
         (requests : nat) (pauses : list Q),
    total r = Some (Z.of_nat k) -> limits_total_only r -> (k < fuel)%nat ->
    exists status_code n ps,
      urlopen fuel server method r requests pauses = Some (Responded status_code n ps)
      /\ (requests < n)%nat /\ (n <= requests + k + 1)%nat
      /\ length ps = (length pauses + (n - requests - 1))%nat.
Proof.
  induction k as [|k IH]; intros fuel server method r requests pauses Htotal Hlim Hfuel;
    (destruct fuel as [|fuel]; [lia|]); simpl;
    destruct (server requests) as [status_code retry_after];
    destruct (is_retry r method status_code _).
  - rewrite (increment_total_only r _ status_code Htotal Hlim). simpl.
    destruct Hlim as (_ & _ & _ & _ & _ & ->).
    exists status_code, (S requests), pauses. repeat split; lia.
  - exists status_code, (S requests), pauses. repeat split; lia.
  - rewrite (increment_total_only r _ status_code Htotal Hlim).
    replace (Z.of_nat (S k) - 1) with (Z.of_nat k) by lia.
    destruct (Z.of_nat k <? 0) eqn:Hneg; [apply Z.ltb_lt in Hneg; lia|].
    edestruct (IH fuel server method) as (st & n & ps & Hrun & Hlo & Hhi & Hlen);
      [| | |rewrite Hrun].
    + reflexivity.
    + repeat split.
    + lia.
    + exists st, n, ps. split; [reflexivity|]. split; [lia|]. split; [lia|].
      rewrite Hlen, length_app. simpl. lia.
  - exists status_code, (S requests), pauses. repeat split; lia.
Qed.
End Urllib3Facts.

Lemma retry_limits_total_only : Urllib3.limits_total_only retry.
Proof. repeat split. Qed.

Lemma is_retry_configured (method : str) (status_code : Z) (has_retry_after : bool) :
  Urllib3.is_retry retry method status_code has_retry_after = true
  <-> Urllib3.upper method ∈ [py "GET"; py "POST"; py "PUT"; py "DELETE"; py "PATCH"]
      /\ (status_code ∈ [429; 500; 502; 503; 504]
          \/ (has_retry_after = true /\ status_code ∈ [413; 429; 503])).
Proof.
  unfold Urllib3.is_retry, Urllib3.is_method_retryable, Urllib3.RETRY_AFTER_STATUS_CODES.
  simpl. repeat case_bool_decide; destruct has_retry_after; simpl;
    split; intros Hyp; try discriminate; try reflexivity; try tauto.
  all: destruct Hyp as [? [?|[? ?]]]; try contradiction; discriminate.
Qed.

(** C7 as stated fails on the number of attempts: [total=5] is urllib3's
    number of retries, so a request that keeps failing is sent six times,
    once plus five retries, before the last response is handed back. *)
Lemma C7_counterexample :
  Urllib3.urlopen 10 (always 503) (py "GET") retry 0 []
  = Some (Urllib3.Responded 503 6 [0; 3; 6; 12; 24]%Q).
Proof. vm_compute. reflexivity. Qed.

(** C7, amended.  The policy allows 5 retries, hence at most 6 attempts per
    request, and a request that keeps failing is attempted exactly 6 times,
    with pauses of 0, 3, 6, 12 and 24 seconds: backoff factor 1.5, doubling.
    A response is retried exactly when its method is one of GET, POST, PUT,
    DELETE, PATCH and its status is one of 429, 500, 502, 503, 504, or one
    of 413, 429, 503 when it carries a Retry-After header.  The session
    uses this policy for both URL schemes. *)
Theorem C7_retry_policy :
  Urllib3.total retry = Some 5
  /\ Urllib3.backoff_factor retry = (3 # 2)%Q
  /\ Urllib3.status_forcelist retry = [429; 500; 502; 503; 504]
  /\ Urllib3.allowed_methods retry
     = [py "GET"; py "POST"; py "PUT"; py "DELETE"; py "PATCH"]
  /\ (forall method status_code has_retry_after,
      Urllib3.is_retry retry method status_code has_retry_after = true
      <-> Urllib3.upper method ∈ [py "GET"; py "POST"; py "PUT"; py "DELETE"; py "PATCH"]
          /\ (status_code ∈ [429; 500; 502; 503; 504]
              \/ (has_retry_after = true /\ status_code ∈ [413; 429; 503])))
  /\ (forall fuel server method, (6 <= fuel)%nat ->
      exists status_code requests pauses,
        Urllib3.urlopen fuel server method retry 0 []
        = Some (Urllib3.Responded status_code requests pauses)
        /\ (1 <= requests <= 6)%nat
        /\ length pauses = (requests - 1)%nat)
  /\ Urllib3.urlopen 6 (always 503) (py "GET") retry 0 []
     = Some (Urllib3.Responded 503 6 [0; 3; 6; 12; 24]%Q)
  /\ (forall default_headers,
      adapters (build_session_with_retries default_headers)
      = [(py "https://", retry); (py "http://", retry)]).
Proof.
  split; [reflexivity|]. split; [reflexivity|]. split; [reflexivity|].
  split; [reflexivity|]. split; [exact is_retry_configured|].
  split; [|split; [vm_compute; reflexivity | reflexivity]].
  intros fuel server method Hfuel.
  destruct (Urllib3Facts.urlopen_total_bounds_requests 5 fuel server method retry 0 [])
    as (status_code & n & ps & Hrun & Hlo & Hhi & Hlen).
  - reflexivity.
  - exact retry_limits_total_only.
  - lia.
  - exists status_code, n, ps. split; [exact Hrun|]. split; [lia|].
    rewrite Hlen. simpl. lia.
Qed.

Lemma C7_retry_policy_witness :
  exists status_code requests pauses,
    Urllib3.urlopen 8 (always 500) (py "POST") retry 0 []
    = Some (Urllib3.Responded status_code requests pauses)
    /\ (1 <= requests <= 6)%nat.
Proof.
  destruct C7_retry_policy as (_ & _ & _ & _ & _ & H & _).
  destruct (H 8%nat (always 500) (py "POST")) as (st & n & ps & Hrun & Hn & _).
  - lia.
  - exists st, n, ps. split; assumption.
Defined.

Example retry_stops_on_success :
  Urllib3.urlopen 6 (fun n => if (n <? 2)%nat then (503, None) else (200, None))
    (py "GET") retry 0 []
  = Some (Urllib3.Responded 200 3 [0; 3]%Q).
Proof. vm_compute. reflexivity. Qed.

Example method_outside_the_list_is_not_retried :
  Urllib3.urlopen 6 (always 503) (py "OPTIONS") retry 0 []
  = Some (Urllib3.Responded 503 1 []).
Proof. vm_compute. reflexivity. Qed.

(** ** [run] *)

Section RunFacts.
Context {W Doc Id Client Collection : Type}.
Variable urlparse_hostname : str -> outcome (option str).
Variable urljoin : str -> str -> outcome str.
Variable default_headers : gmap str str.
Variable session_get : Session -> str -> gmap str str -> Z -> M W Response.
Variable MongoClient : str -> M W Client.
Variable get_collection : Client -> str -> str -> M W Collection.
Variable insert_many : Collection -> list Doc -> bool -> M W (InsertManyResult Id).
Variable logger : LogRecord -> W -> W.
Variable transform_step : list pyval -> str -> M W (list Doc).
Variable write_debug_json_step : str -> list Doc -> M W str.

Abbreviation process_endpoint' :=
  (process_endpoint urljoin session_get MongoClient get_collection insert_many
     logger transform_step write_debug_json_step).
Abbreviation load_result' :=
  (load_result urljoin session_get MongoClient get_collection insert_many
     logger transform_step).
Abbreviation world_after_endpoint' :=
  (world_after_endpoint urljoin session_get MongoClient get_collection insert_many
     logger transform_step write_debug_json_step).
Abbreviation inserted_counts' :=
  (inserted_counts urljoin session_get MongoClient get_collection insert_many
     logger transform_step write_debug_json_step).
Abbreviation world_after_endpoints' :=
  (world_after_endpoints urljoin session_get MongoClient get_collection insert_many
     logger transform_step write_debug_json_step).
Abbreviation run_endpoints' :=
  (run_endpoints urljoin session_get MongoClient get_collection insert_many
     logger transform_step write_debug_json_step).

(** One pass of the loop never raises.  It adds the load's count to
    [total_inserted] when the load returned, also when the debug sink
    raised afterwards, and adds nothing otherwise. *)
Lemma endpoint_pass (cfg : Config) (session : Session) (auth_headers : gmap str str)
    (endpoint : str) (total_inserted : Z) (w : W) :
  try_except (process_endpoint' cfg session auth_headers endpoint)
             (endpoint_failed logger endpoint) (total_inserted, w)
  = (Ok tt,
     (total_inserted + default 0 (load_result' cfg session auth_headers endpoint w),
      world_after_endpoint' cfg session auth_headers endpoint w)).
Proof.
  unfold world_after_endpoint, load_result, try_except, process_endpoint,
    endpoint_failed, log, add_inserted, in_world, bind, modify.
  destruct (extract _ _ _ _ _ _ w) as [[fetched|e1] w1]; simpl;
    [|rewrite Z.add_0_r; reflexivity].
  destruct (transform_step _ _ _) as [[docs|e2] w2]; simpl;
    [|rewrite Z.add_0_r; reflexivity].
  destruct (load_to_mongo _ _ _ _ _ _ _ w2) as [[inserted|e3] w3]; simpl;
    [|rewrite Z.add_0_r; reflexivity].
  destruct (write_debug_json_step _ _ _) as [[debug_file|e4] w4]; simpl; reflexivity.
Qed.

(** The loop visits every endpoint and ends normally with the sum of the
    counts of the loads that returned. *)
Lemma run_endpoints_total (cfg : Config) (session : Session)
    (auth_headers : gmap str str) (endpoints : list str) :
  forall (total_inserted : Z) (w : W),
    for_each endpoints
      (fun endpoint =>
         try_except (process_endpoint' cfg session auth_headers endpoint)
                    (endpoint_failed logger endpoint)) (total_inserted, w)
    = (Ok tt,
       (total_inserted + sum_counts (inserted_counts' cfg session auth_headers endpoints w),
        world_after_endpoints' cfg session auth_headers endpoints w)).
Proof.
  induction endpoints as [|endpoint rest IH]; intros total_inserted w; simpl.
  - unfold ret. now rewrite Z.add_0_r.
  - unfold bind at 1. rewrite endpoint_pass, IH. unfold world_after_endpoints. simpl.
    f_equal. f_equal. unfold sum_counts.
    destruct (load_result' cfg session auth_headers endpoint w) as [inserted|]; simpl; lia.
Qed.

Abbreviation run' :=
  (run urlparse_hostname urljoin default_headers session_get MongoClient
     get_collection insert_many logger transform_step write_debug_json_step).

(** With a resolved configuration [run] ends normally and reports the sum. *)
Lemma run_reports_total (env : gmap str str) (cfg : Config) (w : W) :
  load_config urlparse_hostname env = Ok cfg ->
  let session := build_session_with_retries default_headers in
  let auth_headers :=
    build_auth_headers (api_key cfg) (api_auth_header cfg) (api_auth_prefix cfg) in
  run' env w
  = (Ok tt,
     logger (LogDone (sum_counts (inserted_counts' cfg session auth_headers
                                    (api_endpoints cfg) w)))
            (world_after_endpoints' cfg session auth_headers (api_endpoints cfg) w)).
Proof.
  intros Hcfg session auth_headers.
  unfold run, bind, lift_outcome. rewrite Hcfg.
  unfold run_endpoints. rewrite run_endpoints_total. reflexivity.
Qed.

(** C2. Whatever the steps do, one pass of the loop catches what they
    raise, so the loop reaches every endpoint and [run] ends normally; the
    total it reports is the sum of the counts returned by the loads that
    returned.  In particular, with two endpoints of which the first fails
    with an [HTTPError] in [extract] and the second loads 3 records, the
    reported total is 3. *)
Theorem C2_endpoint_failures_are_isolated (env : gmap str str) (cfg : Config) (w : W) :
  load_config urlparse_hostname env = Ok cfg ->
  let session := build_session_with_retries default_headers in
  let auth_headers :=
    build_auth_headers (api_key cfg) (api_auth_header cfg) (api_auth_prefix cfg) in
  (forall endpoint total_inserted w0,
      exists w1 added,
        try_except (process_endpoint' cfg session auth_headers endpoint)
                   (endpoint_failed logger endpoint) (total_inserted, w0)
        = (Ok tt, (total_inserted + added, w1))
        /\ added = default 0 (load_result' cfg session auth_headers endpoint w0))
  /\ (exists w',
        run' env w
        = (Ok tt,
           logger (LogDone (sum_counts (inserted_counts' cfg session auth_headers
                                          (api_endpoints cfg) w))) w'))
  /\ (forall e1 e2 status_code w1,
        api_endpoints cfg = [e1; e2] ->
        extract urljoin (session_get session) logger (api_base_url cfg) e1
                auth_headers w
        = (Raise (HTTPError status_code), w1) ->
        load_result' cfg session auth_headers e2
          (world_after_endpoint' cfg session auth_headers e1 w) = Some 3 ->
        exists w', run' env w = (Ok tt, logger (LogDone 3) w')).
Proof.
  intros Hcfg session auth_headers. split; [|split].
  - intros endpoint total_inserted w0. eexists _, _.
    split; [apply endpoint_pass | reflexivity].
  - eexists. now apply run_reports_total.
  - intros e1 e2 status_code w1 Hendpoints Hextract Hload.
    eexists. rewrite (run_reports_total env cfg w Hcfg).
    fold session auth_headers. rewrite Hendpoints. simpl.
    rewrite Hload. unfold load_result. fold session auth_headers.
    rewrite Hextract. simpl. reflexivity.
Qed.
End RunFacts.

Lemma C2_endpoint_failures_are_isolated_witness :
  exists w', demo_run demo_start = (Ok tt, demo_logger (LogDone 3) w').
Proof.
  destruct (load_config demo_urlparse_hostname demo_env) as [cfg|e] eqn:Hcfg;
    [|vm_compute in Hcfg; discriminate].
  destruct (C2_endpoint_failures_are_isolated demo_urlparse_hostname demo_urljoin ∅
              demo_session_get (fun _ => ret tt) (fun _ _ _ => ret tt) demo_insert_many
              demo_logger demo_transform demo_write_debug_json
              demo_env cfg demo_start Hcfg) as (_ & _ & H).
  assert (Hc : Ok cfg = load_config demo_urlparse_hostname demo_env) by (now rewrite Hcfg).
  vm_compute in Hc. injection Hc as ->.
  eapply (H (py "broken") (py "posts") 500).
  - vm_compute. reflexivity.
  - vm_compute. reflexivity.
  - vm_compute. reflexivity.
Defined.

Example demo_run_log :
  let '(r, w) := demo_run demo_start in
  r = Ok tt
  /\ last (demo_log w) = Some (LogDone 3)
  /\ LogEndpointFailed (py "broken") (HTTPError 500) ∈ demo_log w
  /\ Pymongo.stored (demo_db w) = [inl 1; inl 2; inl 3].
Proof.
  vm_compute. repeat split.
  apply list_elem_of_further, list_elem_of_further, list_elem_of_here.
Qed.

(** ** The theorems on the sample world *)

Lemma C8_collection_name_nonempty_witness :
  exists cfg,
    load_config demo_urlparse_hostname demo_env = Ok cfg
    /\ mongo_collection cfg <> []
    /\ mongo_collection cfg = py "api_example_com_raw".
Proof.
  destruct (C8_collection_name_nonempty demo_urlparse_hostname demo_env) as [Hok _].
  destruct (Hok (Some (py "api.example.com")) eq_refl)
    as (cfg & Hcfg & Hne & _ & Hdefault & Hhost & _).
  exists cfg. split; [exact Hcfg|]. split; [exact Hne|].
  rewrite Hdefault by (left; vm_compute; reflexivity).
  rewrite (Hhost (py "api.example.com")) by (reflexivity || discriminate).
  vm_compute. reflexivity.
Defined.

Lemma C10_record_count_is_length_witness :
  exists meta w',
    extract demo_urljoin (demo_session_get (build_session_with_retries ∅)) demo_logger
            (py "https://api.example.com") (py "posts") ∅ demo_start
    = (Ok (ensure_list_payload demo_posts, meta), w')
    /\ record_count meta = 3.
Proof.
  destruct (C10_record_count_is_length demo_urljoin
              (demo_session_get (build_session_with_retries ∅)) demo_logger
              (py "https://api.example.com") (py "posts") ∅ demo_start) as [_ H].
  destruct (H (py "https://api.example.com/posts")
              (mkResponse 200 (fun _ => None) (py "[...]") (Ok demo_posts))
              demo_posts
              (demo_logger (LogFetching (py "https://api.example.com/posts")) demo_start))
    as (meta & w' & Hrun & Hcount).
  - vm_compute. reflexivity.
  - vm_compute. reflexivity.
  - reflexivity.
  - reflexivity.
  - exists meta, w'. split; [exact Hrun|]. rewrite Hcount. reflexivity.
Defined.

(* ================================================================== *)
(** * Further properties of the module *)
(* ================================================================== *)

(** ** What stripping leaves *)

Lemma lstrip_by_suffix (p : N -> bool) (s : str) :
  exists removed, s = removed ++ lstrip_by p s /\ Forall (fun c => p c = true) removed.
Proof.
  induction s as [|c s IH]; simpl.
  - exists []. split; [reflexivity|constructor].
  - destruct (p c) eqn:Hc.
    + destruct IH as (removed & Hs & Hall). exists (c :: removed). split.
      * simpl. now rewrite <- Hs.
      * now constructor.
    + exists []. split; [reflexivity|constructor].
Qed.

Lemma lstrip_by_head (p : N -> bool) (s : str) (c : N) :
  head (lstrip_by p s) = Some c -> p c = false.
Proof.
  induction s as [|a s IH]; simpl; [discriminate|].
  destruct (p a) eqn:Ha; [exact IH|].
  simpl. intros H. injection H as <-. exact Ha.
Qed.

Lemma rstrip_by_prefix (p : N -> bool) (s : str) :
  exists removed, s = rstrip_by p s ++ removed /\ Forall (fun c => p c = true) removed.
Proof.
  unfold rstrip_by.
  destruct (lstrip_by_suffix p (reverse s)) as (removed & Hs & Hall).
  exists (reverse removed). split.
  - rewrite <- reverse_app, <- Hs. now rewrite reverse_involutive.
  - now apply Forall_reverse.
Qed.

Lemma rstrip_by_last (p : N -> bool) (s : str) (c : N) :
  last (rstrip_by p s) = Some c -> p c = false.
Proof.
  unfold rstrip_by. rewrite last_reverse. apply lstrip_by_head.
Qed.

(** The last character survives [lstrip], the first survives [rstrip]. *)
Lemma lstrip_by_last (p : N -> bool) (s : str) (c : N) :
  last (lstrip_by p s) = Some c -> last s = Some c.
Proof.
  destruct (lstrip_by_suffix p s) as (removed & Hs & _).
  intros Hlast. rewrite Hs, last_app, Hlast. reflexivity.
Qed.

Lemma rstrip_by_head (p : N -> bool) (s : str) (c : N) :
  head (rstrip_by p s) = Some c -> head s = Some c.
Proof.
  destruct (rstrip_by_prefix p s) as (removed & Hs & _).
  intros Hhead. rewrite Hs. destruct (rstrip_by p s); [discriminate|exact Hhead].
Qed.

(** [strip] returns a string with no whitespace at either end. *)
Lemma strip_ends (s : str) :
  (forall c, head (strip s) = Some c -> is_space c = false)
  /\ (forall c, last (strip s) = Some c -> is_space c = false).
Proof.
  unfold strip. split; intros c H.
  - apply rstrip_by_head in H. now apply lstrip_by_head in H.
  - now apply rstrip_by_last in H.
Qed.

(** Characters are only removed, never added or reordered. *)
Lemma lstrip_by_elem (p : N -> bool) (s : str) (c : N) :
  c ∈ lstrip_by p s -> c ∈ s.
Proof.
  destruct (lstrip_by_suffix p s) as (removed & Hs & _).
  intros Hc. rewrite Hs. apply elem_of_app. now right.
Qed.

Lemma rstrip_by_elem (p : N -> bool) (s : str) (c : N) :
  c ∈ rstrip_by p s -> c ∈ s.
Proof.
  destruct (rstrip_by_prefix p s) as (removed & Hs & _).
  intros Hc. rewrite Hs. apply elem_of_app. now left.
Qed.

Lemma strip_elem (s : str) (c : N) : c ∈ strip s -> c ∈ s.
Proof. unfold strip. intros H. now apply rstrip_by_elem, lstrip_by_elem in H. Qed.

(** The fields [split] returns do not contain the separator. *)
Lemma split_fields_no_sep (sep : N) (s field : str) :
  field ∈ split sep s -> sep ∉ field.
Proof.
  revert field. induction s as [|c s IH]; simpl; intros field Hin.
  - apply list_elem_of_singleton in Hin as ->. apply not_elem_of_nil.
  - destruct (c =? sep)%N eqn:Hc.
    + apply elem_of_cons in Hin as [->|Hin]; [apply not_elem_of_nil | now apply IH].
    + apply N.eqb_neq in Hc. destruct (split sep s) as [|w ws] eqn:Hsplit.
      * apply list_elem_of_singleton in Hin as ->.
        intros [->|Hn]%elem_of_cons; [congruence | now apply not_elem_of_nil in Hn].
      * apply elem_of_cons in Hin as [->|Hin].
        -- intros [->|Hw]%elem_of_cons; [congruence|].
           apply (IH w); [apply list_elem_of_here | exact Hw].
        -- apply IH. now apply list_elem_of_further.
Qed.

(** ** Configuration *)

(** X1. Every endpoint [load_config] produces is free of the characters the
    parsing is there to remove: it does not begin with a slash, it does not
    end with whitespace, and it contains no comma. *)
Theorem X1_endpoints_are_normalized (csv endpoint : str) :
  endpoint ∈ parse_endpoints csv ->
  head endpoint <> Some slash
  /\ (forall c, last endpoint = Some c -> is_space c = false)
  /\ comma ∉ endpoint.
Proof.
  rewrite parse_endpoints_fields.
  intros (field & -> & [_ Hfield]%list_elem_of_filter)%list_elem_of_fmap.
  split; [|split].
  - intros Hhead. apply lstrip_by_head in Hhead. vm_compute in Hhead. discriminate.
  - intros c Hlast. apply lstrip_by_last in Hlast. now apply strip_ends in Hlast.
  - intros Hcomma. apply lstrip_by_elem, strip_elem in Hcomma.
    now apply (split_fields_no_sep comma csv field).
Qed.

Lemma X1_endpoints_are_normalized_witness :
  head (py "comments") <> Some slash /\ comma ∉ py "comments".
Proof.
  destruct (X1_endpoints_are_normalized (py " posts, /comments ,,users ") (py "comments"))
    as (H1 & _ & H3).
  - vm_compute. apply list_elem_of_further, list_elem_of_here.
  - split; assumption.
Defined.

(** The number of endpoints never exceeds the number of comma-separated
    fields, and a list of blank fields gives no endpoint at all. *)
Lemma parse_endpoints_blank (csv : str) :
  (forall field, field ∈ split comma csv -> strip field = []) ->
  parse_endpoints csv = [].
Proof.
  intros Hblank. rewrite parse_endpoints_fields.
  induction (split comma csv) as [|f fs IH]; [reflexivity|].
  rewrite filter_cons_False.
  - apply IH. intros field Hin. apply Hblank. now apply list_elem_of_further.
  - intros Hkeep. apply Hkeep, Hblank, list_elem_of_here.
Qed.

(** X2. In every configuration [load_config] returns, the base URL does not
    end with a slash, so the URL handed to [urljoin], the base URL followed
    by one slash, ends with exactly one; and the connector name contains no
    dot, nor does the collection name derived from it. *)
Theorem X2_config_is_normalized
    (urlparse_hostname : str -> outcome (option str))
    (env : gmap str str) (cfg : Config) :
  load_config urlparse_hostname env = Ok cfg ->
  last (api_base_url cfg) <> Some slash
  /\ api_endpoints cfg
     = parse_endpoints (getenv env "API_ENDPOINTS" "posts,comments,users")
  /\ (dot ∉ connector_name cfg)
  /\ (env !! py "MONGO_COLLECTION" = None -> dot ∉ mongo_collection cfg).
Proof.
  unfold load_config.
  destruct (urlparse_hostname _) as [hostname|e]; [|discriminate].
  intros Hcfg. injection Hcfg as <-. cbn [api_base_url api_endpoints connector_name mongo_collection].
  assert (Hname : dot ∉ match hostname with
                        | Some h => if truthy h then replace_char dot underscore h
                                    else py "connector"
                        | None => py "connector"
                        end).
  { assert (Hconst : dot ∉ py "connector").
    { intros Hin. vm_compute in Hin. repeat (apply elem_of_cons in Hin as [Hin|Hin];
        [discriminate|]). now apply not_elem_of_nil in Hin. }
    destruct hostname as [h|]; [|exact Hconst].
    destruct (truthy h); [|exact Hconst].
    unfold replace_char. intros (c & Hc & _)%list_elem_of_fmap.
    destruct (c =? dot)%N eqn:Heq; [discriminate|].
    apply N.eqb_neq in Heq. congruence. }
  split; [|split; [reflexivity|split; [exact Hname|]]].
  - intros Hlast. apply rstrip_by_last in Hlast. vm_compute in Hlast. discriminate.
  - intros Hunset. unfold getenv at 1. rewrite Hunset. simpl.
    intros [Hin|Hin]%elem_of_app; [now apply Hname|].
    vm_compute in Hin. repeat (apply elem_of_cons in Hin as [Hin|Hin]; [discriminate|]).
    now apply not_elem_of_nil in Hin.
Qed.

Lemma X2_config_is_normalized_witness :
  exists cfg,
    load_config demo_urlparse_hostname demo_env = Ok cfg
    /\ last (api_base_url cfg) <> Some slash
    /\ dot ∉ mongo_collection cfg.
Proof.
  destruct (load_config demo_urlparse_hostname demo_env) as [cfg|e] eqn:Hcfg;
    [|vm_compute in Hcfg; discriminate].
  destruct (X2_config_is_normalized demo_urlparse_hostname demo_env cfg Hcfg)
    as (Hurl & _ & _ & Hcoll).
  exists cfg. split; [reflexivity|]. split; [exact Hurl|].
  apply Hcoll. reflexivity.
Defined.

(** ** Auth header *)

(** Whitespace at the end of a string does not survive [strip]. *)
Lemma rstrip_by_app_removed (p : N -> bool) (s removed : str) :
  Forall (fun c => p c = true) removed -> rstrip_by p (s ++ removed) = rstrip_by p s.
Proof.
  intros Hall. unfold rstrip_by. rewrite reverse_app. f_equal.
  apply Forall_reverse in Hall.
  induction (reverse removed) as [|c r IH]; [reflexivity|].
  simpl. inversion Hall as [|? ? Hc Hr]; subst. rewrite Hc. now apply IH.
Qed.

Lemma lstrip_by_app (p : N -> bool) (s t : str) (c : N) :
  c ∈ s -> p c = false -> lstrip_by p (s ++ t) = lstrip_by p s ++ t.
Proof.
  induction s as [|a s IH]; intros Hin Hc; [now apply not_elem_of_nil in Hin|].
  simpl. destruct (p a) eqn:Ha; [|reflexivity].
  apply elem_of_cons in Hin as [->|Hin]; [congruence|]. now apply IH.
Qed.

(** X3. The header mapping has no entry but [header_name], and only for a
    non-empty key.  When a prefix is configured the value neither begins nor
    ends with whitespace; and a key made only of whitespace, which counts as
    present, contributes nothing: the header then carries the stripped
    prefix alone. *)
Theorem X3_auth_header_shape (api_key header_name prefix : str) :
  (forall name value,
      build_auth_headers api_key header_name prefix !! name = Some value ->
      name = header_name /\ api_key <> []
      /\ (prefix <> [] ->
          (forall c, head value = Some c -> is_space c = false)
          /\ (forall c, last value = Some c -> is_space c = false)))
  /\ (api_key <> [] -> Forall (fun c => is_space c = true) api_key ->
      forall c, c ∈ prefix -> is_space c = false ->
      build_auth_headers api_key header_name prefix
      = {[ header_name := strip prefix ]}).
Proof.
  split.
  - intros name value Hlookup.
    destruct api_key as [|k key]; [now rewrite build_auth_headers_no_key in Hlookup|].
    destruct prefix as [|a prefix].
    + rewrite build_auth_headers_bare_key in Hlookup by discriminate.
      apply lookup_singleton_Some in Hlookup as [<- <-].
      split; [reflexivity|]. split; [discriminate|]. intros H. now destruct H.
    + rewrite build_auth_headers_prefixed in Hlookup by discriminate.
      apply lookup_singleton_Some in Hlookup as [<- <-].
      split; [reflexivity|]. split; [discriminate|]. intros _. apply strip_ends.
  - intros Hkey Hblank c Hc Hspace.
    assert (Hprefix : prefix <> []) by (intros ->; now apply not_elem_of_nil in Hc).
    rewrite build_auth_headers_prefixed by assumption. f_equal.
    unfold strip.
    rewrite (lstrip_by_app is_space prefix _ c Hc Hspace).
    rewrite rstrip_by_app_removed; [reflexivity|].
    apply Forall_app. split; [|exact Hblank].
    repeat constructor.
Qed.

Lemma X3_auth_header_shape_witness :
  build_auth_headers (py " ") (py "Authorization") (py "Bearer")
  = {[ py "Authorization" := strip (py "Bearer") ]}.
Proof.
  destruct (X3_auth_header_shape (py " ") (py "Authorization") (py "Bearer")) as [_ H].
  apply (H ltac:(discriminate) ltac:(repeat constructor) 66%N).
  - apply list_elem_of_here.
  - reflexivity.
Defined.

(** ** Session headers *)

(** X4. Whatever headers a new session starts with, the session the module
    builds sends [Accept: application/json], [Content-Type:
    application/json] and [User-Agent: etl-connector/1.0], and every header
    whose name is not one of these three (in any letter case) is the
    session's default. *)
Theorem X4_session_headers (default_headers : gmap str str) :
  let session := build_session_with_retries default_headers in
  headers session !! py "Accept" = Some (py "application/json")
  /\ headers session !! py "Content-Type" = Some (py "application/json")
  /\ headers session !! py "User-Agent" = Some (py "etl-connector/1.0")
  /\ forall name,
       Urllib3.upper name ∉ [py "ACCEPT"; py "CONTENT-TYPE"; py "USER-AGENT"] ->
       headers session !! name = default_headers !! name.
Proof.
  cbv zeta. unfold build_session_with_retries. cbn [headers].
  split; [|split; [|split]].
  - rewrite !lookup_insert_ne by (vm_compute; discriminate). apply lookup_insert_eq.
  - rewrite lookup_insert_ne by (vm_compute; discriminate). apply lookup_insert_eq.
  - apply lookup_insert_eq.
  - intros name Hname.
    rewrite !lookup_insert_ne; [reflexivity| | |];
      intros <-; apply Hname; vm_compute.
    + apply list_elem_of_here.
    + apply list_elem_of_further, list_elem_of_here.
    + apply list_elem_of_further, list_elem_of_further, list_elem_of_here.
Qed.

Lemma X4_session_headers_witness :
  headers (build_session_with_retries {[ py "Connection" := py "keep-alive" ]})
    !! py "Connection" = Some (py "keep-alive").
Proof.
  destruct (X4_session_headers {[ py "Connection" := py "keep-alive" ]}) as (_ & _ & _ & H).
  rewrite H; [reflexivity|].
  vm_compute. intros Hin.
  repeat (apply elem_of_cons in Hin as [Hin|Hin]; [discriminate|]).
  now apply not_elem_of_nil in Hin.
Defined.

(** ** [extract]: every way out *)

Section ExtractOutcomes.
Context {W : Type}.
Variable urljoin : str -> str -> outcome str.
Variable session_get : str -> gmap str str -> Z -> M W Response.
Variable logger : LogRecord -> W -> W.

(** X5. [extract] returns records exactly when the URL joins, the request
    comes back with a response whose status is not in 400..599, and the body
    parses; the result is then the normalized body with the response's
    status, the joined URL and the record count.  The status test is the
    only one: a 204 or a 304, or a 600, counts as success. *)
Theorem X5_extract_returns_iff (base_url endpoint : str) (auth_headers : gmap str str)
    (records : list pyval) (meta : Meta) (w w' : W) :
  extract urljoin session_get logger base_url endpoint auth_headers w
  = (Ok (records, meta), w')
  <-> exists url response data w1,
        urljoin (base_url ++ py "/") endpoint = Ok url
        /\ session_get url auth_headers 30 (logger (LogFetching url) w) = (Ok response, w1)
        /\ (status_code response < 400 \/ 600 <= status_code response)
        /\ json response = Ok data
        /\ records = ensure_list_payload data
        /\ meta = mkMeta (status_code response) url (Z.of_nat (length records))
        /\ w' = after_response logger response w1.
Proof.
  split.
  - intros Hrun.
    destruct (extract_inversion urljoin session_get logger base_url endpoint auth_headers
                records meta w w' Hrun)
      as (url & response & data & w1 & Hurl & Hget & Hok & Hjson & Hrecords & Hmeta).
    exists url, response, data, w1. repeat split; try assumption.
    + unfold ok, is_error_status in Hok. apply negb_true_iff, andb_false_iff in Hok.
      destruct Hok as [H|H]; [left; apply Z.leb_gt in H | right; apply Z.ltb_ge in H]; lia.
    + rewrite (extract_returns urljoin session_get logger base_url endpoint url
                 auth_headers response data w w1 Hurl Hget Hok Hjson) in Hrun.
      congruence.
  - intros (url & response & data & w1 & Hurl & Hget & Hstatus & Hjson & -> & -> & ->).
    apply extract_returns; try assumption.
    unfold ok, is_error_status. apply negb_true_iff, andb_false_iff.
    destruct Hstatus; [left; apply Z.leb_gt | right; apply Z.ltb_ge]; lia.
Qed.

(** X6. A response with a status in 400..599 makes [extract] raise
    [HTTPError] with that status, whether or not its body is JSON: the body
    is not parsed.  The error record logged last holds at most the first 500
    characters of the body; a 429 has the rate-limit warning logged before
    it. *)
Theorem X6_extract_error_status (base_url endpoint url : str)
    (auth_headers : gmap str str) (response : Response) (w w1 : W) :
  urljoin (base_url ++ py "/") endpoint = Ok url ->
  session_get url auth_headers 30 (logger (LogFetching url) w) = (Ok response, w1) ->
  400 <= status_code response < 600 ->
  extract urljoin session_get logger base_url endpoint auth_headers w
  = (Raise (HTTPError (status_code response)),
     logger (LogHttpError (status_code response) url (take 500 (text response)))
            (after_response logger response w1))
  /\ (length (take 500 (text response)) <= 500)%nat
  /\ (status_code response = 429 ->
      after_response logger response w1
      = logger (LogRateLimited (header_get response (py "Retry-After"))) w1).
Proof.
  intros Hurl Hget Hstatus.
  assert (Herr : is_error_status (status_code response) = true).
  { unfold is_error_status. apply andb_true_iff.
    split; [apply Z.leb_le | apply Z.ltb_lt]; lia. }
  split; [|split].
  - unfold extract, bind, lift_outcome, modify, after_response, ok, raise_for_status.
    rewrite Hurl, Hget, Herr. simpl.
    destruct (status_code response =? 429); reflexivity.
  - rewrite length_take. lia.
  - intros H429. unfold after_response. now rewrite H429.
Qed.

(** X7. The three other failures leave [extract] as the exception that
    caused them: a URL that does not join (nothing is logged or sent), a
    request that raises (only the fetch is logged), and a body that does not
    parse (the parse failure is logged, then the parser's exception
    re-raised). *)
Theorem X7_extract_propagates (base_url endpoint : str) (auth_headers : gmap str str)
    (w : W) :
  (forall e, urljoin (base_url ++ py "/") endpoint = Raise e ->
     extract urljoin session_get logger base_url endpoint auth_headers w = (Raise e, w))
  /\ (forall url e w1,
       urljoin (base_url ++ py "/") endpoint = Ok url ->
       session_get url auth_headers 30 (logger (LogFetching url) w) = (Raise e, w1) ->
       extract urljoin session_get logger base_url endpoint auth_headers w = (Raise e, w1))
  /\ (forall url response e w1,
       urljoin (base_url ++ py "/") endpoint = Ok url ->
       session_get url auth_headers 30 (logger (LogFetching url) w) = (Ok response, w1) ->
       ok response = true ->
       json response = Raise e ->
       extract urljoin session_get logger base_url endpoint auth_headers w
       = (Raise e, logger (LogParseFailure url e) (after_response logger response w1))).
Proof.
  split; [|split].
  - intros e Hurl. unfold extract, bind, lift_outcome. now rewrite Hurl.
  - intros url e w1 Hurl Hget. unfold extract, bind, lift_outcome, modify.
    now rewrite Hurl, Hget.
  - intros url response e w1 Hurl Hget Hok Hjson.
    unfold extract, bind, lift_outcome, modify, after_response.
    rewrite Hurl, Hget, Hok, Hjson. simpl.
    destruct (status_code response =? 429); reflexivity.
Qed.
End ExtractOutcomes.

Lemma X6_extract_error_status_witness :
  fst (extract demo_urljoin (demo_session_get (build_session_with_retries ∅)) demo_logger
         (py "https://api.example.com") (py "broken") ∅ demo_start)
  = Raise (HTTPError 500).
Proof.
  destruct (X6_extract_error_status demo_urljoin
              (demo_session_get (build_session_with_retries ∅)) demo_logger
              (py "https://api.example.com") (py "broken")
              (py "https://api.example.com/broken") ∅
              (mkResponse 500 (fun _ => None) (py "Internal Server Error")
                          (Raise JSONDecodeError))
              demo_start
              (demo_logger (LogFetching (py "https://api.example.com/broken")) demo_start))
    as [Hrun _].
  - vm_compute. reflexivity.
  - vm_compute. reflexivity.
  - simpl. lia.
  - rewrite Hrun. reflexivity.
Defined.

Lemma X7_extract_propagates_witness :
  extract (fun _ _ => Raise (ValueError "Invalid IPv6 URL"))
          (demo_session_get (build_session_with_retries ∅)) demo_logger
          (py "https://[::1") (py "posts") ∅ demo_start
  = (Raise (ValueError "Invalid IPv6 URL"), demo_start).
Proof.
  destruct (X7_extract_propagates (fun _ _ => Raise (ValueError "Invalid IPv6 URL"))
              (demo_session_get (build_session_with_retries ∅)) demo_logger
              (py "https://[::1") (py "posts") ∅ demo_start) as [H _].
  apply H. reflexivity.
Defined.

(** ** [load_to_mongo]: edges *)

(** X8. With no documents [load_to_mongo] returns 0 without calling the
    driver: the world is as it was, whatever the driver would have done.
    With documents, a failure to build the client or the collection handle
    is raised as it is and no insert is attempted. *)
Theorem X8_load_skips_or_propagates :
  forall (W Doc Id Client Collection : Type)
         (MongoClient : str -> M W Client)
         (get_collection : Client -> str -> str -> M W Collection)
         (insert_many : Collection -> list Doc -> bool -> M W (InsertManyResult Id))
         (uri db coll : str) (w : W),
    load_to_mongo MongoClient get_collection insert_many uri db coll [] w = (Ok 0, w)
    /\ (forall documents e w1,
          documents <> [] -> MongoClient uri w = (Raise e, w1) ->
          load_to_mongo MongoClient get_collection insert_many uri db coll documents w
          = (Raise e, w1))
    /\ (forall documents client e w1 w2,
          documents <> [] -> MongoClient uri w = (Ok client, w1) ->
          get_collection client db coll w1 = (Raise e, w2) ->
          load_to_mongo MongoClient get_collection insert_many uri db coll documents w
          = (Raise e, w2)).
Proof.
  intros. split; [reflexivity|]. split.
  - intros documents e w1 Hne Hclient. destruct documents; [contradiction|].
    unfold load_to_mongo, bind. now rewrite Hclient.
  - intros documents client e w1 w2 Hne Hclient Hcoll. destruct documents; [contradiction|].
    unfold load_to_mongo, bind. now rewrite Hclient, Hcoll.
Qed.

Lemma X8_load_skips_or_propagates_witness :
  load_to_mongo (fun _ : str => raise (ValueError "Invalid URI scheme"))
    (fun (_ : unit) _ _ => ret tt)
    (fun (_ : unit) docs ordered => Pymongo.insert_many int_id docs ordered)
    (py "localhost") (py "etl_db") (py "posts_raw") [sample_doc 1 "a"] empty_server
  = (Raise (ValueError "Invalid URI scheme"), empty_server).
Proof.
  destruct (X8_load_skips_or_propagates _ _ _ _ _
              (fun _ : str => raise (ValueError "Invalid URI scheme"))
              (fun (_ : unit) _ _ => ret tt)
              (fun (_ : unit) docs ordered => Pymongo.insert_many int_id docs ordered)
              (py "localhost") (py "etl_db") (py "posts_raw") empty_server)
    as (_ & H & _).
  apply H; [discriminate|reflexivity].
Defined.

Section PymongoAccounting.
Context {Doc K : Type} `{EqDecision K}.
Variable given_id : Doc -> option K.

(** Every id of an unordered batch is either written or reported. *)
Lemma write_batch_unordered_accounts (batch : list (Pymongo.id (K := K))) :
  forall (index : nat) (present : list Pymongo.id),
    let result := Pymongo.write_batch false index batch present in
    exists written,
      fst result = present ++ written
      /\ (length written + length (snd result) = length batch)%nat
      /\ (forall j, j ∈ snd result -> (index <= j < index + length batch)%nat).
Proof.
  induction batch as [|i rest IH]; intros index present; simpl.
  - exists []. rewrite app_nil_r. split; [reflexivity|]. split; [reflexivity|].
    intros j Hj. now apply not_elem_of_nil in Hj.
  - destruct (bool_decide (i ∈ present)).
    + specialize (IH (S index) present).
      destruct (Pymongo.write_batch false (S index) rest present) as [present' errs].
      simpl in *. destruct IH as (written & Hp & Hlen & Hidx).
      exists written. split; [exact Hp|]. split; [lia|].
      intros j [->|Hj]%elem_of_cons; [lia|]. specialize (Hidx j Hj). lia.
    + specialize (IH (S index) (present ++ [i])).
      destruct (Pymongo.write_batch false (S index) rest (present ++ [i]))
        as [present' errs].
      simpl in *. destruct IH as (written & Hp & Hlen & Hidx).
      exists (i :: written). split; [now rewrite Hp, <- app_assoc|].
      split; [simpl; lia|].
      intros j Hj. specialize (Hidx j Hj). lia.
Qed.

(** X9. Against a reachable collection, the documents written and the
    documents reported as failed add up to the documents sent: when the
    loader returns, its count is the number of documents and the collection
    has grown by as many; when it raises [BulkWriteError], [nInserted] is
    the number by which the collection has grown, and [nInserted] plus the
    number of write errors is the number of documents. *)
Theorem X9_load_accounts_for_every_document (uri db coll : str)
    (documents : list Doc) (srv : Pymongo.server) :
  documents <> [] -> Pymongo.reachable srv = true ->
  exists srv' written,
    Pymongo.stored srv' = Pymongo.stored srv ++ written
    /\ (pymongo_load_to_mongo given_id uri db coll documents srv
        = (Ok (Z.of_nat (length documents)), srv')
        /\ length written = length documents
        \/ exists errs,
             errs <> []
             /\ pymongo_load_to_mongo given_id uri db coll documents srv
                = (Raise (BulkWriteError (length written) errs), srv')
             /\ (length written + length errs = length documents)%nat).
Proof.
  intros Hne Hreach. destruct documents as [|d ds]; [contradiction|].
  unfold pymongo_load_to_mongo, load_to_mongo, bind, ret.
  unfold Pymongo.insert_many. rewrite Hreach.
  rewrite bool_decide_eq_false_2 by discriminate. simpl negb. cbv iota.
  pose proof (assign_ids_length given_id (d :: ds) (Pymongo.next_oid srv)) as Hlen.
  destruct (Pymongo.assign_ids given_id (d :: ds) (Pymongo.next_oid srv))
    as [ids oid'] eqn:Hids.
  pose proof (write_batch_unordered_accounts ids 0 (Pymongo.stored srv)) as Hacc.
  destruct (Pymongo.write_batch false 0 ids (Pymongo.stored srv)) as [present' errs].
  simpl in Hacc, Hlen. destruct Hacc as (written & -> & Hsum & _).
  exists (Pymongo.mkServer true (Pymongo.stored srv ++ written) oid'), written.
  split; [reflexivity|].
  destruct errs as [|err errs].
  - left. simpl in *. split; [now rewrite Hlen | lia].
  - right. exists (err :: errs). split; [discriminate|]. split.
    + simpl. do 3 f_equal. rewrite length_app. lia.
    + simpl in *. lia.
Qed.
End PymongoAccounting.

Lemma X9_load_accounts_for_every_document_witness :
  exists srv' written,
    Pymongo.stored srv' = Pymongo.stored empty_server ++ written
    /\ (pymongo_load_to_mongo int_id (py "mongodb://localhost:27017") (py "etl_db")
          (py "posts_raw") [sample_doc 1 "a"; sample_doc 1 "b"] empty_server
        = (Ok (Z.of_nat (length [sample_doc 1 "a"; sample_doc 1 "b"])), srv')
        /\ length written = length [sample_doc 1 "a"; sample_doc 1 "b"]
        \/ exists errs,
             errs <> []
             /\ pymongo_load_to_mongo int_id (py "mongodb://localhost:27017") (py "etl_db")
                  (py "posts_raw") [sample_doc 1 "a"; sample_doc 1 "b"] empty_server
                = (Raise (BulkWriteError (length written) errs), srv')
             /\ (length written + length errs
                 = length [sample_doc 1 "a"; sample_doc 1 "b"])%nat).
Proof.
  apply (X9_load_accounts_for_every_document int_id).
  - discriminate.
  - reflexivity.
Defined.

Section PymongoReruns.
Context {Doc K : Type} `{EqDecision K}.
Variable given_id : Doc -> option K.

Lemma assign_ids_generated (documents : list Doc) (oid : nat) :
  (forall d, d ∈ documents -> given_id d = None) ->
  Pymongo.assign_ids given_id documents oid
  = (inr <$> seq oid (length documents), (oid + length documents)%nat).
Proof.
  revert oid. induction documents as [|d ds IH]; intros oid Hnone; simpl.
  - f_equal. lia.
  - rewrite (Hnone d) by apply list_elem_of_here.
    rewrite IH by (intros d' Hd'; apply Hnone; now apply list_elem_of_further).
    f_equal. lia.
Qed.


Lemma assign_ids_given (documents : list Doc) (oid : nat) :
  (forall d, d ∈ documents -> is_Some (given_id d)) ->
  exists ids : list (Pymongo.id (K := K)),
    (forall oid', Pymongo.assign_ids given_id documents oid' = (ids, oid'))
    /\ length ids = length documents.
Proof.
  induction documents as [|d ds IH]; intros Hsome.
  - exists []. split; [reflexivity|reflexivity].
  - destruct (Hsome d) as [k Hk]; [apply list_elem_of_here|].
    destruct IH as (ids & Hids & Hlen);
      [intros d' Hd'; apply Hsome; now apply list_elem_of_further|].
    exists (inl k :: ids). split.
    + intros oid'. simpl. now rewrite Hk, Hids.
    + simpl. now rewrite Hlen.
Qed.

Lemma write_batch_all_present (batch : list (Pymongo.id (K := K))) :
  forall (index : nat) (present : list Pymongo.id),
    (forall i, i ∈ batch -> i ∈ present) ->
    Pymongo.write_batch false index batch present = (present, seq index (length batch)).
Proof.
  induction batch as [|i rest IH]; intros index present Hall; simpl; [reflexivity|].
  rewrite bool_decide_eq_true_2 by (apply Hall, list_elem_of_here).
  rewrite IH by (intros j Hj; apply Hall; now apply list_elem_of_further).
  reflexivity.
Qed.

(** X11. Loading is not repeatable for documents that carry their own
    [_id]: once a batch of such documents has been sent to a reachable
    collection, whether that load returned or raised, sending the same batch
    again writes nothing and raises [BulkWriteError] with [nInserted = 0]
    and one write error per document. *)
Theorem X11_reloading_documents_with_id_fails (uri db coll : str)
    (documents : list Doc) (srv : Pymongo.server) :
  documents <> [] -> Pymongo.reachable srv = true ->
  (forall d, d ∈ documents -> is_Some (given_id d)) ->
  let srv1 := snd (pymongo_load_to_mongo given_id uri db coll documents srv) in
  pymongo_load_to_mongo given_id uri db coll documents srv1
  = (Raise (BulkWriteError 0 (seq 0 (length documents))), srv1).
Proof.
  intros Hne Hreach Hsome. destruct documents as [|d ds]; [contradiction|].
  destruct (assign_ids_given (d :: ds) (Pymongo.next_oid srv) Hsome) as (ids & Hids & Hlen).
  assert (Hfirst : exists present',
             snd (pymongo_load_to_mongo given_id uri db coll (d :: ds) srv)
             = Pymongo.mkServer true present' (Pymongo.next_oid srv)
             /\ forall i, i ∈ ids -> i ∈ present').
  { unfold pymongo_load_to_mongo, load_to_mongo, bind, ret.
    unfold Pymongo.insert_many. rewrite Hreach.
    rewrite bool_decide_eq_false_2 by discriminate. simpl negb. cbv iota.
    rewrite Hids.
    pose proof (write_batch_unordered_attempts_all ids 0 (Pymongo.stored srv)) as Hall.
    destruct (Pymongo.write_batch false 0 ids (Pymongo.stored srv)) as [present' errs].
    simpl in Hall. destruct Hall as [_ Hall].
    exists present'. split; [|exact Hall].
    destruct errs; reflexivity. }
  destruct Hfirst as (present' & Hsrv1 & Hall).
  cbv zeta. rewrite Hsrv1.
  unfold pymongo_load_to_mongo, load_to_mongo, bind, ret.
  unfold Pymongo.insert_many. simpl Pymongo.reachable.
  rewrite bool_decide_eq_false_2 by discriminate. simpl negb. cbv iota.
  simpl Pymongo.next_oid. rewrite Hids. simpl Pymongo.stored.
  rewrite (write_batch_all_present ids 0 present' Hall).
  rewrite Hlen. simpl length at 1. rewrite Nat.sub_diag. reflexivity.
Qed.
End PymongoReruns.

Lemma X11_reloading_documents_with_id_fails_witness :
  let srv1 := snd (pymongo_load_to_mongo int_id (py "mongodb://localhost:27017")
                     (py "etl_db") (py "posts_raw") [sample_doc 1 "a"] empty_server) in
  pymongo_load_to_mongo int_id (py "mongodb://localhost:27017") (py "etl_db")
    (py "posts_raw") [sample_doc 1 "a"] srv1
  = (Raise (BulkWriteError 0 [0%nat]), srv1).
Proof.
  apply (X11_reloading_documents_with_id_fails int_id).
  - discriminate.
  - reflexivity.
  - intros d Hd. apply list_elem_of_singleton in Hd as ->. exists 1. vm_compute. reflexivity.
Defined.

(** ** [transform]: edges and composition *)

Section TransformMore.
Variable utc_clock : nat -> Z.

(** X12. For an empty list of records [transform] still reads the clock,
    once, and returns a new, empty list: no dictionary is created or
    changed, and the only change to the lists is the new one. *)
Theorem X12_transform_of_no_records (s : pystate) (records : loc) (endpoint : str) :
  lists (st_heap s) !! records = Some [] ->
  exists out,
    transform utc_clock records endpoint s
    = Some (out, mkState (mkHeap (<[out := []]> (lists (st_heap s))) (dicts (st_heap s)))
                         (S (clock_reads s)))
    /\ (out ∉ allocated (st_heap s))
    /\ out <> records.
Proof.
  destruct s as [[L D] c]. simpl. intros Hrecords.
  unfold transform, datetime_now, new_list, new_loc, allocated. simpl.
  set (out := fresh (dom L ∪ dom D)).
  assert (Hfresh : out ∉ dom L ∪ dom D) by apply is_fresh.
  assert (Hne : out <> records).
  { intros ->. apply Hfresh, elem_of_union_l, elem_of_dom. eauto. }
  exists out. rewrite lookup_insert_ne by assumption. rewrite Hrecords. simpl.
  repeat split; assumption.
Qed.

(** Enriching twice is enriching once with the later values. *)
Lemma enrich_enrich (t1 t2 : Z) (e1 e2 : str) (fields : gmap str pyval) :
  enrich t2 e2 (enrich t1 e1 fields) = enrich t2 e2 fields.
Proof.
  unfold enrich.
  rewrite (insert_insert_ne _ (py "ingested_at") (py "source_endpoint"))
    by (vm_compute; discriminate).
  now rewrite !insert_insert_eq.
Qed.

(** X13. Transforming the output of [transform] again replaces the
    provenance rather than stacking it: the records of the second call are
    the original records enriched with the second call's clock reading, the
    next one, and the second endpoint; nothing of the first call's values
    remains, and the original records are still as they were. *)
Theorem X13_transform_twice (s : pystate) (records : loc) (e1 e2 : str)
    (recs : list loc) :
  lists (st_heap s) !! records = Some recs ->
  (forall r, r ∈ recs -> is_Some (dicts (st_heap s) !! r)) ->
  exists out1 s1 out2 s2 docs2,
    transform utc_clock records e1 s = Some (out1, s1)
    /\ transform utc_clock out1 e2 s1 = Some (out2, s2)
    /\ lists (st_heap s2) !! out2 = Some docs2
    /\ length docs2 = length recs
    /\ clock_reads s2 = S (S (clock_reads s))
    /\ forall i r d, recs !! i = Some r -> docs2 !! i = Some d ->
       exists fields,
         dicts (st_heap s) !! r = Some fields
         /\ dicts (st_heap s2) !! r = Some fields
         /\ dicts (st_heap s2) !! d
            = Some (enrich (utc_clock (S (clock_reads s))) e2 fields).
Proof.
  intros Hrecords Hrecs.
  destruct (transform_spec utc_clock s records e1 recs Hrecords Hrecs)
    as (out1 & s1 & docs1 & Hrun1 & Hclock1 & Hframe1 & _ & Hdocs1 & Hlen1 & _
        & _ & Hcontent1).
  assert (Hrecs1 : forall d, d ∈ docs1 -> is_Some (dicts (st_heap s1) !! d)).
  { intros d [i Hd]%list_elem_of_lookup_1.
    assert (Hi : (i < length recs)%nat).
    { rewrite <- Hlen1. eapply lookup_lt_Some. eassumption. }
    destruct (lookup_lt_is_Some_2 recs i Hi) as [r Hr].
    destruct (Hcontent1 i r d Hr Hd) as (fields & _ & Hdoc). eauto. }
  destruct (transform_spec utc_clock s1 out1 e2 docs1 Hdocs1 Hrecs1)
    as (out2 & s2 & docs2 & Hrun2 & Hclock2 & Hframe2 & _ & Hdocs2 & Hlen2 & _
        & _ & Hcontent2).
  exists out1, s1, out2, s2, docs2. repeat split; try assumption.
  - congruence.
  - congruence.
  - intros i r d Hr Hd.
    assert (Hi : (i < length docs1)%nat).
    { rewrite Hlen1. eapply lookup_lt_Some. eassumption. }
    destruct (lookup_lt_is_Some_2 docs1 i Hi) as [d1 Hd1].
    destruct (Hcontent1 i r d1 Hr Hd1) as (fields & Hfields & Hdoc1).
    destruct (Hcontent2 i d1 d Hd1 Hd) as (fields1 & Hfields1 & Hdoc2).
    exists fields. split; [exact Hfields|]. split.
    + assert (Hr0 : r ∈ allocated (st_heap s)).
      { apply elem_of_union_r, elem_of_dom. eauto. }
      destruct (Hframe1 r Hr0) as [_ Hr1].
      assert (Hr1' : r ∈ allocated (st_heap s1)).
      { apply elem_of_union_r, elem_of_dom. rewrite Hr1. eauto. }
      destruct (Hframe2 r Hr1') as [_ ->]. now rewrite Hr1.
    + rewrite Hdoc2. f_equal.
      assert (fields1 = enrich (utc_clock (clock_reads s)) e1 fields) as -> by congruence.
      rewrite enrich_enrich. now rewrite Hclock1.
Qed.
End TransformMore.

Lemma X12_transform_of_no_records_witness :
  exists out s',
    transform sample_clock 7%positive (py "posts")
      (mkState (mkHeap {[ 7%positive := [] ]} ∅) 3) = Some (out, s')
    /\ clock_reads s' = 4%nat.
Proof.
  destruct (X12_transform_of_no_records sample_clock
              (mkState (mkHeap {[ 7%positive := [] ]} ∅) 3) 7%positive (py "posts"))
    as (out & Hrun & _).
  - reflexivity.
  - eexists _, _. split; [exact Hrun|reflexivity].
Defined.

Lemma X13_transform_twice_witness :
  exists out1 s1 out2 s2,
    transform sample_clock 1%positive (py "posts") sample_state = Some (out1, s1)
    /\ transform sample_clock out1 (py "comments") s1 = Some (out2, s2)
    /\ clock_reads s2 = 2%nat.
Proof.
  destruct sample_state_well_formed as [Hlist Hrecs].
  destruct (X13_transform_twice sample_clock sample_state 1%positive (py "posts")
              (py "comments") [2%positive; 2%positive] Hlist Hrecs)
    as (out1 & s1 & out2 & s2 & docs2 & Hrun1 & Hrun2 & _ & _ & Hclock & _).
  exists out1, s1, out2, s2. repeat split; assumption.
Defined.

(** ** [run]: how a pass and the whole run end *)

Section RunMore.
Context {W Doc Id Client Collection : Type}.
Variable urlparse_hostname : str -> outcome (option str).
Variable urljoin : str -> str -> outcome str.
Variable default_headers : gmap str str.
Variable session_get : Session -> str -> gmap str str -> Z -> M W Response.
Variable MongoClient : str -> M W Client.
Variable get_collection : Client -> str -> str -> M W Collection.
Variable insert_many : Collection -> list Doc -> bool -> M W (InsertManyResult Id).
Variable logger : LogRecord -> W -> W.
Variable transform_step : list pyval -> str -> M W (list Doc).
Variable write_debug_json_step : str -> list Doc -> M W str.

Abbreviation the_run :=
  (run urlparse_hostname urljoin default_headers session_get MongoClient
     get_collection insert_many logger transform_step write_debug_json_step).
Abbreviation the_pass :=
  (process_endpoint urljoin session_get MongoClient get_collection insert_many
     logger transform_step write_debug_json_step).
Abbreviation the_load :=
  (load_to_mongo MongoClient get_collection insert_many).
Abbreviation the_counts :=
  (inserted_counts urljoin session_get MongoClient get_collection insert_many
     logger transform_step write_debug_json_step).

(** X14. [run] raises only while resolving the configuration: when
    [load_config] raises, [run] raises the same exception before anything
    is logged, requested or written; and an exception out of [run] can only
    be that one. *)
Theorem X14_run_raises_only_on_config (env : gmap str str) (w : W) :
  (forall e, load_config urlparse_hostname env = Raise e -> the_run env w = (Raise e, w))
  /\ (forall e w', the_run env w = (Raise e, w') ->
      load_config urlparse_hostname env = Raise e /\ w' = w).
Proof.
  split.
  - intros e Hcfg. unfold run, bind, lift_outcome. now rewrite Hcfg.
  - intros e w' Hrun.
    destruct (load_config urlparse_hostname env) as [cfg|e0] eqn:Hcfg.
    + rewrite (run_reports_total urlparse_hostname urljoin default_headers session_get
                 MongoClient get_collection insert_many logger transform_step
                 write_debug_json_step env cfg w Hcfg) in Hrun.
      discriminate.
    + unfold run, bind, lift_outcome in Hrun. rewrite Hcfg in Hrun.
      injection Hrun as -> ->. split; reflexivity.
Qed.

(** X15. When every field of API_ENDPOINTS is blank there is nothing to
    do: [run] sends no request and calls no driver, and only reports a
    total of 0. *)
Theorem X15_run_without_endpoints (env : gmap str str) (cfg : Config) (w : W) :
  load_config urlparse_hostname env = Ok cfg ->
  (forall field, field ∈ split comma (getenv env "API_ENDPOINTS" "posts,comments,users") ->
                 strip field = []) ->
  the_run env w = (Ok tt, logger (LogDone 0) w).
Proof.
  intros Hcfg Hblank.
  rewrite (run_reports_total urlparse_hostname urljoin default_headers session_get
             MongoClient get_collection insert_many logger transform_step
             write_debug_json_step env cfg w Hcfg).
  assert (Hendpoints : api_endpoints cfg
            = parse_endpoints (getenv env "API_ENDPOINTS" "posts,comments,users")).
  { unfold load_config in Hcfg.
    destruct (urlparse_hostname _); [|discriminate]. now injection Hcfg as <-. }
  rewrite Hendpoints, (parse_endpoints_blank _ Hblank). reflexivity.
Qed.

(** X16. A step that raises ends the pass: the steps after it are not
    run, the failure is logged with the endpoint, and the pass ends
    normally.  The load's count is added as soon as the load returns, so it
    stays counted when the debug sink raises afterwards: an endpoint logged
    as failed may have had its records inserted.  Only a pass in which all
    four steps return logs the debug file. *)
Theorem X16_pass_by_stage (cfg : Config) (session : Session)
    (auth_headers : gmap str str) (endpoint : str) (total_inserted : Z) (w : W) :
  let pass :=
    try_except (the_pass cfg session auth_headers endpoint)
               (endpoint_failed logger endpoint) (total_inserted, w) in
  (forall e w1,
      extract urljoin (session_get session) logger (api_base_url cfg) endpoint
              auth_headers w = (Raise e, w1) ->
      pass = (Ok tt, (total_inserted, logger (LogEndpointFailed endpoint e) w1)))
  /\ (forall records meta w1,
      extract urljoin (session_get session) logger (api_base_url cfg) endpoint
              auth_headers w = (Ok (records, meta), w1) ->
      (forall e w2,
          transform_step records endpoint
            (logger (LogFetched (record_count meta) (meta_url meta)) w1) = (Raise e, w2) ->
          pass = (Ok tt, (total_inserted, logger (LogEndpointFailed endpoint e) w2)))
      /\ (forall docs w2,
          transform_step records endpoint
            (logger (LogFetched (record_count meta) (meta_url meta)) w1) = (Ok docs, w2) ->
          (forall e w3,
              the_load (mongo_uri cfg) (mongo_db cfg) (mongo_collection cfg) docs w2
              = (Raise e, w3) ->
              pass = (Ok tt, (total_inserted, logger (LogEndpointFailed endpoint e) w3)))
          /\ (forall inserted w3,
              the_load (mongo_uri cfg) (mongo_db cfg) (mongo_collection cfg) docs w2
              = (Ok inserted, w3) ->
              (forall e w4,
                  write_debug_json_step endpoint docs
                    (logger (LogInserted inserted (mongo_db cfg) (mongo_collection cfg)) w3)
                  = (Raise e, w4) ->
                  pass = (Ok tt, (total_inserted + inserted,
                                  logger (LogEndpointFailed endpoint e) w4)))
              /\ (forall debug_file w4,
                  write_debug_json_step endpoint docs
                    (logger (LogInserted inserted (mongo_db cfg) (mongo_collection cfg)) w3)
                  = (Ok debug_file, w4) ->
                  pass = (Ok tt, (total_inserted + inserted,
                                  logger (LogWrote debug_file) w4)))))).
Proof.
  cbv zeta.
  unfold try_except, process_endpoint, endpoint_failed, log, add_inserted, in_world,
    bind, modify.
  split.
  - intros e w1 ->. reflexivity.
  - intros records meta w1 ->. simpl. split.
    + intros e w2 ->. reflexivity.
    + intros docs w2 ->. split.
      * intros e w3 ->. reflexivity.
      * intros inserted w3 ->. simpl. split.
        -- intros e w4 ->. reflexivity.
        -- intros debug_file w4 ->. reflexivity.
Qed.

Lemma load_to_mongo_count_nonneg (uri db coll : str) (documents : list Doc)
    (w w' : W) (inserted : Z) :
  the_load uri db coll documents w = (Ok inserted, w') -> 0 <= inserted.
Proof.
  unfold load_to_mongo, bind, ret. destruct documents as [|d ds].
  - intros H. injection H as <- _. lia.
  - destruct (MongoClient uri w) as [[client|e] w1]; [|discriminate].
    destruct (get_collection client db coll w1) as [[collection|e] w2]; [|discriminate].
    destruct (insert_many collection (d :: ds) false w2) as [[result|e] w3]; [|discriminate].
    intros H. injection H as <- _. lia.
Qed.

Lemma inserted_counts_nonneg (cfg : Config) (session : Session)
    (auth_headers : gmap str str) (endpoints : list str) :
  forall w, 0 <= sum_counts (the_counts cfg session auth_headers endpoints w).
Proof.
  induction endpoints as [|endpoint rest IH]; intros w; simpl; [reflexivity|].
  unfold sum_counts in *.
  destruct (load_result _ _ _ _ _ _ _ cfg session auth_headers endpoint w)
    as [inserted|] eqn:Hload; simpl; [|apply IH].
  assert (0 <= inserted); [|specialize (IH (world_after_endpoint urljoin session_get
    MongoClient get_collection insert_many logger transform_step write_debug_json_step
    cfg session auth_headers endpoint w)); lia].
  unfold load_result in Hload.
  destruct (extract _ _ _ _ _ _ w) as [[fetched|e1] w1]; [|discriminate].
  destruct (transform_step _ _ _) as [[docs|e2] w2]; [|discriminate].
  destruct (the_load _ _ _ docs w2) as [[n|e3] w3] eqn:Hn; [|discriminate].
  injection Hload as <-. eapply load_to_mongo_count_nonneg. eassumption.
Qed.

(** X17. The total [run] reports is never negative, whatever the API and
    the driver do: every count added is a length, or the 0 of an empty
    batch. *)
Theorem X17_reported_total_nonneg (env : gmap str str) (cfg : Config) (w : W) :
  load_config urlparse_hostname env = Ok cfg ->
  exists total w',
    the_run env w = (Ok tt, logger (LogDone total) w') /\ 0 <= total.
Proof.
  intros Hcfg.
  rewrite (run_reports_total urlparse_hostname urljoin default_headers session_get
             MongoClient get_collection insert_many logger transform_step
             write_debug_json_step env cfg w Hcfg).
  eexists _, _. split; [reflexivity|]. apply inserted_counts_nonneg.
Qed.
End RunMore.

Lemma X14_run_raises_only_on_config_witness :
  run (fun _ => Raise (ValueError "Invalid IPv6 URL")) demo_urljoin ∅ demo_session_get
      (fun _ => ret tt) (fun _ _ _ => ret tt) demo_insert_many
      demo_logger demo_transform demo_write_debug_json demo_env demo_start
  = (Raise (ValueError "Invalid IPv6 URL"), demo_start).
Proof.
  destruct (X14_run_raises_only_on_config (fun _ => Raise (ValueError "Invalid IPv6 URL"))
              demo_urljoin ∅ demo_session_get (fun _ => ret tt) (fun _ _ _ => ret tt)
              demo_insert_many demo_logger demo_transform demo_write_debug_json
              demo_env demo_start) as [H _].
  apply H. reflexivity.
Defined.

Lemma X15_run_without_endpoints_witness :
  run demo_urlparse_hostname demo_urljoin ∅ demo_session_get
      (fun _ => ret tt) (fun _ _ _ => ret tt) demo_insert_many
      demo_logger demo_transform demo_write_debug_json blank_endpoints_env demo_start
  = (Ok tt, demo_logger (LogDone 0) demo_start).
Proof.
  destruct (load_config demo_urlparse_hostname blank_endpoints_env) as [cfg|e] eqn:Hcfg;
    [|vm_compute in Hcfg; discriminate].
  apply (X15_run_without_endpoints demo_urlparse_hostname demo_urljoin ∅ demo_session_get
           (fun _ => ret tt) (fun _ _ _ => ret tt) demo_insert_many demo_logger
           demo_transform demo_write_debug_json blank_endpoints_env cfg demo_start Hcfg).
  intros field Hfield. vm_compute in Hfield.
  apply elem_of_cons in Hfield as [->|Hfield]; [vm_compute; reflexivity|].
  apply elem_of_cons in Hfield as [->|Hfield]; [vm_compute; reflexivity|].
  now apply not_elem_of_nil in Hfield.
Defined.

Lemma X16_pass_by_stage_witness :
  exists cfg w1,
    load_config demo_urlparse_hostname demo_env = Ok cfg
    /\ try_except
         (process_endpoint demo_urljoin demo_session_get (fun _ => ret tt)
            (fun _ _ _ => ret tt) demo_insert_many demo_logger demo_transform
            demo_write_debug_json cfg (build_session_with_retries ∅) ∅ (py "broken"))
         (endpoint_failed demo_logger (py "broken")) (5, demo_start)
       = (Ok tt, (5, demo_logger (LogEndpointFailed (py "broken") (HTTPError 500)) w1)).
Proof.
  destruct (load_config demo_urlparse_hostname demo_env) as [cfg|e] eqn:Hcfg;
    [|vm_compute in Hcfg; discriminate].
  assert (Hc : Ok cfg = load_config demo_urlparse_hostname demo_env) by (now rewrite Hcfg).
  vm_compute in Hc. injection Hc as ->.
  eexists _, _. split; [reflexivity|].
  match goal with
  | |- try_except (process_endpoint _ _ _ _ _ _ _ _ ?cfg ?session ?hdrs ?endpoint) _ _ = _ =>
      destruct (X16_pass_by_stage demo_urljoin demo_session_get (fun _ => ret tt)
                  (fun _ _ _ => ret tt) demo_insert_many demo_logger demo_transform
                  demo_write_debug_json cfg session hdrs endpoint 5 demo_start) as [H _]
  end.
  eapply H. vm_compute. reflexivity.
Defined.

Lemma X17_reported_total_nonneg_witness :
  exists total w',
    demo_run demo_start = (Ok tt, demo_logger (LogDone total) w') /\ 0 <= total.
Proof.
  destruct (load_config demo_urlparse_hostname demo_env) as [cfg|e] eqn:Hcfg;
    [|vm_compute in Hcfg; discriminate].
  apply (X17_reported_total_nonneg demo_urlparse_hostname demo_urljoin ∅ demo_session_get
           (fun _ => ret tt) (fun _ _ _ => ret tt) demo_insert_many demo_logger
           demo_transform demo_write_debug_json demo_env cfg demo_start Hcfg).
Defined.

(** ** [write_debug_json] *)

(** *** The file name *)

Lemma decimal_digits_are_digits (fuel n : nat) (c : N) :
  c ∈ decimal_digits fuel n -> (48 <= c <= 57)%N.
Proof.
  revert n. induction fuel as [|fuel IH]; intros n; simpl.
  - intros H. now apply not_elem_of_nil in H.
  - destruct (n <? 10)%nat eqn:Hn.
    + apply Nat.ltb_lt in Hn. intros ->%list_elem_of_singleton. unfold digit. lia.
    + intros [H|H]%elem_of_app; [now apply (IH (n / 10)%nat)|].
      apply list_elem_of_singleton in H as ->.
      pose proof (Nat.mod_upper_bound n 10). unfold digit. lia.
Qed.

Lemma pad2_are_digits (n : nat) (c : N) : c ∈ pad2 n -> (48 <= c <= 57)%N.
Proof.
  unfold pad2, decimal. destruct (n <? 10)%nat.
  - intros [->|H]%elem_of_cons; [unfold digit; simpl; lia|].
    now apply decimal_digits_are_digits in H.
  - apply decimal_digits_are_digits.
Qed.

(** The time stamp is made of digits and one underscore. *)
Lemma strftime_stamp_chars (now : datetime) (c : N) :
  c ∈ strftime_stamp now -> (48 <= c <= 57)%N \/ c = underscore.
Proof.
  unfold strftime_stamp, decimal.
  rewrite !elem_of_app.
  intros [H|[H|[H|[H|[H|[H|H]]]]]];
    try (left; now apply decimal_digits_are_digits in H);
    try (left; now apply pad2_are_digits in H).
  right. apply list_elem_of_singleton in H. exact H.
Qed.

(** The widths of the fields: checked on every value they can take. *)
Lemma pad2_table :
  forallb (fun n => (length (pad2 n) =? 2)%nat) (seq 0 100) = true.
Proof. vm_compute. reflexivity. Qed.

Lemma year_table :
  forallb (fun n => (length (decimal n) =? 4)%nat) (seq 1000 (9 * 1000)) = true.
Proof. vm_compute. reflexivity. Qed.

Lemma pad2_length (n : nat) : (n < 100)%nat -> length (pad2 n) = 2%nat.
Proof.
  intros Hn. pose proof pad2_table as Htable.
  rewrite forallb_forall in Htable.
  apply Nat.eqb_eq, Htable, in_seq. lia.
Qed.

Lemma year_length (n : nat) : (1000 <= n < 10 * 1000)%nat -> length (decimal n) = 4%nat.
Proof.
  intros Hn. pose proof year_table as Htable.
  rewrite forallb_forall in Htable.
  apply Nat.eqb_eq, Htable, in_seq. lia.
Qed.

Lemma undigits_snoc (s : str) (c : N) :
  undigits (s ++ [c]) = (undigits s * 10 + (N.to_nat c - 48))%nat.
Proof. unfold undigits. now rewrite foldl_app. Qed.

Lemma undigits_digit (n : nat) : (N.to_nat (digit n) - 48 = n)%nat.
Proof. unfold digit. lia. Qed.

Lemma undigits_decimal_digits (fuel : nat) :
  forall n, (n < fuel)%nat -> undigits (decimal_digits fuel n) = n.
Proof.
  induction fuel as [|fuel IH]; intros n Hn; [lia|]. cbn [decimal_digits].
  destruct (n <? 10)%nat eqn:Hsmall.
  - unfold undigits. cbn [foldl]. now rewrite undigits_digit.
  - apply Nat.ltb_ge in Hsmall.
    rewrite undigits_snoc, undigits_digit, IH.
    + pose proof (Nat.div_mod_eq n 10). lia.
    + pose proof (Nat.div_lt n 10). lia.
Qed.

(** The digits of a number read back as the number. *)
Lemma undigits_decimal (n : nat) : undigits (decimal n) = n.
Proof. apply undigits_decimal_digits. lia. Qed.

Lemma undigits_pad2 (n : nat) : undigits (pad2 n) = n.
Proof.
  unfold pad2. destruct (n <? 10)%nat; [|apply undigits_decimal].
  change (digit 0 :: decimal n) with ([digit 0] ++ decimal n).
  unfold undigits. rewrite foldl_app. simpl. apply undigits_decimal.
Qed.

(** The time stamp determines the time, to the second. *)
Lemma strftime_stamp_inj (a b : datetime) :
  four_digit_year a -> four_digit_year b ->
  strftime_stamp a = strftime_stamp b -> a = b.
Proof.
  intros (Hya & Hma & Hda & Hha & Hmia & Hsa) (Hyb & Hmb & Hdb & Hhb & Hmib & Hsb).
  unfold strftime_stamp. intros H.
  apply app_inj_1 in H as [Hy H]; [|now rewrite !year_length].
  apply app_inj_1 in H as [Hm H]; [|now rewrite !pad2_length].
  apply app_inj_1 in H as [Hd H]; [|now rewrite !pad2_length].
  apply app_inj_1 in H as [_ H]; [|reflexivity].
  apply app_inj_1 in H as [Hh H]; [|now rewrite !pad2_length].
  apply app_inj_1 in H as [Hmi Hs]; [|now rewrite !pad2_length].
  apply (f_equal undigits) in Hy, Hm, Hd, Hh, Hmi, Hs.
  rewrite !undigits_decimal in Hy. rewrite !undigits_pad2 in Hm, Hd, Hh, Hmi, Hs.
  destruct a, b. simpl in *. congruence.
Qed.

Lemma strftime_stamp_length (now : datetime) :
  four_digit_year now -> length (strftime_stamp now) = 15%nat.
Proof.
  intros (Hy & Hm & Hd & Hh & Hmi & Hs). unfold strftime_stamp.
  rewrite !length_app, year_length, !pad2_length by assumption. reflexivity.
Qed.

(** *** The path *)

Lemma split_without_sep (sep : N) (s : str) : sep ∉ s -> split sep s = [s].
Proof.
  induction s as [|c s IH]; intros Hsep; [reflexivity|]. simpl.
  apply not_elem_of_cons in Hsep as [Hc Hs].
  destruct (c =? sep)%N eqn:Heq; [apply N.eqb_eq in Heq; congruence|].
  now rewrite IH.
Qed.

Lemma split_at_sep (sep : N) (first rest : str) :
  sep ∉ first -> split sep (first ++ sep :: rest) = first :: split sep rest.
Proof.
  induction first as [|c first IH]; intros Hsep; simpl.
  - now rewrite N.eqb_refl.
  - apply not_elem_of_cons in Hsep as [Hc Hs].
    destruct (c =? sep)%N eqn:Heq; [apply N.eqb_eq in Heq; congruence|].
    now rewrite IH.
Qed.

Lemma debug_file_name_no_slash (endpoint : str) (now : datetime) :
  slash ∉ endpoint -> slash ∉ debug_file_name endpoint (strftime_stamp now).
Proof.
  intros Hendpoint. unfold debug_file_name. rewrite !elem_of_app.
  intros [H|[H|[H|H]]].
  - contradiction.
  - vm_compute in H. apply list_elem_of_singleton in H. discriminate.
  - apply strftime_stamp_chars in H as [H|H]; [unfold slash in H; lia | discriminate].
  - vm_compute in H. repeat (apply elem_of_cons in H as [H|H]; [discriminate|]).
    now apply not_elem_of_nil in H.
Qed.

Lemma debug_file_name_has_underscore (endpoint ts : str) :
  underscore ∈ debug_file_name endpoint ts.
Proof.
  unfold debug_file_name. apply elem_of_app. right. apply elem_of_app. left.
  apply list_elem_of_here.
Qed.

(** For an endpoint without a slash the debug file lies directly in the
    output directory. *)
Lemma debug_path_plain (root : list str) (endpoint : str) (now : datetime) :
  slash ∉ endpoint ->
  debug_path root endpoint now
  = output_dir root ++ [debug_file_name endpoint (strftime_stamp now)].
Proof.
  intros Hendpoint. unfold debug_path, path_join.
  pose proof (debug_file_name_no_slash endpoint now Hendpoint) as Hslash.
  pose proof (debug_file_name_has_underscore endpoint (strftime_stamp now)) as Hunder.
  set (name := debug_file_name endpoint (strftime_stamp now)) in *.
  assert (Hparts : path_parts name = [name]).
  { unfold path_parts. rewrite split_without_sep by assumption.
    rewrite filter_cons_True; [reflexivity|].
    split; intros Heq; rewrite Heq in Hunder.
    - now apply not_elem_of_nil in Hunder.
    - vm_compute in Hunder. apply list_elem_of_singleton in Hunder. discriminate. }
  destruct name as [|c name'] eqn:Hname; [now apply not_elem_of_nil in Hunder|].
  destruct (c =? slash)%N eqn:Hc.
  - apply N.eqb_eq in Hc. subst c. exfalso. apply Hslash, list_elem_of_here.
  - now rewrite Hparts.
Qed.

(** X18. For endpoints without a slash and clock readings in the years
    1000 to 9999, the path of the debug file determines the endpoint and
    the second of the reading: two writes share a file exactly when they are
    for the same endpoint within the same second. *)
Theorem X18_debug_path_determines_endpoint_and_second (root : list str)
    (e1 e2 : str) (t1 t2 : datetime) :
  slash ∉ e1 -> slash ∉ e2 -> four_digit_year t1 -> four_digit_year t2 ->
  debug_path root e1 t1 = debug_path root e2 t2 <-> e1 = e2 /\ t1 = t2.
Proof.
  intros H1 H2 Ht1 Ht2. split; [|now intros [-> ->]].
  rewrite !debug_path_plain by assumption.
  intros Hpath. apply app_inv_head in Hpath. injection Hpath as Hname.
  unfold debug_file_name in Hname. rewrite !app_assoc in Hname.
  apply app_inj_2 in Hname as [Hname _]; [|reflexivity].
  apply app_inj_2 in Hname as [Hname Hstamp];
    [|now rewrite !strftime_stamp_length].
  apply app_inj_2 in Hname as [He _]; [|reflexivity].
  split; [exact He|]. now apply strftime_stamp_inj.
Qed.

Lemma X18_debug_path_determines_endpoint_and_second_witness :
  debug_path sample_root (py "posts") (sample_now 0)
  <> debug_path sample_root (py "posts") (sample_now 1).
Proof.
  intros Heq.
  apply (X18_debug_path_determines_endpoint_and_second sample_root (py "posts") (py "posts")
           (sample_now 0) (sample_now 1)) in Heq as [_ Heq].
  - discriminate.
  - vm_compute. intros Hin. repeat (apply elem_of_cons in Hin as [Hin|Hin]; [discriminate|]).
    now apply not_elem_of_nil in Hin.
  - vm_compute. intros Hin. repeat (apply elem_of_cons in Hin as [Hin|Hin]; [discriminate|]).
    now apply not_elem_of_nil in Hin.
  - unfold four_digit_year. simpl. lia.
  - unfold four_digit_year. simpl. lia.
Defined.

(** *** On the file system *)

Lemma enter_dir (disk : Posix.fs) (place : list str) :
  place ∈ Posix.dirs disk -> Posix.enter disk place = Ok tt.
Proof. intros H. unfold Posix.enter. now rewrite bool_decide_eq_true_2. Qed.

Lemma enter_Ok (disk : Posix.fs) (place : list str) (u : unit) :
  Posix.enter disk place = Ok u -> place ∈ Posix.dirs disk.
Proof.
  unfold Posix.enter. case_bool_decide; [auto|]. case_bool_decide; discriminate.
Qed.

Lemma walk_app (disk : Posix.fs) (parts more : list str) :
  forall place,
    Posix.walk disk place (parts ++ more)
    = match Posix.walk disk place parts with
      | Ok there => Posix.walk disk there more
      | Raise e => Raise e
      end.
Proof.
  induction parts as [|part parts IH]; intros place; simpl; [reflexivity|].
  destruct (Posix.enter disk place); [|reflexivity].
  case_bool_decide; apply IH.
Qed.

Lemma walk_down (disk : Posix.fs) (place : list str) (part : str) (rest : list str) :
  place ∈ Posix.dirs disk -> part <> py ".." ->
  Posix.walk disk place (part :: rest) = Posix.walk disk (place ++ [part]) rest.
Proof.
  intros Hplace Hpart. simpl. rewrite (enter_dir disk place Hplace).
  now rewrite bool_decide_eq_false_2.
Qed.

Lemma walk_up (disk : Posix.fs) (place : list str) (rest : list str) :
  place ∈ Posix.dirs disk ->
  Posix.walk disk place (py ".." :: rest) = Posix.walk disk (removelast place) rest.
Proof.
  intros Hplace. cbn [Posix.walk]. rewrite (enter_dir disk place Hplace).
  now rewrite bool_decide_eq_true_2.
Qed.

(** New directories do not break a path that could be followed. *)
Lemma walk_more_dirs (disk disk' : Posix.fs) (parts : list str) :
  Posix.dirs disk ⊆ Posix.dirs disk' ->
  forall place there,
    Posix.walk disk place parts = Ok there -> Posix.walk disk' place parts = Ok there.
Proof.
  intros Hsub. induction parts as [|part parts IH]; intros place there; simpl; [auto|].
  destruct (Posix.enter disk place) as [u|e] eqn:Henter; [|discriminate].
  apply enter_Ok in Henter. rewrite (enter_dir disk' place) by (apply Hsub, Henter).
  case_bool_decide; apply IH.
Qed.

(** *** Paths of endpoints with a slash *)

(** What follows the last separator stays in the last field. *)
Lemma split_app_tail (sep : N) (s t : str) :
  sep ∉ t ->
  exists init lastc,
    split sep s = init ++ [lastc] /\ split sep (s ++ t) = init ++ [lastc ++ t].
Proof.
  intros Hsep. induction s as [|c s (init & lastc & Hs & Hst)].
  - exists [], []. split; [reflexivity|]. simpl. now apply split_without_sep.
  - simpl. rewrite Hs, Hst. destruct (c =? sep)%N.
    + exists ([] :: init), lastc. split; reflexivity.
    + destruct init as [|w ws].
      * exists [], (c :: lastc). split; reflexivity.
      * exists ((c :: w) :: ws), lastc. split; reflexivity.
Qed.

Lemma strftime_stamp_no_slash (now : datetime) : slash ∉ strftime_stamp now.
Proof.
  intros H. apply strftime_stamp_chars in H as [H|H]; [unfold slash in H; lia|discriminate].
Qed.

(** The file name always has a last component. *)
Lemma path_parts_file_name (endpoint : str) (now : datetime) :
  path_parts (debug_file_name endpoint (strftime_stamp now)) <> [].
Proof.
  unfold path_parts, debug_file_name.
  destruct (split_app_tail slash endpoint (py "_" ++ strftime_stamp now ++ py ".json"))
    as (init & lastc & _ & ->).
  - rewrite !elem_of_app. intros [H|[H|H]].
    + vm_compute in H. apply list_elem_of_singleton in H. discriminate.
    + now apply strftime_stamp_no_slash in H.
    + vm_compute in H. repeat (apply elem_of_cons in H as [H|H]; [discriminate|]).
      now apply not_elem_of_nil in H.
  - rewrite filter_app, filter_cons_True.
    + intros Heq. apply app_eq_nil in Heq as [_ Heq]. discriminate.
    + assert (Hunder : underscore ∈ lastc ++ py "_" ++ strftime_stamp now ++ py ".json").
      { apply elem_of_app. right. apply list_elem_of_here. }
      split; intros Heq; rewrite Heq in Hunder.
      * now apply not_elem_of_nil in Hunder.
      * vm_compute in Hunder. apply list_elem_of_singleton in Hunder. discriminate.
Qed.

Lemma path_parts_plain (endpoint : str) (now : datetime) :
  slash ∉ endpoint ->
  path_parts (debug_file_name endpoint (strftime_stamp now))
  = [debug_file_name endpoint (strftime_stamp now)].
Proof.
  intros Hendpoint.
  pose proof (debug_file_name_no_slash endpoint now Hendpoint) as Hslash.
  pose proof (debug_file_name_has_underscore endpoint (strftime_stamp now)) as Hunder.
  unfold path_parts. rewrite split_without_sep by assumption.
  rewrite filter_cons_True; [reflexivity|].
  split; intros Heq; rewrite Heq in Hunder.
  - now apply not_elem_of_nil in Hunder.
  - vm_compute in Hunder. apply list_elem_of_singleton in Hunder. discriminate.
Qed.

(** The path for an endpoint whose first component is a name. *)
Lemma debug_path_nested (root : list str) (first rest : str) (now : datetime) :
  slash ∉ first -> first <> [] -> first <> py "." ->
  debug_path root (first ++ slash :: rest) now
  = output_dir root ++ first :: path_parts (debug_file_name rest (strftime_stamp now)).
Proof.
  intros Hslash Hempty Hdot. unfold debug_path, path_join.
  assert (Hname : debug_file_name (first ++ slash :: rest) (strftime_stamp now)
                  = first ++ slash :: debug_file_name rest (strftime_stamp now)).
  { unfold debug_file_name. now rewrite <- app_assoc. }
  rewrite Hname.
  assert (Hparts : path_parts (first ++ slash :: debug_file_name rest (strftime_stamp now))
                   = first :: path_parts (debug_file_name rest (strftime_stamp now))).
  { unfold path_parts. rewrite split_at_sep by assumption.
    now rewrite filter_cons_True. }
  destruct first as [|c first']; [contradiction|].
  assert (Hc : (c =? slash)%N = false).
  { apply N.eqb_neq. intros ->. apply Hslash, list_elem_of_here. }
  cbn [app] in *. now rewrite Hc, Hparts.
Qed.

(** Making the output directory under an existing root. *)
Lemma mkdir_output_dir (root : list str) (disk : Posix.fs) :
  root ∈ Posix.dirs disk ->
  Posix.files disk !! output_dir root = None ->
  Posix.mkdir (output_dir root) disk
  = (Ok tt, Posix.mkFs ({[ output_dir root ]} ∪ Posix.dirs disk) (Posix.files disk)).
Proof.
  intros Hroot Hfile. unfold Posix.mkdir, output_dir.
  rewrite length_app, Nat.add_comm. cbn [length Nat.add Posix.mkdir_parents].
  unfold Posix.os_mkdir. rewrite removelast_last, (enter_dir disk root Hroot).
  fold (output_dir root). rewrite Hfile.
  destruct (bool_decide (output_dir root ∈ Posix.dirs disk)) eqn:Hdir; simpl.
  - apply bool_decide_eq_true in Hdir.
    destruct disk as [dirs files]. simpl in *. f_equal. f_equal.
    symmetry. apply subseteq_union_1_L. now apply singleton_subseteq_l.
  - reflexivity.
Qed.

Section SinkFacts.
Context {Docs : Type}.
Variable root : list str.
Variable wall_clock : nat -> datetime.
Variable dumps : Docs -> str * option exn.

Abbreviation the_sink := (posix_write_debug_json root wall_clock dumps).

(** The debug sink once the output directory can be made: it stands or
    falls with the opening of the file. *)
Lemma sink_steps (endpoint : str) (records : Docs) (disk : Posix.fs) (reads : nat) :
  root ∈ Posix.dirs disk ->
  Posix.files disk !! output_dir root = None ->
  the_sink endpoint records (mkSink disk reads)
  = let disk1 := Posix.mkFs ({[ output_dir root ]} ∪ Posix.dirs disk) (Posix.files disk) in
    let target := debug_path root endpoint (wall_clock reads) in
    match Posix.open_w target disk1 with
    | (Raise e, _) => (Raise e, mkSink disk1 (S reads))
    | (Ok place, disk2) =>
        (match snd (dumps records) with None => Ok target | Some e => Raise e end,
         mkSink (Posix.write place (fst (dumps records)) disk2) (S reads))
    end.
Proof.
  intros Hroot Hfile.
  unfold posix_write_debug_json, write_debug_json, bind, on_disk, sink_utcnow,
    sink_json_dump, ret.
  cbn [sink_disk sink_clock_reads]. fold (output_dir root).
  rewrite (mkdir_output_dir root disk Hroot Hfile).
  cbn [sink_disk sink_clock_reads].
  fold (debug_path root endpoint (wall_clock reads)).
  unfold Posix.open_w.
  destruct (Posix.walk _ [] (debug_path root endpoint (wall_clock reads))) as [place|e];
    [|reflexivity].
  case_bool_decide; [reflexivity|].
  cbn [sink_disk sink_clock_reads].
  destruct (dumps records) as [text [e|]]; reflexivity.
Qed.

(** Opening a fresh or regular file where the path leads. *)
Lemma open_w_at (disk : Posix.fs) (path place : list str) :
  Posix.walk disk [] path = Ok place -> place ∉ Posix.dirs disk ->
  Posix.open_w path disk
  = (Ok place, Posix.mkFs (Posix.dirs disk) (<[place := []]> (Posix.files disk))).
Proof.
  intros Hwalk Hplace. unfold Posix.open_w. rewrite Hwalk.
  now rewrite bool_decide_eq_false_2.
Qed.

Lemma write_after_open (dirs : gset (list str)) (files : gmap (list str) str)
    (place : list str) (text : str) :
  Posix.write place text (Posix.mkFs dirs (<[place := []]> files))
  = Posix.mkFs dirs (<[place := text]> files).
Proof.
  unfold Posix.write. cbn [Posix.dirs Posix.files].
  now rewrite lookup_insert_eq, insert_insert_eq.
Qed.

(** The file name is no step back. *)
Lemma debug_file_name_not_dotdot (endpoint ts : str) :
  debug_file_name endpoint ts <> py "..".
Proof.
  intros Heq. pose proof (debug_file_name_has_underscore endpoint ts) as Hunder.
  rewrite Heq in Hunder. vm_compute in Hunder.
  repeat (apply elem_of_cons in Hunder as [Hunder|Hunder]; [discriminate|]).
  now apply not_elem_of_nil in Hunder.
Qed.

Lemma output_dir_not_under (name : str) :
  output_dir root <> output_dir root ++ [name].
Proof.
  intros Heq. apply (f_equal length) in Heq. rewrite length_app in Heq. simpl in Heq. lia.
Qed.

(** The debug sink for an endpoint without a slash, start to end. *)
Lemma sink_plain_endpoint (endpoint : str) (records : Docs) (disk : Posix.fs)
    (reads : nat) :
  Posix.walk disk [] root = Ok root ->
  root ∈ Posix.dirs disk ->
  Posix.files disk !! output_dir root = None ->
  slash ∉ endpoint ->
  debug_path root endpoint (wall_clock reads) ∉ Posix.dirs disk ->
  the_sink endpoint records (mkSink disk reads)
  = (match snd (dumps records) with
     | None => Ok (debug_path root endpoint (wall_clock reads))
     | Some e => Raise e
     end,
     mkSink (Posix.mkFs ({[ output_dir root ]} ∪ Posix.dirs disk)
               (<[debug_path root endpoint (wall_clock reads) := fst (dumps records)]>
                  (Posix.files disk)))
            (S reads)).
Proof.
  intros Hwalk Hroot Hfile Hslash Htarget.
  rewrite (sink_steps endpoint records disk reads Hroot Hfile). cbv zeta.
  set (disk1 := Posix.mkFs ({[ output_dir root ]} ∪ Posix.dirs disk) (Posix.files disk)).
  rewrite (open_w_at disk1 _ (debug_path root endpoint (wall_clock reads))).
  - subst disk1. cbn [Posix.dirs Posix.files]. now rewrite write_after_open.
  - rewrite (debug_path_plain root endpoint _ Hslash). unfold output_dir.
    rewrite <- app_assoc, walk_app.
    rewrite (walk_more_dirs disk disk1 root) with (there := root);
      [|subst disk1; simpl; apply union_subseteq_r|exact Hwalk].
    change ([py "etl_output"] ++ ?l) with (py "etl_output" :: l).
    rewrite walk_down.
    + rewrite walk_down; [simpl; now rewrite <- app_assoc| |].
      * subst disk1. simpl. apply elem_of_union_l, elem_of_singleton. reflexivity.
      * apply debug_file_name_not_dotdot.
    + subst disk1. simpl. apply elem_of_union_r, Hroot.
    + vm_compute. discriminate.
  - subst disk1. simpl. intros [Hin|Hin]%elem_of_union; [|contradiction].
    apply elem_of_singleton in Hin.
    rewrite (debug_path_plain root endpoint _ Hslash) in Hin.
    symmetry in Hin. now apply output_dir_not_under in Hin.
Qed.
(** The first steps of every debug path: down to the output directory. *)
Lemma walk_to_output_dir (disk : Posix.fs) (parts : list str) :
  Posix.walk disk [] root = Ok root ->
  root ∈ Posix.dirs disk ->
  Posix.walk (Posix.mkFs ({[ output_dir root ]} ∪ Posix.dirs disk) (Posix.files disk))
    [] (output_dir root ++ parts)
  = Posix.walk (Posix.mkFs ({[ output_dir root ]} ∪ Posix.dirs disk) (Posix.files disk))
      (output_dir root) parts.
Proof.
  intros Hwalk Hroot. unfold output_dir at 2. rewrite <- app_assoc, walk_app.
  rewrite (walk_more_dirs disk _ root) with (there := root);
    [|simpl; apply union_subseteq_r|exact Hwalk].
  change ([py "etl_output"] ++ parts) with (py "etl_output" :: parts).
  rewrite walk_down; [reflexivity| |vm_compute; discriminate].
  simpl. apply elem_of_union_r, Hroot.
Qed.

Lemma output_dir_made (dirs : gset (list str)) :
  output_dir root ∈ {[ output_dir root ]} ∪ dirs.
Proof. apply elem_of_union_l, elem_of_singleton. reflexivity. Qed.

(** X19. With the module's directory in place and an endpoint without a
    slash, [write_debug_json] makes [etl_output] if it is missing, reads the
    clock once and leaves in the file named after the endpoint and the
    second exactly what [json.dump] wrote, every other file as it was.  It
    returns the file's path when the dump returns; when the dump raises, the
    exception is passed on and the file keeps the text written so far. *)
Theorem X19_debug_file_written (endpoint : str) (records : Docs) (disk : Posix.fs)
    (reads : nat) (text : str) (failure : option exn) :
  Posix.walk disk [] root = Ok root ->
  root ∈ Posix.dirs disk ->
  Posix.files disk !! output_dir root = None ->
  slash ∉ endpoint ->
  debug_path root endpoint (wall_clock reads) ∉ Posix.dirs disk ->
  dumps records = (text, failure) ->
  let target := debug_path root endpoint (wall_clock reads) in
  let after := the_sink endpoint records (mkSink disk reads) in
  fst after = match failure with None => Ok target | Some e => Raise e end
  /\ Posix.files (sink_disk (snd after)) !! target = Some text
  /\ (forall other, other <> target ->
        Posix.files (sink_disk (snd after)) !! other = Posix.files disk !! other)
  /\ Posix.dirs (sink_disk (snd after)) = {[ output_dir root ]} ∪ Posix.dirs disk
  /\ sink_clock_reads (snd after) = S reads.
Proof.
  intros Hwalk Hroot Hfile Hslash Htarget Hdump target after. subst after.
  rewrite (sink_plain_endpoint endpoint records disk reads Hwalk Hroot Hfile Hslash Htarget).
  rewrite Hdump. fold target. cbn [fst snd sink_disk sink_clock_reads Posix.files Posix.dirs].
  split; [reflexivity|]. split; [apply lookup_insert_eq|].
  split; [|split; reflexivity].
  intros other Hother. now apply lookup_insert_ne.
Qed.

(** X20. An endpoint with a slash names a file in a subdirectory of
    [etl_output], which [write_debug_json] does not make: when that
    subdirectory does not exist, opening the file raises
    [FileNotFoundError], after [etl_output] was made and the clock read, and
    no file is written. *)
Theorem X20_slash_endpoint_needs_its_directory (first rest : str) (records : Docs)
    (disk : Posix.fs) (reads : nat) :
  Posix.walk disk [] root = Ok root ->
  root ∈ Posix.dirs disk ->
  Posix.files disk !! output_dir root = None ->
  slash ∉ first -> first <> [] -> first <> py "." -> first <> py ".." ->
  output_dir root ++ [first] ∉ Posix.dirs disk ->
  Posix.files disk !! (output_dir root ++ [first]) = None ->
  the_sink (first ++ slash :: rest) records (mkSink disk reads)
  = (Raise Posix.FileNotFoundError,
     mkSink (Posix.mkFs ({[ output_dir root ]} ∪ Posix.dirs disk) (Posix.files disk))
            (S reads)).
Proof.
  intros Hwalk Hroot Hfile Hslash Hempty Hdot Hdots Hdir Hnofile.
  rewrite (sink_steps _ records disk reads Hroot Hfile). cbv zeta.
  unfold Posix.open_w.
  rewrite (debug_path_nested root first rest _ Hslash Hempty Hdot).
  rewrite (walk_to_output_dir disk _ Hwalk Hroot).
  rewrite walk_down; [|apply output_dir_made|exact Hdots].
  pose proof (path_parts_file_name rest (wall_clock reads)) as Hparts.
  destruct (path_parts (debug_file_name rest (strftime_stamp (wall_clock reads))))
    as [|part parts]; [contradiction|].
  simpl. unfold Posix.enter. cbn [Posix.dirs Posix.files].
  rewrite bool_decide_eq_false_2.
  - rewrite Hnofile. rewrite bool_decide_eq_false_2; [reflexivity|].
    intros [? ?]. discriminate.
  - intros [Hin|Hin]%elem_of_union; [|contradiction].
    apply elem_of_singleton in Hin. symmetry in Hin.
    now apply output_dir_not_under in Hin.
Qed.

(** X21. When [etl_output] exists as a regular file, [write_debug_json]
    raises [FileExistsError] from [mkdir] and does nothing else: the disk is
    as it was and the clock is not read. *)
Theorem X21_output_dir_is_a_file (endpoint : str) (records : Docs) (disk : Posix.fs)
    (reads : nat) :
  root ∈ Posix.dirs disk ->
  output_dir root ∉ Posix.dirs disk ->
  is_Some (Posix.files disk !! output_dir root) ->
  the_sink endpoint records (mkSink disk reads)
  = (Raise Posix.FileExistsError, mkSink disk reads).
Proof.
  intros Hroot Hdir Hfile.
  unfold posix_write_debug_json, write_debug_json, bind, on_disk.
  cbn [sink_disk sink_clock_reads]. fold (output_dir root).
  assert (Hmkdir : Posix.mkdir (output_dir root) disk = (Raise Posix.FileExistsError, disk)).
  { unfold Posix.mkdir, output_dir.
    rewrite length_app, Nat.add_comm. cbn [length Nat.add Posix.mkdir_parents].
    unfold Posix.os_mkdir. rewrite removelast_last, (enter_dir disk root Hroot).
    fold (output_dir root).
    rewrite (bool_decide_eq_false_2 _ Hdir), (bool_decide_eq_true_2 _ Hfile).
    reflexivity. }
  now rewrite Hmkdir.
Qed.

(** X22. An endpoint that starts with [../] takes the debug file out of
    [etl_output]: the file is written into the module's own directory, and
    the path returned still goes through [etl_output/..]. *)
Theorem X22_dotdot_endpoint_leaves_output_dir (name : str) (records : Docs)
    (disk : Posix.fs) (reads : nat) :
  Posix.walk disk [] root = Ok root ->
  root ∈ Posix.dirs disk ->
  Posix.files disk !! output_dir root = None ->
  slash ∉ name ->
  root ++ [debug_file_name name (strftime_stamp (wall_clock reads))] ∉ Posix.dirs disk ->
  let file_name := debug_file_name name (strftime_stamp (wall_clock reads)) in
  the_sink (py "../" ++ name) records (mkSink disk reads)
  = (match snd (dumps records) with
     | None => Ok (output_dir root ++ [py ".."; file_name])
     | Some e => Raise e
     end,
     mkSink (Posix.mkFs ({[ output_dir root ]} ∪ Posix.dirs disk)
               (<[root ++ [file_name] := fst (dumps records)]> (Posix.files disk)))
            (S reads)).
Proof.
  intros Hwalk Hroot Hfile Hslash Htarget file_name.
  change (py "../" ++ name) with (py ".." ++ slash :: name).
  rewrite (sink_steps _ records disk reads Hroot Hfile). cbv zeta.
  rewrite (debug_path_nested root (py "..") name);
    [|vm_compute; intros H; repeat (apply elem_of_cons in H as [H|H]; [discriminate|]);
      now apply not_elem_of_nil in H
     |discriminate|vm_compute; discriminate].
  rewrite (path_parts_plain name _ Hslash). fold file_name.
  rewrite (open_w_at _ _ (root ++ [file_name])).
  - cbn [Posix.dirs Posix.files]. now rewrite write_after_open.
  - rewrite (walk_to_output_dir disk _ Hwalk Hroot).
    rewrite walk_up by apply output_dir_made.
    unfold output_dir. rewrite removelast_last.
    rewrite walk_down; [reflexivity| |apply debug_file_name_not_dotdot].
    simpl. apply elem_of_union_r, Hroot.
  - simpl. intros [Hin|Hin]%elem_of_union; [|contradiction].
    apply elem_of_singleton in Hin. unfold output_dir in Hin.
    apply app_inv_head in Hin. injection Hin as Hin.
    apply (f_equal (@reverse N)) in Hin. unfold file_name, debug_file_name in Hin.
    rewrite !reverse_app in Hin. vm_compute in Hin. discriminate.
Qed.

(** X23. Two calls for the same endpoint whose clock readings fall in the
    same second write to the same file: after the second call the file holds
    what the second dump wrote and nothing of the first. *)
Theorem X23_same_second_overwrites (endpoint : str) (records1 records2 : Docs)
    (disk : Posix.fs) (reads : nat) :
  Posix.walk disk [] root = Ok root ->
  root ∈ Posix.dirs disk ->
  Posix.files disk !! output_dir root = None ->
  slash ∉ endpoint ->
  debug_path root endpoint (wall_clock reads) ∉ Posix.dirs disk ->
  strftime_stamp (wall_clock (S reads)) = strftime_stamp (wall_clock reads) ->
  let target := debug_path root endpoint (wall_clock reads) in
  let first_call := the_sink endpoint records1 (mkSink disk reads) in
  let second_call := the_sink endpoint records2 (snd first_call) in
  sink_disk (snd second_call)
  = Posix.mkFs ({[ output_dir root ]} ∪ Posix.dirs disk)
      (<[target := fst (dumps records2)]> (Posix.files disk)).
Proof.
  intros Hwalk Hroot Hfile Hslash Htarget Hsecond target first_call second_call.
  subst second_call first_call.
  rewrite (sink_plain_endpoint endpoint records1 disk reads Hwalk Hroot Hfile Hslash Htarget).
  cbn [snd]. fold target.
  assert (Hsame : debug_path root endpoint (wall_clock (S reads)) = target).
  { unfold target, debug_path. now rewrite Hsecond. }
  assert (Hnew : target ∉ {[ output_dir root ]} ∪ Posix.dirs disk).
  { intros [Hin|Hin]%elem_of_union; [|contradiction].
    apply elem_of_singleton in Hin. unfold target in Hin.
    rewrite (debug_path_plain root endpoint _ Hslash) in Hin.
    symmetry in Hin. now apply output_dir_not_under in Hin. }
  rewrite sink_plain_endpoint.
  - cbn [snd sink_disk Posix.dirs Posix.files]. rewrite Hsame.
    rewrite insert_insert_eq. f_equal.
    apply subseteq_union_1_L, union_subseteq_l.
  - apply (walk_more_dirs disk); [apply union_subseteq_r|exact Hwalk].
  - apply elem_of_union_r, Hroot.
  - cbn [Posix.files]. rewrite lookup_insert_ne; [exact Hfile|].
    unfold target. rewrite (debug_path_plain root endpoint _ Hslash).
    intros Heq. symmetry in Heq. now apply output_dir_not_under in Heq.
  - exact Hslash.
  - rewrite Hsame. exact Hnew.
Qed.
End SinkFacts.

Ltac on_sample_disk :=
  first [ reflexivity
        | apply (bool_decide_unpack _); vm_compute; exact I
        | discriminate
        | vm_compute; discriminate ].

Lemma X19_debug_file_written_witness :
  Posix.files
    (sink_disk (snd (posix_write_debug_json sample_root sample_now sample_dumps
                       (py "posts") [] (mkSink sample_disk 0))))
    !! (sample_root ++ [py "etl_output"; py "posts_20240102_030405.json"])
  = Some (py "[...]").
Proof.
  destruct (X19_debug_file_written sample_root sample_now sample_dumps
              (py "posts") [] sample_disk 0 (py "[...]") None) as (_ & Hfile & _);
    [on_sample_disk ..|exact Hfile].
Defined.

Lemma X20_slash_endpoint_needs_its_directory_witness :
  fst (posix_write_debug_json sample_root sample_now sample_dumps
         (py "users/active") [] (mkSink sample_disk 0))
  = Raise Posix.FileNotFoundError.
Proof.
  change (py "users/active") with (py "users" ++ slash :: py "active").
  rewrite (X20_slash_endpoint_needs_its_directory sample_root sample_now sample_dumps
             (py "users") (py "active") [] sample_disk 0); on_sample_disk.
Defined.

Lemma X21_output_dir_is_a_file_witness :
  posix_write_debug_json sample_root sample_now sample_dumps (py "posts") []
    (mkSink (Posix.mkFs (Posix.dirs sample_disk)
               (<[output_dir sample_root := py "notes"]> (Posix.files sample_disk))) 0)
  = (Raise Posix.FileExistsError,
     mkSink (Posix.mkFs (Posix.dirs sample_disk)
               (<[output_dir sample_root := py "notes"]> (Posix.files sample_disk))) 0).
Proof.
  apply (X21_output_dir_is_a_file sample_root sample_now sample_dumps); on_sample_disk.
Defined.

Lemma X22_dotdot_endpoint_leaves_output_dir_witness :
  Posix.files
    (sink_disk (snd (posix_write_debug_json sample_root sample_now sample_dumps
                       (py "../posts") [] (mkSink sample_disk 0))))
    !! (sample_root ++ [py "posts_20240102_030405.json"])
  = Some (py "[...]").
Proof.
  change (py "../posts") with (py "../" ++ py "posts").
  rewrite (X22_dotdot_endpoint_leaves_output_dir sample_root sample_now sample_dumps
             (py "posts") [] sample_disk 0); on_sample_disk.
Defined.

Lemma X23_same_second_overwrites_witness :
  Posix.files
    (sink_disk
       (snd (posix_write_debug_json sample_root (fun _ => sample_now 0)
               (fun docs : list nat => (decimal (length docs), None))
               (py "posts") [7%nat]
               (snd (posix_write_debug_json sample_root (fun _ => sample_now 0)
                       (fun docs : list nat => (decimal (length docs), None))
                       (py "posts") [] (mkSink sample_disk 0))))))
    !! (sample_root ++ [py "etl_output"; py "posts_20240102_030405.json"])
  = Some (py "1").
Proof.
  rewrite (X23_same_second_overwrites sample_root (fun _ => sample_now 0)
             (fun docs : list nat => (decimal (length docs), None))
             (py "posts") [] [7%nat] sample_disk 0); on_sample_disk.
Defined.

(** ** [load_to_mongo] on dictionary objects *)

Section PymongoObjectFacts.
Context {K : Type} `{EqDecision K}.
Implicit Types (ids : gmap loc (Pymongo.id (K := K))) (documents : list loc).



Lemma assign_ids_agree {Doc : Type} (f g : Doc -> option K) (docs : list Doc) :
  forall oid,
    (forall d, d ∈ docs -> f d = g d) ->
    Pymongo.assign_ids f docs oid = Pymongo.assign_ids g docs oid.
Proof.
  induction docs as [|d ds IH]; intros oid Hagree; [reflexivity|]. simpl.
  rewrite <- (Hagree d) by apply list_elem_of_here.
  destruct (f d); rewrite IH; try reflexivity;
    intros d' Hd'; apply Hagree; now apply list_elem_of_further.
Qed.

(** On distinct dictionaries, none of which holds a generated [_id], the
    in-place assignment sends what the assignment on values sends. *)
Lemma assign_ids_in_place_distinct documents :
  forall (oid : nat) ids,
    NoDup documents ->
    (forall d n, d ∈ documents -> ids !! d <> Some (inr n)) ->
    fst (assign_ids_in_place documents oid ids)
    = Pymongo.assign_ids (held_id ids) documents oid.
Proof.
  induction documents as [|d ds IH]; intros oid ids Hdistinct Hgiven; [reflexivity|].
  apply NoDup_cons in Hdistinct as [Hd Hdistinct]. simpl. unfold held_id at 1.
  destruct (ids !! d) as [[k|n]|] eqn:Hid.
  - specialize (IH oid ids Hdistinct).
    destruct (assign_ids_in_place ds oid ids) as [[batch oid'] ids'].
    rewrite <- IH; [reflexivity|].
    intros d' n Hd'. apply Hgiven. now apply list_elem_of_further.
  - exfalso. apply (Hgiven d n); [apply list_elem_of_here|exact Hid].
  - specialize (IH (S oid) (<[d := inr oid]> ids) Hdistinct).
    destruct (assign_ids_in_place ds (S oid) (<[d := inr oid]> ids)) as [[batch oid'] ids'].
    rewrite (assign_ids_agree (held_id ids) (held_id (<[d := inr oid]> ids))).
    + rewrite <- IH; [reflexivity|].
      intros d' n Hd'. rewrite lookup_insert_ne by (intros ->; contradiction).
      apply Hgiven. now apply list_elem_of_further.
    + intros d' Hd'. unfold held_id.
      now rewrite lookup_insert_ne by (intros ->; contradiction).
Qed.

(** So against a reachable collection the two drivers return the same and
    leave the same collection. *)
Lemma insert_many_in_place_distinct documents (ordered : bool)
    (w : object_world (K := K)) :
  NoDup documents ->
  (forall d n, d ∈ documents -> doc_ids w !! d <> Some (inr n)) ->
  Pymongo.reachable (obj_server w) = true ->
  let after := insert_many_in_place documents ordered w in
  (fst after, obj_server (snd after))
  = Pymongo.insert_many (held_id (doc_ids w)) documents ordered (obj_server w).
Proof.
  intros Hdistinct Hgiven Hreach after. subst after.
  unfold insert_many_in_place, Pymongo.insert_many. rewrite Hreach.
  case_bool_decide; [reflexivity|].
  pose proof (assign_ids_in_place_distinct documents (Pymongo.next_oid (obj_server w))
                (doc_ids w) Hdistinct Hgiven) as Hsame.
  destruct (assign_ids_in_place _ _ _) as [[batch oid'] ids'].
  simpl in Hsame. rewrite <- Hsame. simpl negb. cbv iota.
  destruct (Pymongo.write_batch ordered 0 batch _) as [present' [|err errs]]; reflexivity.
Qed.

End PymongoObjectFacts.

(** One dictionary listed twice is sent with one [_id] twice: the first
    write stores it, the second fails. *)
Lemma same_dictionary_twice :
  load_objects_to_mongo (py "mongodb://localhost:27017") (py "etl_db") (py "posts_raw")
    [1%positive; 1%positive] fresh_objects
  = (Raise (BulkWriteError 1 [1%nat]),
     mkObjects (Pymongo.mkServer true [inr 0%nat] 1) {[ 1%positive := inr 0%nat ]}).
Proof. vm_compute. reflexivity. Qed.

